(** * vue-model: the Model constructor and its dispatch engine

    A shallow embedding of the ES module that defines the class [Model] and
    of the bundled build [dist/vueModello.js], followed by the properties of
    the attribute resolver, the namespace composer and the dispatch engine.

    Conventions of the embedding.
    - A JavaScript object whose key order is observable (the [actions] and
      [mutations] tables, the [mixins] table, a state snapshot) is an
      association list in own-key enumeration order; a JavaScript object that
      is only read by key (rules, property descriptors, the binding map) is a
      [gmap].  Only own properties are modelled: names are assumed different
      from the members of [Object.prototype].
    - User functions (state factories, actions, mutations, handlers) run in a
      store of mutable objects and either return or throw.
    - Numbers are integers; no floating point value occurs in the engine. *)

From Stdlib Require Import ZArith NArith String Ascii List Bool Lia.
From stdpp Require Import base option list gmap strings.

Local Open Scope string_scope.
Local Open Scope list_scope.

(** ** Objects with an observable key order *)

Module Obj.

(** Array indices are the canonical decimal strings below [2^32 - 1]; the
    own keys of an object enumerate with the array indices first, in
    ascending order, and then the other keys in insertion order. *)

Definition digit (c : ascii) : option N :=
  let n := N_of_ascii c in
  if ((48 <=? n) && (n <=? 57))%N then Some (n - 48)%N else None.

Fixpoint digits (s : string) (acc : N) : option N :=
  match s with
  | EmptyString => Some acc
  | String c r =>
      match digit c with
      | Some d => digits r (10 * acc + d)%N
      | None => None
      end
  end.

Definition array_index (s : string) : option N :=
  match s with
  | EmptyString => None
  | String c r =>
      if Ascii.eqb c "0"
      then match r with EmptyString => Some 0%N | _ => None end
      else match digits s 0 with
           | Some n => if (n <? 4294967295)%N then Some n else None
           | None => None
           end
  end.

Section Ops.
Context {V : Type}.

Fixpoint get (k : string) (o : list (string * V)) : option V :=
  match o with
  | [] => None
  | (k', v) :: r => if String.eqb k k' then Some v else get k r
  end.

Definition has (k : string) (o : list (string * V)) : bool :=
  match get k o with Some _ => true | None => false end.

Definition keys (o : list (string * V)) : list string := map fst o.

(** [o[k] = v] for a key that [o] already has: the value changes, the
    position does not. *)
Fixpoint replace (k : string) (v : V) (o : list (string * V)) : list (string * V) :=
  match o with
  | [] => []
  | (k', v') :: r =>
      if String.eqb k k' then (k, v) :: r else (k', v') :: replace k v r
  end.

(** A new array index [n] goes before the first key that is not an array
    index or is a larger one. *)
Fixpoint place (n : N) (k : string) (v : V) (o : list (string * V)) : list (string * V) :=
  match o with
  | [] => [(k, v)]
  | (k', v') :: r =>
      match array_index k' with
      | Some n' => if (n <? n')%N then (k, v) :: o else (k', v') :: place n k v r
      | None => (k, v) :: o
      end
  end.

(** [o[k] = v] *)
Definition set (k : string) (v : V) (o : list (string * V)) : list (string * V) :=
  if has k o then replace k v o
  else match array_index k with
       | Some n => place n k v o
       | None => o ++ [(k, v)]
       end.

(** [delete o[k]] *)
Fixpoint remove (k : string) (o : list (string * V)) : list (string * V) :=
  match o with
  | [] => []
  | (k', v') :: r =>
      if String.eqb k k' then remove k r else (k', v') :: remove k r
  end.

End Ops.

End Obj.

(** ** Values, the store and the effects of user code *)

(** Objects that user code owns and mutates (the state slices) live in the
    store and are passed by reference ([VObject]); objects that the engine
    builds and hands out without mutating them afterwards (a snapshot, a
    default array) are carried by value ([VRecord], [VArray]).  [VPromise] is
    a promise made by user code; [VThen p v] is [p.then(() => v)] and
    [VAll ps] is [Promise.all(ps)]. *)
#[warnings="-register-all"]
Inductive value : Type :=
| VUndefined
| VNull
| VBool (b : bool)
| VNum (n : Z)
| VStr (s : string)
| VArray (items : list value)
| VRecord (fields : list (string * value))
| VObject (l : nat)
| VPromise (id : nat)
| VThen (src : value) (result : value)
| VAll (members : list value).

Definition truthy (v : value) : bool :=
  match v with
  | VUndefined | VNull | VBool false | VNum 0 | VStr "" => false
  | _ => true
  end.

Inductive error : Type :=
| TypeError (what : string)
| ReferenceError (name : string)
| RangeError
| Raised (v : value).

Inductive outcome (A : Type) : Type :=
| Return (a : A)
| Throw (e : error).
Arguments Return {A} a.
Arguments Throw {A} e.

Definition store := gmap nat (gmap string value).

(** A computation of user code or of the engine: it reads and writes the
    store, and returns or throws; what it wrote before it throws stays. *)
Definition M (A : Type) : Type := store -> outcome A * store.

Definition ret {A} (a : A) : M A := fun s => (Return a, s).
Definition throw {A} (e : error) : M A := fun s => (Throw e, s).
Definition bind {A B} (m : M A) (f : A -> M B) : M B :=
  fun s => match m s with
           | (Return a, s') => f a s'
           | (Throw e, s') => (Throw e, s')
           end.

Notation "x <- m ;; k" := (bind m (fun x => k))
  (at level 100, m at next level, right associativity).

(** [xs.map(f)], left to right, stopping at the first throw. *)
Fixpoint mapM {A B} (f : A -> M B) (xs : list A) : M (list B) :=
  match xs with
  | [] => ret []
  | x :: r => y <- f x ;; ys <- mapM f r ;; ret (y :: ys)
  end.

(** [xs.forEach(f)] *)
Fixpoint forEach {A} (f : A -> M unit) (xs : list A) : M unit :=
  match xs with
  | [] => ret tt
  | x :: r => _ <- f x ;; forEach f r
  end.

(** A loop that threads an accumulator through effectful steps. *)
Fixpoint foldM {A B} (f : B -> A -> M B) (b : B) (xs : list A) : M B :=
  match xs with
  | [] => ret b
  | x :: r => b' <- f b x ;; foldM f b' r
  end.

(** A property key: [o[undefined]] reads the key ["undefined"]. *)
Definition key_of (k : option string) : string := default "undefined" k.

(** [o[k]], [undefined] when [o] has no such key. *)
Definition prop (k : string) (o : list (string * value)) : value :=
  default VUndefined (Obj.get k o).

(** ** The execution context of an action ([makeActionContext], imported by
    the ES module and bundled in [dist/vueModello.js]) *)

Definition mutationFn := list value -> M value.

(** The third field of a context: the bundled build passes the schema's
    [service] value, the ES module passes the model's bound [dispatch]. *)
Inductive serviceHandle : Type :=
| ServiceValue (v : value)
| ServiceDispatch (f : string -> list value -> M value).

Record context : Type := Context {
  ctx_state : value;
  ctx_service : serviceHandle;
  ctx_dispatch : string -> list value -> M value
}.

Definition actionFn := context -> list value -> M value.

(** A handler receives [(namespace, actionName, args)], [args] being the
    context followed by the business arguments. *)
Definition handlerFn := option string -> string -> context * list value -> M value.

(** An entry of the top level of an [actions] or [mutations] table: a
    function of the model itself, or the table of a namespace. *)
Inductive entry (F : Type) : Type :=
| EFun (f : F)
| ETable (t : list (string * F)).
Arguments EFun {F} f.
Arguments ETable {F} t.

(** Read as a table, a function object has no enumerable own key. *)
Definition as_table {F} (e : entry F) : list (string * F) :=
  match e with
  | ETable t => t
  | EFun _ => []
  end.

Definition makeActionContext (mutations : option (entry mutationFn))
    (state : value) (svc : serviceHandle) : context :=
  {| ctx_state := state;
     ctx_service := svc;
     ctx_dispatch := fun mutationName args =>
       match mutations with
       | None => throw (TypeError "mutations is undefined")
       | Some table =>
           match Obj.get mutationName (as_table table) with
           | Some mutation => mutation (state :: args)
           | None => ret VUndefined
           end
       end |}.

(** ** The schema and the constructed model *)

(** The [type] of a property descriptor: one of the constructors the
    constructor switches on, an array of types, or anything else. *)
Inductive ptype : Type :=
| TString
| TNumber
| TBoolean
| TArray (elems : list string)
| TOther (name : string).

(** [pd_defaultValue] is [None] when the descriptor has no [defaultValue]
    key, and [Some VUndefined] when the key is there with value
    [undefined]. *)
Record propDesc : Type := PropDesc {
  pd_type : ptype;
  pd_label : option string;
  pd_defaultValue : option value
}.

Record bindingDesc : Type := Binding {
  bindingModelName : string;
  propMap : gmap string string
}.

Record mixin : Type := Mixin {
  mx_state : M value;
  mx_actions : list (string * actionFn);
  mx_mutations : list (string * mutationFn)
}.

(** The schema handed to the constructor.  [St] is what the schema's own
    state factory returns: the slice of the model itself in the ES module
    (the constructor nests it under [modelName]), the whole map from
    namespace to slice in the bundled build. *)
Record modelDesc (St : Type) : Type := ModelDesc {
  modelName : string;
  properties : gmap string propDesc;
  rules : option (gmap string (gmap string value));
  binding : option bindingDesc;
  mixins : option (list (string * mixin));
  state : option (M St);
  actions : option (list (string * entry actionFn));
  mutations : option (list (string * entry mutationFn));
  service : value
}.
Arguments ModelDesc {St}.
Arguments modelName {St}.
Arguments properties {St}.
Arguments rules {St}.
Arguments binding {St}.
Arguments mixins {St}.
Arguments state {St}.
Arguments actions {St}.
Arguments mutations {St}.
Arguments service {St}.

(** What the methods of a constructed model close over: the schema as the
    constructor left it ([m_actions], [m_mutations] and [m_state] are
    [modelDesc.actions], [modelDesc.mutations] and [modelDesc.state] after
    construction) and the constructor's local tables. *)
Record Model : Type := MkModel {
  m_modelName : string;
  m_service : value;
  m_properties : gmap string propDesc;
  m_rules : option (gmap string (gmap string value));
  m_binding : option bindingDesc;
  bindingMap : gmap string string;
  defaultState : gmap string value;
  labels : gmap string string;
  m_actions : list (string * entry actionFn);
  m_mutations : list (string * entry mutationFn);
  m_state : M (list (string * value));
  actionStateMap : gmap string string;
  beforeDispatchHanlers : list handlerFn
}.

(** *** [regDefaultDesc]: the model's own functions go under [modelName] *)

(** One turn of [for (let name in desc)].  [defaults] is the object that
    [desc[modelName]] held when the loop started: while that entry is a
    table, [defaults[name] = desc[name]] updates it in place; when it is a
    function, the assignment sets a property of that function object and the
    table of [desc] does not see it. *)
Definition regDefaultStep {F} (modelName : string)
    (desc : list (string * entry F)) (name : string) : list (string * entry F) :=
  match Obj.get name desc with
  | Some (EFun f) =>
      let desc' :=
        match Obj.get modelName desc with
        | Some (ETable defaults) =>
            Obj.set modelName (ETable (Obj.set name f defaults)) desc
        | _ => desc
        end in
      Obj.remove name desc'
  | _ => desc
  end.

Definition regDefaultDesc {F} (modelName : string)
    (desc : list (string * entry F)) : list (string * entry F) :=
  let desc0 :=
    match Obj.get modelName desc with
    | Some _ => desc
    | None => Obj.set modelName (ETable []) desc
    end in
  fold_left (regDefaultStep modelName) (Obj.keys desc0) desc0.

(** *** The pieces of the constructor *)

(** [function () { let state = {}; state[modelDesc.modelName] = _state(); return state }] *)
Definition wrapState (modelName : string) (_state : M value) : M (list (string * value)) :=
  v <- _state ;; ret (Obj.set modelName v []).

(** The tables the mixin loop writes. *)
Record mixed : Type := Mixed {
  mixinState : list (string * M value);
  mixedActions : list (string * entry actionFn);
  mixedMutations : list (string * entry mutationFn)
}.

Definition mixStep (acc : mixed) (m : string * mixin) : mixed :=
  let (regState, module) := m in
  {| mixinState := Obj.set regState (mx_state module) (mixinState acc);
     mixedActions := Obj.set regState (ETable (mx_actions module)) (mixedActions acc);
     mixedMutations := Obj.set regState (ETable (mx_mutations module)) (mixedMutations acc) |}.

Definition mixIn (mixins : option (list (string * mixin)))
    (actions : list (string * entry actionFn))
    (mutations : list (string * entry mutationFn)) : mixed :=
  fold_left mixStep (default [] mixins)
    {| mixinState := []; mixedActions := actions; mixedMutations := mutations |}.

(** [for (let state in modelDesc.actions)
       Object.keys(modelDesc.actions[state]).forEach(name => actionStateMap[name] = state)] *)
Definition indexNamespace (acc : gmap string string)
    (ns : string * entry actionFn) : gmap string string :=
  fold_left (fun acc name => <[name := ns.1]> acc) (Obj.keys (as_table ns.2)) acc.

Definition buildActionStateMap (actions : list (string * entry actionFn)) : gmap string string :=
  fold_left indexNamespace actions ∅.

(** The composed state factory. *)
Definition composeState (oldState : M (list (string * value)))
    (mixinState : list (string * M value)) : M (list (string * value)) :=
  result <- oldState ;;
  foldM (fun result ms => v <- ms.2 ;; ret (Obj.set ms.1 v result)) result mixinState.

(** The value the constructor computes from [type] when nothing else gives a
    default; [None] where it leaves [value] undefined. *)
Definition autoDefault (Type_ : ptype) : option value :=
  match Type_ with
  | TArray _ => Some (VArray [])
  | TString => Some (VStr "")
  | TNumber => Some (VNum 0)
  | TBoolean => Some (VBool true)
  | TOther _ => None
  end.

(** One turn of [for (let prop in properties)]. *)
Definition collectProp (bindingMap : gmap string string) (prop : string)
    (propDesc : propDesc) (acc : gmap string string * gmap string value)
    : gmap string string * gmap string value :=
  let labels := <[prop := default "" (pd_label propDesc)]> acc.1 in
  let defaultState :=
    match pd_defaultValue propDesc with
    | Some v => <[prop := v]> acc.2
    | None =>
        match bindingMap !! prop with
        | Some _ => acc.2
        | None =>
            match autoDefault (pd_type propDesc) with
            | Some v => <[prop := v]> acc.2
            | None => acc.2
            end
        end
    end in
  (labels, defaultState).

Definition collectDefaults (bindingMap : gmap string string)
    (properties : gmap string propDesc) : gmap string string * gmap string value :=
  map_fold (collectProp bindingMap) (∅, ∅) properties.

(** *** [new Model(modelDesc)], ES module *)
Definition construct (modelDesc : modelDesc value) : Model :=
  let bindingMap :=
    match binding modelDesc with Some b => propMap b | None => ∅ end in
  let state1 := wrapState (modelName modelDesc) <$> state modelDesc in
  let actions1 := regDefaultDesc (modelName modelDesc) <$> actions modelDesc in
  let mutations1 := regDefaultDesc (modelName modelDesc) <$> mutations modelDesc in
  let state2 := default (ret []) state1 in
  let actions2 := default [] actions1 in
  let mutations2 := default [] mutations1 in
  let mx := mixIn (mixins modelDesc) actions2 mutations2 in
  let collected := collectDefaults bindingMap (properties modelDesc) in
  {| m_modelName := modelName modelDesc;
     m_service := VUndefined; (* the ES module sets no [this.service] *)
     m_properties := properties modelDesc;
     m_rules := rules modelDesc;
     m_binding := binding modelDesc;
     bindingMap := bindingMap;
     defaultState := collected.2;
     labels := collected.1;
     m_actions := mixedActions mx;
     m_mutations := mixedMutations mx;
     m_state := composeState state2 (mixinState mx);
     actionStateMap := buildActionStateMap (mixedActions mx);
     beforeDispatchHanlers := [] |}.

(** [this.beforeDispatch = function (handler) { beforeDispatchHanlers.push(handler) }] *)
Definition beforeDispatch (handler : handlerFn) (m : Model) : Model :=
  {| m_modelName := m_modelName m;
     m_service := m_service m;
     m_properties := m_properties m;
     m_rules := m_rules m;
     m_binding := m_binding m;
     bindingMap := bindingMap m;
     defaultState := defaultState m;
     labels := labels m;
     m_actions := m_actions m;
     m_mutations := m_mutations m;
     m_state := m_state m;
     actionStateMap := actionStateMap m;
     beforeDispatchHanlers := beforeDispatchHanlers m ++ [handler] |}.

(** ** The registry ([ModelMan]) *)

Module ModelMan.
(** [modelStore[model.modelName] = model], for a constructed model *)
Definition reg (model : Model) (modelStore : gmap string Model) : gmap string Model :=
  <[m_modelName model := model]> modelStore.
Definition get (modelName : string) (modelStore : gmap string Model) : option Model :=
  modelStore !! modelName.
Definition unReg (modelName : string) (modelStore : gmap string Model) : gmap string Model :=
  delete modelName modelStore.
End ModelMan.

(** ** The attribute resolver *)

(** [binding ? ModelMan.get(binding.modelName) : null] *)
Definition getBindingModel (modelStore : gmap string Model) (m : Model) : option Model :=
  match m_binding m with
  | Some b => ModelMan.get (bindingModelName b) modelStore
  | None => None
  end.

(** [let mapProp = bindingMap[prop]; if (mapProp) ...]: the mapped name when
    it is there and truthy, that is, not the empty string. *)
Definition mapProp (m : Model) (prop : string) : option string :=
  match bindingMap m !! prop with
  | Some q => if String.eqb q "" then None else Some q
  | None => None
  end.

(** [Object.assign(target, source)] on rules; a source that is [undefined]
    adds nothing.  [{...a, ...b}] is [assign (assign ∅ a) b]. *)
Definition assign (target : gmap string value) (source : option (gmap string value))
    : gmap string value :=
  match source with
  | Some src => src ∪ target
  | None => target
  end.

(** The resolver calls itself on the bound model; [depth] is the room left
    on the call stack, and a chain of bindings longer than that ends in a
    [RangeError], as a cycle of bindings does in JavaScript. *)
Fixpoint getPropRule (depth : nat) (modelStore : gmap string Model) (m : Model)
    (prop : string) : outcome (option (gmap string value)) :=
  let rule := match m_rules m with Some rules => rules !! prop | None => None end in
  match mapProp m prop with
  | Some mapped =>
      match getBindingModel modelStore m with
      | Some bindingModel =>
          match depth with
          | O => Throw RangeError
          | S depth' =>
              match getPropRule depth' modelStore bindingModel mapped with
              | Return (Some bindingRule) =>
                  Return (Some (assign (assign ∅ (Some bindingRule)) rule))
              | Return None => Return rule
              | Throw e => Throw e
              end
          end
      | None => Return rule
      end
  | None => Return rule
  end.

Fixpoint getPropLabel (depth : nat) (modelStore : gmap string Model) (m : Model)
    (prop : string) : outcome string :=
  let label := default "" (labels m !! prop) in
  if negb (String.eqb label "") then Return label
  else
    match mapProp m prop with
    | Some mapped =>
        match getBindingModel modelStore m with
        | Some bindingModel =>
            match depth with
            | O => Throw RangeError
            | S depth' => getPropLabel depth' modelStore bindingModel mapped
            end
        | None => Return ""
        end
    | None => Return ""
    end.

Definition is_undefined (v : value) : bool :=
  match v with VUndefined => true | _ => false end.

Fixpoint getPropDefaults (depth : nat) (modelStore : gmap string Model) (m : Model)
    (prop : string) : outcome value :=
  match m_properties m !! prop with
  | None => Throw (TypeError "propDesc is undefined")
  | Some propDesc =>
      match pd_defaultValue propDesc with
      | Some v => Return v
      | None =>
          (* if (prop in defaultState) return defaultState[prop]; return undefined *)
          let own := Return (default VUndefined (defaultState m !! prop)) in
          match mapProp m prop with
          | Some mapped =>
              match getBindingModel modelStore m with
              | Some bindingModel =>
                  match depth with
                  | O => Throw RangeError
                  | S depth' =>
                      match getPropDefaults depth' modelStore bindingModel mapped with
                      | Return defaults =>
                          if is_undefined defaults then own else Return defaults
                      | Throw e => Throw e
                      end
                  end
              | None => own
              end
          | None => own
          end
      end
  end.

(** ** The dispatch engine *)

Definition getStateActions (m : Model) (state : option string) : option (entry actionFn) :=
  Obj.get (key_of state) (m_actions m).

Definition getStateMutations (m : Model) (state : option string) : option (entry mutationFn) :=
  Obj.get (key_of state) (m_mutations m).

(** The argument of [getState]: left out, one name, or an array of names. *)
Inductive statesArg : Type :=
| StatesUndefined
| StatesString (s : string)
| StatesArray (l : list (option string)).

Definition statesOfKey (stateKey : option string) : statesArg :=
  match stateKey with
  | Some s => StatesString s
  | None => StatesUndefined
  end.

(** [states.forEach(s => result[s] = allState[s])] from [result = {}] *)
Definition pickStates (allState : list (string * value)) (states : list (option string))
    : list (string * value) :=
  fold_left (fun result s => Obj.set (key_of s) (prop (key_of s) allState) result) states [].

Definition getState (m : Model) (states : statesArg) : M (list (string * value)) :=
  allState <- m_state m ;;
  match states with
  | StatesUndefined => ret allState
  | StatesString s =>
      if String.eqb s "" then ret allState (* !states *)
      else ret (pickStates allState [Some s])
  | StatesArray l => ret (pickStates allState l)
  end.

(** [beforeDispatchHanlers.forEach(function () { handler.apply(null, args) })]:
    the callback takes no parameter and [handler] is bound in no enclosing
    scope, so evaluating it throws a [ReferenceError]. *)
Definition fireBeforeDispatch (m : Model) (state : option string) (action : string)
    (args : context * list value) : M unit :=
  forEach (fun _ : handlerFn => throw (ReferenceError "handler"))
          (beforeDispatchHanlers m).

(** [modelDesc.actions[state][action]], about to be applied *)
Definition actionOf (m : Model) (state : option string) (action : string) : M actionFn :=
  match Obj.get (key_of state) (m_actions m) with
  | None => throw (TypeError "modelDesc.actions[state] is undefined")
  | Some table =>
      match Obj.get action (as_table table) with
      | None => throw (TypeError "modelDesc.actions[state][action] is undefined")
      | Some f => ret f
      end
  end.

Definition isPromise (v : value) : bool :=
  match v with
  | VPromise _ | VThen _ _ | VAll _ => true
  | _ => false
  end.

(** [result && result.then] as a condition, in the store [s]: promises have
    the method; an object has what its own [then] property holds. *)
Definition thenable (s : store) (result : value) : bool :=
  truthy result &&
  match result with
  | VRecord fields => truthy (prop "then" fields)
  | VObject l =>
      truthy (default VUndefined ((s !! l) ≫= (fun o : gmap string value => o !! "then")))
  | v => isPromise v
  end.

Definition isThenable (result : value) : M bool :=
  fun s => (Return (thenable s result), s).

(** [result.then(() => state)] *)
Definition callThen (result : value) (state : value) : M value :=
  match result with
  | VUndefined | VNull => throw (TypeError "cannot read property then")
  | v => if isPromise v then ret (VThen v state)
         else throw (TypeError "result.then is not a function")
  end.

Definition applyAction (m : Model) (state : option string) (action : string)
    (args : context * list value) : M value :=
  _ <- fireBeforeDispatch m state action args ;;
  f <- actionOf m state action ;;
  result <- f args.1 args.2 ;;
  thenable <- isThenable result ;;
  if thenable then ret result else ret VUndefined.

(** The body of [this.dispatch], with [self] for [this.dispatch.bind(this)]. *)
Definition dispatchWith (self : string -> list value -> M value) (m : Model)
    (action : string) (bizArgs : list value) : M value :=
  let stateKey := actionStateMap m !! action in
  state <- getState m (statesOfKey stateKey) ;;
  let context :=
    makeActionContext (getStateMutations m stateKey)
                      (prop (key_of stateKey) state)
                      (ServiceDispatch self) in
  result <- applyAction m stateKey action (context, bizArgs) ;;
  thenable <- isThenable result ;;
  if thenable then callThen result (VRecord state) else ret VUndefined.

(** A call that finds no room on the stack. *)
Definition stackOverflow : string -> list value -> M value :=
  fun _ _ => throw RangeError.

(** [depth] bounds how deep actions may call the [dispatch] they are given. *)
Fixpoint dispatch (depth : nat) (m : Model) : string -> list value -> M value :=
  dispatchWith (match depth with O => stackOverflow | S d => dispatch d m end) m.

(** *** [dispatchAll] *)

(** The callback handed to [dispatchAll], as what it does with the
    [dispatch] it receives: it calls it, runs effects of its own and
    continues with their result, returns, or throws. *)
Inductive collector : Type :=
| CReturn
| CThrow (e : error)
| CDispatch (action : string) (args : list value) (k : collector)
| CRun (effect : M value) (k : value -> collector).

(** An element of [callers]: [{ stateKey, action, args }] *)
Record caller : Type := Caller {
  c_stateKey : option string;
  c_action : string;
  c_args : list value
}.

(** [subStates.add(stateKey)] on a [Set], which keeps insertion order. *)
Definition setAdd (stateKey : option string) (subStates : list (option string))
    : list (option string) :=
  if decide (stateKey ∈ subStates) then subStates else subStates ++ [stateKey].

(** [fn(dispatch)] with the local [dispatch] of [dispatchAll], which pushes
    onto [callers] and adds to [subStates]. *)
Fixpoint collect (m : Model) (fn : collector) (callers : list caller)
    (subStates : list (option string)) : M (list caller * list (option string)) :=
  match fn with
  | CReturn => ret (callers, subStates)
  | CThrow e => throw e
  | CDispatch action args k =>
      let stateKey := actionStateMap m !! action in
      collect m k (callers ++ [Caller stateKey action args]) (setAdd stateKey subStates)
  | CRun effect k => v <- effect ;; collect m (k v) callers subStates
  end.

(** The callback of [callers.map], over the snapshot [state]. *)
Definition runCaller (applyAction : Model -> option string -> string -> context * list value -> M value)
    (svc : serviceHandle) (m : Model) (state : list (string * value)) (c : caller) : M value :=
  let context :=
    makeActionContext (getStateMutations m (c_stateKey c))
                      (prop (key_of (c_stateKey c)) state)
                      svc in
  applyAction m (c_stateKey c) (c_action c) (context, c_args c).

Definition dispatchAllWith (self : string -> list value -> M value) (m : Model)
    (fn : collector) : M value :=
  collected <- collect m fn [] [] ;;
  state <- getState m (StatesArray collected.2) ;;
  results <- mapM (runCaller applyAction (ServiceDispatch self) m state) collected.1 ;;
  ret (VThen (VAll results) (VRecord state)).

Definition dispatchAll (depth : nat) (m : Model) (fn : collector) : M value :=
  dispatchAllWith (match depth with O => stackOverflow | S d => dispatch d m end) m fn.

(** ** The bundled build [dist/vueModello.js] *)

Module Dist.

(** The bundled constructor has neither [regDefaultDesc] nor the wrapping
    of the state factory: the schema's factory returns the whole map from
    namespace to slice. *)
Definition construct (modelDesc : modelDesc (list (string * value))) : Model :=
  let bindingMap :=
    match binding modelDesc with Some b => propMap b | None => ∅ end in
  let state1 := default (ret []) (state modelDesc) in
  let actions1 := default [] (actions modelDesc) in
  let mutations1 := default [] (mutations modelDesc) in
  let mx := mixIn (mixins modelDesc) actions1 mutations1 in
  let collected := collectDefaults bindingMap (properties modelDesc) in
  {| m_modelName := modelName modelDesc;
     m_service := service modelDesc;
     m_properties := properties modelDesc;
     m_rules := rules modelDesc;
     m_binding := binding modelDesc;
     bindingMap := bindingMap;
     defaultState := collected.2;
     labels := collected.1;
     m_actions := mixedActions mx;
     m_mutations := mixedMutations mx;
     m_state := composeState state1 (mixinState mx);
     actionStateMap := buildActionStateMap (mixedActions mx);
     beforeDispatchHanlers := [] |}.

Definition applyAction (m : Model) (state : option string) (action : string)
    (args : context * list value) : M value :=
  _ <- fireBeforeDispatch m state action args ;;
  f <- actionOf m state action ;;
  f args.1 args.2.

Definition dispatch (m : Model) (action : string) (bizArgs : list value) : M value :=
  let stateKey := actionStateMap m !! action in
  state <- getState m (statesOfKey stateKey) ;;
  let context :=
    makeActionContext (getStateMutations m stateKey)
                      (prop (key_of stateKey) state)
                      (ServiceValue (m_service m)) in
  result <- applyAction m stateKey action (context, bizArgs) ;;
  callThen result (VRecord state).

Definition dispatchAll (m : Model) (fn : collector) : M value :=
  collected <- collect m fn [] [] ;;
  state <- getState m (StatesArray collected.2) ;;
  results <- mapM (runCaller applyAction (ServiceValue (m_service m)) m state) collected.1 ;;
  ret (VThen (VAll results) (VRecord state)).

End Dist.

(** ** What a returned promise comes to *)

Inductive settlement : Type :=
| Pending
| Fulfilled (v : value)
| Rejected (reason : value).

(** [Promise.all]: rejected as soon as a member is (with the reason of the
    member that rejected, the leftmost one here when there are several),
    fulfilled with the array of the members' values once all are, pending
    otherwise. *)
Fixpoint joinAll (members : list settlement) : settlement :=
  match members with
  | [] => Fulfilled (VArray [])
  | Rejected r :: _ => Rejected r
  | Pending :: rest =>
      match joinAll rest with
      | Rejected r => Rejected r
      | _ => Pending
      end
  | Fulfilled v :: rest =>
      match joinAll rest with
      | Fulfilled (VArray vs) => Fulfilled (VArray (v :: vs))
      | other => other
      end
  end.

(** The state of a value used as a promise, at a moment when the promises
    made by user code are as [now] says and no reaction is waiting to run. *)
Fixpoint observe (now : nat -> settlement) (v : value) : settlement :=
  match v with
  | VPromise id => now id
  | VThen src result =>
      match observe now src with
      | Fulfilled _ => observe now result
      | Rejected r => Rejected r
      | Pending => Pending
      end
  | VAll members => joinAll (map (observe now) members)
  | other => Fulfilled other
  end.

(** ** Notions used in the statements *)

(** What the constructor's loop leaves in [defaultState] for one property. *)
Definition ownDefault (bindingMap : gmap string string) (prop : string)
    (propDesc : propDesc) : option value :=
  match pd_defaultValue propDesc with
  | Some v => Some v
  | None =>
      match bindingMap !! prop with
      | Some _ => None
      | None => autoDefault (pd_type propDesc)
      end
  end.

(** The property has a mapping and the lookup through it gives nothing: the
    mapped name is empty, or no model is registered under the bound name, or
    the bound model resolves the mapped property to [undefined]. *)
Definition remoteYieldsNothing (depth : nat) (modelStore : gmap string Model)
    (m : Model) (prop : string) : Prop :=
  mapProp m prop = None
  \/ getBindingModel modelStore m = None
  \/ exists mapped bindingModel depth',
       mapProp m prop = Some mapped
       /\ getBindingModel modelStore m = Some bindingModel
       /\ depth = S depth'
       /\ getPropDefaults depth' modelStore bindingModel mapped = Return VUndefined.

(** The model after the handlers [handlers] were registered, in order. *)
Definition registered (handlers : list handlerFn) (m : Model) : Model :=
  fold_left (fun m handler => beforeDispatch handler m) handlers m.

(** The index covers the [actions] table. *)
Definition indexed (m : Model) : Prop :=
  forall K t name,
    (K, t) ∈ m_actions m -> name ∈ Obj.keys (as_table t) ->
    is_Some (actionStateMap m !! name).

(** The table under [modelName] once the loop has gone through [names]: the
    functions found under these names in [desc] have been written into
    [defaults], in order. *)
Definition moved {F} (desc : list (string * entry F)) (names : list string)
    (defaults : list (string * F)) : list (string * F) :=
  fold_left (fun t name =>
               match Obj.get name desc with
               | Some (EFun f) => Obj.set name f t
               | _ => t
               end) names defaults.

Definition holdsFunction {F} (e : option (entry F)) : bool :=
  match e with Some (EFun _) => true | _ => false end.

(** The callback [d => { d(a1, ...args1); d(a2, ...args2); ... }]. *)
Fixpoint script (calls : list (string * list value)) : collector :=
  match calls with
  | [] => CReturn
  | (action, args) :: rest => CDispatch action args (script rest)
  end.

Definition record (m : Model) (call : string * list value) : caller :=
  Caller (actionStateMap m !! call.1) call.1 call.2.

(** What [applyAction] of the ES module passes on of a result obtained in
    store [s]: the result when it is thenable, [undefined] otherwise. *)
Definition kept (s : store) (result : value) : value :=
  if thenable s result then result else VUndefined.

(** The namespaces of the calls, each once, in the order of first use. *)
Definition namespaces (m : Model) (calls : list (string * list value)) : list (option string) :=
  fold_left (fun acc call => setAdd (actionStateMap m !! call.1) acc) calls [].

(** The execution phase in the words of the specification: the recorded
    calls run in call order, each action function on a context whose state
    is the slice of the one snapshot [snap] under the namespace of the
    action; [raws] are the results, [keeps] what the ES module keeps of
    them. *)
Inductive runsBatch (m : Model) (svc : serviceHandle) (snap : list (string * value))
  : list (string * list value) -> store -> list value -> list value -> store -> Prop :=
| RunsNil (s : store) : runsBatch m svc snap [] s [] [] s
| RunsCons (action ns : string) (args : list value) (rest : list (string * list value))
    (table : entry actionFn) (f : actionFn) (r : value) (raws keeps : list value)
    (s s1 s2 : store) :
    actionStateMap m !! action = Some ns ->
    Obj.get ns (m_actions m) = Some table ->
    Obj.get action (as_table table) = Some f ->
    f (makeActionContext (getStateMutations m (Some ns)) (prop ns snap) svc) args s
      = (Return r, s1) ->
    runsBatch m svc snap rest s1 raws keeps s2 ->
    runsBatch m svc snap ((action, args) :: rest) s (r :: raws) (kept s1 r :: keeps) s2.

(** ** A worked model *)

(** The schema of a counter: its own slice is an object [{ n: 0 }] made anew
    by each call of the state factory; the actions [incA] and [incB] and the
    asynchronous [later] are its own, top-level functions; the mixin
    [paging] brings an action that is also called [incA]. *)

Definition newCounter : M value :=
  fun s => (Return (VObject (size s)), <[size s := {["n" := VNum 0]}]> s).

(** [inc(state, k) { state.n += k }] *)
Definition inc : mutationFn :=
  fun args s =>
    match args with
    | [VObject l; VNum k] =>
        match s !! l with
        | Some o =>
            match o !! "n" with
            | Some (VNum n) => (Return VUndefined, <[l := <["n" := VNum (n + k)]> o]> s)
            | _ => (Throw (TypeError "state.n is not a number"), s)
            end
        | None => (Throw (TypeError "state is not an object"), s)
        end
    | _ => (Throw (TypeError "inc(state, k)"), s)
    end.

Definition incA : actionFn := fun ctx _ => ctx_dispatch ctx "inc" [VNum 1].
Definition incB : actionFn := fun ctx _ => ctx_dispatch ctx "inc" [VNum 10].
Definition later : actionFn :=
  fun ctx _ => _ <- ctx_dispatch ctx "inc" [VNum 100] ;; ret (VPromise 7).
Definition pagingIncA : actionFn := fun _ _ => ret (VStr "paging").

Definition paging : mixin :=
  {| mx_state := ret (VNum 1);
     mx_actions := [("incA", pagingIncA)];
     mx_mutations := [] |}.

Definition counterDesc (mixins : option (list (string * mixin))) : modelDesc value :=
  {| modelName := "counter";
     properties :=
       {[ "count" := PropDesc TNumber None None;
          "items" := PropDesc (TArray ["String"]) None None;
          "flag" := PropDesc TBoolean None None;
          "since" := PropDesc (TOther "Date") None None;
          "title" := PropDesc TString (Some "Title") (Some VUndefined);
          "owner" := PropDesc TString None None ]};
     rules := Some {[ "owner" := {[ "b" := VNum 3 ]} ]};
     binding := Some (Binding "base" {[ "owner" := "name"; "title" := "name" ]});
     mixins := mixins;
     state := Some newCounter;
     actions := Some [("incA", EFun incA); ("incB", EFun incB); ("later", EFun later)];
     mutations := Some [("inc", EFun inc)];
     service := VUndefined |}.

Definition counter : Model := construct (counterDesc None).

(** The model the counter is bound to. *)
Definition baseDesc : modelDesc value :=
  {| modelName := "base";
     properties := {[ "name" := PropDesc TString (Some "Name") None ]};
     rules := Some {[ "name" := {[ "a" := VNum 1; "b" := VNum 2 ]} ]};
     binding := None;
     mixins := None;
     state := None;
     actions := None;
     mutations := None;
     service := VUndefined |}.

Definition registry : gmap string Model := ModelMan.reg (construct baseDesc) ∅.

(** A handler that would leave a trace of the action it is told of, in the
    object at location 99. *)
Definition logHandler : handlerFn :=
  fun _ action _ s => (Return VUndefined, <[99 := {[ "seen" := VStr action ]}]> s).

(** The same counter for the bundled build: the state factory returns the
    map from namespace to slice, and the actions and mutations are given
    under their namespace. *)
Definition counterDistDesc : modelDesc (list (string * value)) :=
  {| modelName := "counter";
     properties := ∅;
     rules := None;
     binding := None;
     mixins := None;
     state := Some (v <- newCounter ;; ret [("counter", v)]);
     actions := Some [("counter", ETable [("incA", incA); ("incB", incB); ("later", later)])];
     mutations := Some [("counter", ETable [("inc", inc)])];
     service := VStr "api" |}.

Definition counterDist : Model := Dist.construct counterDistDesc.

(** The schema of the model [login] whose own actions are [login] and
    [logout]. *)
Definition loginDesc (login logout : actionFn) : modelDesc value :=
  {| modelName := "login";
     properties := ∅;
     rules := None;
     binding := None;
     mixins := None;
     state := None;
     actions := Some [("login", EFun login); ("logout", EFun logout)];
     mutations := None;
     service := VUndefined |}.

(** ** The other methods of a model and of the registry *)

(** The argument of [getRules]: one name, an array of names, or anything
    else (left out included). *)
Inductive propsArg : Type :=
| PropsString (s : string)
| PropsArray (l : list string)
| PropsOther.

(** [props.forEach((prop) => { rules[prop] = this.getPropRule(prop) })] *)
Fixpoint getRulesLoop (depth : nat) (modelStore : gmap string Model) (m : Model)
    (props : list string) (rules : list (string * option (gmap string value)))
    : outcome (list (string * option (gmap string value))) :=
  match props with
  | [] => Return rules
  | prop :: rest =>
      match getPropRule depth modelStore m prop with
      | Return rule => getRulesLoop depth modelStore m rest (Obj.set prop rule rules)
      | Throw e => Throw e
      end
  end.

(** [getRules(props)].  [Object.keys(properties)] is the argument [declared]:
    the map [m_properties] holds the descriptors by name and not their
    order, so the methods that walk the declared properties are given their
    names in declaration order. *)
Definition getRules (declared : list string) (depth : nat)
    (modelStore : gmap string Model) (m : Model) (props : propsArg)
    : outcome (list (string * option (gmap string value))) :=
  let props :=
    match props with
    | PropsString s => [s]
    | PropsArray l => l
    | PropsOther => declared
    end in
  getRulesLoop depth modelStore m props [].

(** [Object.keys(properties).map((prop) => this.getPropLabel(prop))] *)
Fixpoint getLabels (declared : list string) (depth : nat)
    (modelStore : gmap string Model) (m : Model) : outcome (list string) :=
  match declared with
  | [] => Return []
  | prop :: rest =>
      match getPropLabel depth modelStore m prop with
      | Return label =>
          match getLabels rest depth modelStore m with
          | Return labels => Return (label :: labels)
          | Throw e => Throw e
          end
      | Throw e => Throw e
      end
  end.

(** [Object.keys(properties).forEach((prop) => { defaults[prop] = this.getPropDefaults(prop) })] *)
Fixpoint defaultsLoop (depth : nat) (modelStore : gmap string Model) (m : Model)
    (props : list string) (defaults : list (string * value))
    : outcome (list (string * value)) :=
  match props with
  | [] => Return defaults
  | prop :: rest =>
      match getPropDefaults depth modelStore m prop with
      | Return v => defaultsLoop depth modelStore m rest (Obj.set prop v defaults)
      | Throw e => Throw e
      end
  end.

Definition defaults (declared : list string) (depth : nat)
    (modelStore : gmap string Model) (m : Model) : outcome (list (string * value)) :=
  defaultsLoop depth modelStore m declared [].

(** The registry of the bundled build with the arguments it accepts. *)
Module Registry.

(** What [reg] is given: a constructed model, or a schema. *)
Inductive regArg : Type :=
| RegModel (model : Model)
| RegSchema (modelDesc : modelDesc (list (string * value))).

(** [reg(model)]: a schema is constructed first. *)
Definition reg (model : regArg) (modelStore : gmap string Model) : gmap string Model :=
  match model with
  | RegModel m => <[m_modelName m := m]> modelStore
  | RegSchema modelDesc =>
      <[m_modelName (Dist.construct modelDesc) := Dist.construct modelDesc]> modelStore
  end.

(** What [unReg] is given: a model, a name, or something else. *)
Inductive unRegArg : Type :=
| UnRegModel (model : Model)
| UnRegName (modelName : string)
| UnRegOther (v : value).

Definition unReg (model : unRegArg) (modelStore : gmap string Model) : gmap string Model :=
  match model with
  | UnRegModel m => delete (m_modelName m) modelStore
  | UnRegName modelName => delete modelName modelStore
  | UnRegOther _ => modelStore
  end.

End Registry.

(** The local rule of a property: [rules ? rules[prop] : undefined]. *)
Definition localRule (m : Model) (prop : string) : option (gmap string value) :=
  match m_rules m with Some rules => rules !! prop | None => None end.

(** What [getPropDefaults] gives without looking through a binding: the
    explicit default, else the computed one, else [undefined]. *)
Definition localDefault (propDesc : propDesc) : value :=
  match pd_defaultValue propDesc with
  | Some v => v
  | None => default VUndefined (autoDefault (pd_type propDesc))
  end.


(** The schema object once [new Model(modelDesc)] has run on it.  The
    constructor of the ES module assigns to the object it is given:
    [modelDesc.state] is in the end the composed state factory,
    [modelDesc.actions] and [modelDesc.mutations] the composed tables; the
    other fields are not written.  The object that the composed factory
    returns is a value whose fields are the slices. *)
Definition schemaAfter (modelDesc : modelDesc value) :=
  {| modelName := modelName modelDesc;
     properties := properties modelDesc;
     rules := rules modelDesc;
     binding := binding modelDesc;
     mixins := mixins modelDesc;
     state := Some (result <- m_state (construct modelDesc) ;; ret (VRecord result));
     actions := Some (m_actions (construct modelDesc));
     mutations := Some (m_mutations (construct modelDesc));
     service := service modelDesc |}.

(** A model bound to itself: its property [x] is mapped to its own [x]. *)
Definition selfBoundDesc : modelDesc value :=
  {| modelName := "loop";
     properties := {[ "x" := PropDesc TNumber None None ]};
     rules := Some {[ "x" := {[ "min" := VNum 0 ]} ]};
     binding := Some (Binding "loop" {[ "x" := "x" ]});
     mixins := None;
     state := None;
     actions := None;
     mutations := None;
     service := VUndefined |}.

Definition selfBound : Model := construct selfBoundDesc.

(** A schema without binding: three properties with no [defaultValue], and
    one with a label. *)
Definition formDesc : modelDesc value :=
  {| modelName := "form";
     properties :=
       {[ "count" := PropDesc TNumber (Some "Count") None;
          "items" := PropDesc (TArray ["String"]) None None;
          "flag" := PropDesc TBoolean None None ]};
     rules := None;
     binding := None;
     mixins := None;
     state := None;
     actions := None;
     mutations := None;
     service := VUndefined |}.

(** The counter's schema, written with its actions at the top level, given
    to the bundled build. *)
Definition flatDistDesc : modelDesc (list (string * value)) :=
  {| modelName := "counter";
     properties := ∅;
     rules := None;
     binding := None;
     mixins := None;
     state := Some (v <- newCounter ;; ret [("counter", v)]);
     actions := Some [("incA", EFun incA); ("incB", EFun incB)];
     mutations := Some [("inc", EFun inc)];
     service := VUndefined |}.

(** A schema with actions of its own and no [mutations]. *)
Definition bareDesc : modelDesc value :=
  {| modelName := "bare";
     properties := ∅;
     rules := None;
     binding := None;
     mixins := None;
     state := Some newCounter;
     actions := Some [("incA", EFun incA)];
     mutations := None;
     service := VUndefined |}.


(** A schema whose actions are given under a namespace [a] that its
    [mutations] object, the empty one, does not list. *)
Definition sectionedDesc : modelDesc value :=
  {| modelName := "m";
     properties := ∅;
     rules := None;
     binding := None;
     mixins := None;
     state := Some newCounter;
     actions := Some [("a", ETable [("incA", incA)])];
     mutations := Some [];
     service := VUndefined |}.


(** * Properties *)

(** ** Ordered objects *)

Example array_index_examples :
  Obj.array_index "0" = Some 0%N /\ Obj.array_index "12" = Some 12%N /\
  Obj.array_index "012" = None /\ Obj.array_index "user" = None /\
  Obj.array_index "4294967295" = None /\ Obj.array_index "" = None.
Proof. repeat split. Qed.

Example set_order_examples :
  Obj.set "b" 2 (Obj.set "a" 1 []) = [("a", 1); ("b", 2)] /\
  Obj.set "a" 3 [("a", 1); ("b", 2)] = [("a", 3); ("b", 2)] /\
  Obj.set "1" 9 [("a", 1); ("b", 2)] = [("1", 9); ("a", 1); ("b", 2)] /\
  Obj.set "7" 9 [("2", 0); ("9", 0); ("a", 1)] = [("2", 0); ("7", 9); ("9", 0); ("a", 1)].
Proof. repeat split. Qed.


(** ** Reading and writing ordered objects *)

Section ObjFacts.
Context {V : Type}.
Implicit Types (o : list (string * V)) (k : string) (v : V).

Lemma get_replace_eq k v o :
  Obj.has k o = true -> Obj.get k (Obj.replace k v o) = Some v.
Proof.
  unfold Obj.has. induction o as [|[k' v'] r IH]; cbn; [discriminate|].
  destruct (String.eqb k k') eqn:E; cbn.
  - now rewrite String.eqb_refl.
  - rewrite E. exact IH.
Qed.

Lemma get_replace_ne k k' v o :
  k <> k' -> Obj.get k' (Obj.replace k v o) = Obj.get k' o.
Proof.
  intros Hne. induction o as [|[k0 v0] r IH]; cbn; [reflexivity|].
  destruct (String.eqb k k0) eqn:E; cbn.
  - apply String.eqb_eq in E. subst k0.
    destruct (String.eqb k' k) eqn:E'; [|reflexivity].
    apply String.eqb_eq in E'. congruence.
  - now rewrite IH.
Qed.

Lemma get_place k' n k v o :
  Obj.get k o = None ->
  Obj.get k' (Obj.place n k v o) = if String.eqb k' k then Some v else Obj.get k' o.
Proof.
  induction o as [|[k0 v0] r IH]; cbn; intros Hk.
  - reflexivity.
  - destruct (String.eqb k k0) eqn:E0; [discriminate|].
    destruct (Obj.array_index k0) as [n'|]; [destruct (n <? n')%N|]; cbn;
      try reflexivity.
    rewrite (IH Hk).
    destruct (String.eqb k' k0) eqn:E1; [|reflexivity].
    apply String.eqb_eq in E1. subst k0.
    destruct (String.eqb k' k) eqn:E2; [|reflexivity].
    apply String.eqb_eq in E2. subst k'. rewrite String.eqb_refl in E0. discriminate.
Qed.

Lemma get_app k o1 o2 :
  Obj.get k (o1 ++ o2) = match Obj.get k o1 with Some v => Some v | None => Obj.get k o2 end.
Proof.
  induction o1 as [|[k0 v0] r IH]; cbn; [reflexivity|].
  destruct (String.eqb k k0); [reflexivity|exact IH].
Qed.

Lemma get_set_eq k v o : Obj.get k (Obj.set k v o) = Some v.
Proof.
  unfold Obj.set. destruct (Obj.has k o) eqn:H.
  - now apply get_replace_eq.
  - assert (Hn : Obj.get k o = None).
    { unfold Obj.has in H. destruct (Obj.get k o); [discriminate|reflexivity]. }
    destruct (Obj.array_index k).
    + rewrite get_place by exact Hn. now rewrite String.eqb_refl.
    + rewrite get_app, Hn. cbn. now rewrite String.eqb_refl.
Qed.

Lemma get_set_ne k k' v o : k <> k' -> Obj.get k' (Obj.set k v o) = Obj.get k' o.
Proof.
  intros Hne. unfold Obj.set. destruct (Obj.has k o) eqn:H.
  - now apply get_replace_ne.
  - assert (Hn : Obj.get k o = None).
    { unfold Obj.has in H. destruct (Obj.get k o); [discriminate|reflexivity]. }
    assert (E : String.eqb k' k = false) by (apply String.eqb_neq; congruence).
    destruct (Obj.array_index k).
    + rewrite get_place by exact Hn. now rewrite E.
    + rewrite get_app. cbn. rewrite E. now destruct (Obj.get k' o).
Qed.

Lemma get_remove_eq k o : Obj.get k (Obj.remove k o) = None.
Proof.
  induction o as [|[k0 v0] r IH]; cbn; [reflexivity|].
  destruct (String.eqb k k0) eqn:E; cbn; [exact IH|]. now rewrite E.
Qed.

Lemma get_remove_ne k k' o : k <> k' -> Obj.get k' (Obj.remove k o) = Obj.get k' o.
Proof.
  intros Hne. induction o as [|[k0 v0] r IH]; cbn; [reflexivity|].
  destruct (String.eqb k k0) eqn:E; cbn.
  - apply String.eqb_eq in E. subst k0.
    assert (E' : String.eqb k' k = false) by (apply String.eqb_neq; congruence).
    now rewrite E'.
  - now rewrite IH.
Qed.

Lemma get_Some_in k v o : Obj.get k o = Some v -> (k, v) ∈ o.
Proof.
  induction o as [|[k0 v0] r IH]; cbn; [discriminate|].
  destruct (String.eqb k k0) eqn:E.
  - apply String.eqb_eq in E. intros [= ->]. subst. apply list_elem_of_here.
  - intros H. apply list_elem_of_further. now apply IH.
Qed.

Lemma get_None_keys k o : Obj.get k o = None <-> k ∉ Obj.keys o.
Proof.
  induction o as [|[k0 v0] r IH]; cbn.
  - split; [intros _; apply not_elem_of_nil|reflexivity].
  - rewrite not_elem_of_cons. destruct (String.eqb k k0) eqn:E.
    + apply String.eqb_eq in E. subst. split; [discriminate|]. intros [H _]. congruence.
    + apply String.eqb_neq in E. rewrite IH. tauto.
Qed.

Lemma get_in_nodup k v o : NoDup (Obj.keys o) -> (k, v) ∈ o -> Obj.get k o = Some v.
Proof.
  induction o as [|[k0 v0] r IH]; cbn.
  - intros _ H. now apply elem_of_nil in H.
  - intros Hnd Hin. apply NoDup_cons in Hnd as [Hnot Hnd].
    apply elem_of_cons in Hin as [[= -> ->]|Hin].
    + now rewrite String.eqb_refl.
    + destruct (String.eqb k k0) eqn:E.
      * apply String.eqb_eq in E. subst k0. exfalso. apply Hnot.
        change k with (fst (k, v)). now apply list_elem_of_fmap_2.
      * now apply IH.
Qed.

End ObjFacts.

(** ** Running computations *)

Lemma forEach_throw {A} (e : error) (xs : list A) (s : store) :
  xs <> [] -> forEach (fun _ => throw e) xs s = (Throw e, s).
Proof. destruct xs as [|x r]; [congruence|reflexivity]. Qed.

Lemma fireBeforeDispatch_empty m state action args s :
  beforeDispatchHanlers m = [] ->
  fireBeforeDispatch m state action args s = (Return tt, s).
Proof. unfold fireBeforeDispatch. now intros ->. Qed.

Lemma fireBeforeDispatch_registered handler m state action args s :
  fireBeforeDispatch (beforeDispatch handler m) state action args s
  = (Throw (ReferenceError "handler"), s).
Proof.
  unfold fireBeforeDispatch. apply forEach_throw. cbn.
  destruct (beforeDispatchHanlers m); discriminate.
Qed.

(** ** The mutation dispatcher of a context *)

(** In the context made for a namespace that has a mutation table
    [mutations], [context.dispatch(mutationName, ...args)] with a name the
    table does not have returns [undefined] and leaves the store as it was,
    no function having been applied; with a name the table has it is the
    call of that mutation on [(state, ...args)], result and effects. *)
Lemma context_dispatch_with_table (mutations : list (string * mutationFn))
    (state : value) (svc : serviceHandle) (mutationName : string)
    (args : list value) (s : store) :
  ctx_dispatch (makeActionContext (Some (ETable mutations)) state svc) mutationName args s
  = match Obj.get mutationName mutations with
    | None => (Return VUndefined, s)
    | Some mutation => mutation (state :: args) s
    end.
Proof. cbn. destruct (Obj.get mutationName mutations); reflexivity. Qed.

(** A namespace that has actions and no entry in [mutations] gets a context
    whose dispatcher has no table to look into. *)
Remark context_dispatch_without_table state svc mutationName args s :
  ctx_dispatch (makeActionContext None state svc) mutationName args s
  = (Throw (TypeError "mutations is undefined"), s).
Proof. reflexivity. Qed.

(** ** The before-dispatch handlers *)

(** C4. As soon as one handler is registered, [applyAction] throws the
    [ReferenceError] of the unbound name [handler], in the ES module and in
    the bundled build: the store is the one it started from, so neither the
    handler nor the action function has run. *)
Theorem applyAction_handler_never_invoked (handler : handlerFn) (m : Model)
    (state : option string) (action : string) (args : context * list value) (s : store) :
  applyAction (beforeDispatch handler m) state action args s
    = (Throw (ReferenceError "handler"), s)
  /\ Dist.applyAction (beforeDispatch handler m) state action args s
    = (Throw (ReferenceError "handler"), s).
Proof.
  unfold applyAction, Dist.applyAction, bind.
  now rewrite fireBeforeDispatch_registered.
Qed.

(** ** Defaults *)

Lemma collectDefaults_lookup (bm : gmap string string)
    (props : gmap string propDesc) (prop : string) :
  (collectDefaults bm props).2 !! prop = props !! prop ≫= ownDefault bm prop.
Proof.
  unfold collectDefaults. revert prop.
  apply (map_fold_weak_ind
           (fun (r : gmap string string * gmap string value) (mp : gmap string propDesc) =>
              forall prop, r.2 !! prop = mp !! prop ≫= ownDefault bm prop)).
  - intros prop. now rewrite !lookup_empty.
  - intros i x mp r Hi IH prop. unfold collectProp; cbn.
    destruct (decide (i = prop)) as [->|Hne].
    + rewrite lookup_insert_eq. cbn. unfold ownDefault.
      destruct (pd_defaultValue x).
      * now rewrite lookup_insert_eq.
      * destruct (bm !! prop).
        -- now rewrite IH, Hi.
        -- destruct (autoDefault (pd_type x)).
           ++ now rewrite lookup_insert_eq.
           ++ now rewrite IH, Hi.
    + rewrite (lookup_insert_ne mp) by exact Hne. rewrite <- IH.
      destruct (pd_defaultValue x); [now rewrite lookup_insert_ne|].
      destruct (bm !! i); [reflexivity|].
      destruct (autoDefault (pd_type x)); [now rewrite lookup_insert_ne|reflexivity].
Qed.

(** C5. A property whose descriptor has the key [defaultValue] resolves to
    the value under that key, whatever it is ([undefined], [null], [false]
    and [0] included), whatever the binding, the registry and the table of
    computed defaults hold. *)
Theorem getPropDefaults_explicit (depth : nat) (modelStore : gmap string Model)
    (m : Model) (prop : string) (propDesc : propDesc) (v : value) :
  m_properties m !! prop = Some propDesc ->
  pd_defaultValue propDesc = Some v ->
  getPropDefaults depth modelStore m prop = Return v.
Proof. intros Hp Hd. destruct depth; cbn; now rewrite Hp, Hd. Qed.

(** C6. On a constructed model, a property without [defaultValue] and
    without an entry in the binding map resolves to the default computed from
    its type: the empty array for an array type, [''] for [String], [0] for
    [Number], [true] for [Boolean], [undefined] for any other type.  With an
    entry in the binding map nothing is computed from the type: when the
    lookup through the binding gives nothing the result is [undefined]. *)
Theorem getPropDefaults_auto (depth : nat) (modelStore : gmap string Model)
    (modelDesc : modelDesc value) (prop : string) (propDesc : propDesc) :
  properties modelDesc !! prop = Some propDesc ->
  pd_defaultValue propDesc = None ->
  (bindingMap (construct modelDesc) !! prop = None ->
   getPropDefaults depth modelStore (construct modelDesc) prop
   = Return match pd_type propDesc with
            | TArray _ => VArray []
            | TString => VStr ""
            | TNumber => VNum 0
            | TBoolean => VBool true
            | TOther _ => VUndefined
            end)
  /\ (is_Some (bindingMap (construct modelDesc) !! prop) ->
      remoteYieldsNothing depth modelStore (construct modelDesc) prop ->
      getPropDefaults depth modelStore (construct modelDesc) prop = Return VUndefined).
Proof.
  intros Hp Hd.
  assert (Hown : defaultState (construct modelDesc) !! prop
                 = ownDefault (bindingMap (construct modelDesc)) prop propDesc).
  { cbn. now rewrite collectDefaults_lookup, Hp. }
  unfold ownDefault in Hown. rewrite Hd in Hown.
  split.
  - intros Hb. rewrite Hb in Hown.
    assert (Hm : mapProp (construct modelDesc) prop = None).
    { unfold mapProp. now rewrite Hb. }
    assert (E : getPropDefaults depth modelStore (construct modelDesc) prop
                = Return (default VUndefined (defaultState (construct modelDesc) !! prop))).
    { destruct depth; cbn [getPropDefaults];
        change (m_properties (construct modelDesc)) with (properties modelDesc);
        now rewrite Hp, Hd, Hm. }
    rewrite E, Hown. now destruct (pd_type propDesc).
  - intros [q Hq] Hnothing. rewrite Hq in Hown.
    assert (E : forall d, getPropDefaults d modelStore (construct modelDesc) prop
                = match mapProp (construct modelDesc) prop with
                  | Some mapped =>
                      match getBindingModel modelStore (construct modelDesc) with
                      | Some bindingModel =>
                          match d with
                          | O => Throw RangeError
                          | S d' =>
                              match getPropDefaults d' modelStore bindingModel mapped with
                              | Return defaults =>
                                  if is_undefined defaults then Return VUndefined
                                  else Return defaults
                              | Throw e => Throw e
                              end
                          end
                      | None => Return VUndefined
                      end
                  | None => Return VUndefined
                  end).
    { intros d. destruct d; cbn [getPropDefaults];
        change (m_properties (construct modelDesc)) with (properties modelDesc);
        rewrite Hp, Hd, Hown; reflexivity. }
    rewrite E.
    destruct Hnothing as [H|[H|(mapped & bm & d' & H1 & H2 & -> & H3)]].
    + now rewrite H.
    + rewrite H. now destruct (mapProp (construct modelDesc) prop).
    + now rewrite H1, H2, H3.
Qed.

(** ** Rules *)



(** ** The namespace composer *)

Section FoldSet.
Context {A V : Type} (g : A -> V).

Let step (acc : list (string * V)) (x : string * A) : list (string * V) :=
  Obj.set x.1 (g x.2) acc.

Lemma get_fold_set_notin (l : list (string * A)) (acc : list (string * V)) (k : string) :
  k ∉ Obj.keys l -> Obj.get k (fold_left step l acc) = Obj.get k acc.
Proof.
  revert acc. induction l as [|[k0 x0] r IH]; intros acc Hk; cbn; [reflexivity|].
  cbn in Hk. apply not_elem_of_cons in Hk as [Hne Hk].
  rewrite IH by exact Hk. unfold step; cbn. apply get_set_ne. congruence.
Qed.

Lemma get_fold_set_in (l : list (string * A)) (acc : list (string * V)) (k : string) (x : A) :
  NoDup (Obj.keys l) -> Obj.get k l = Some x ->
  Obj.get k (fold_left step l acc) = Some (g x).
Proof.
  revert acc. induction l as [|[k0 x0] r IH]; intros acc Hnd Hget; cbn in *; [discriminate|].
  apply NoDup_cons in Hnd as [Hnot Hnd].
  destruct (String.eqb k k0) eqn:E.
  - apply String.eqb_eq in E. subst k0. injection Hget as ->.
    rewrite get_fold_set_notin by exact Hnot. unfold step; cbn. apply get_set_eq.
  - now apply IH.
Qed.
End FoldSet.

Lemma mixIn_actions (mixins : list (string * mixin)) (acc : mixed) :
  mixedActions (fold_left mixStep mixins acc)
  = fold_left (fun a (x : string * mixin) => Obj.set x.1 (ETable (mx_actions x.2)) a)
              mixins (mixedActions acc).
Proof.
  revert acc. induction mixins as [|[k x] r IH]; intros acc; cbn; [reflexivity|].
  now rewrite IH.
Qed.

Lemma mixIn_mutations (mixins : list (string * mixin)) (acc : mixed) :
  mixedMutations (fold_left mixStep mixins acc)
  = fold_left (fun a (x : string * mixin) => Obj.set x.1 (ETable (mx_mutations x.2)) a)
              mixins (mixedMutations acc).
Proof.
  revert acc. induction mixins as [|[k x] r IH]; intros acc; cbn; [reflexivity|].
  now rewrite IH.
Qed.

Lemma mixIn_state (mixins : list (string * mixin)) (acc : mixed) :
  mixinState (fold_left mixStep mixins acc)
  = fold_left (fun a (x : string * mixin) => Obj.set x.1 (mx_state x.2) a)
              mixins (mixinState acc).
Proof.
  revert acc. induction mixins as [|[k x] r IH]; intros acc; cbn; [reflexivity|].
  now rewrite IH.
Qed.

(** One namespace of the index loop: its action names now map to it, the
    other names are as before. *)
Lemma indexNamespace_lookup (acc : gmap string string) (ns : string * entry actionFn)
    (name : string) :
  indexNamespace acc ns !! name
  = if decide (name ∈ Obj.keys (as_table ns.2)) then Some ns.1 else acc !! name.
Proof.
  unfold indexNamespace. generalize (Obj.keys (as_table ns.2)) as names.
  intros names. revert acc. induction names as [|n r IH]; intros acc; cbn.
  - destruct (decide (name ∈ [])) as [H|H]; [now apply elem_of_nil in H|reflexivity].
  - rewrite IH. destruct (decide (name ∈ r)) as [Hr|Hr].
    + rewrite decide_True; [reflexivity|now apply list_elem_of_further].
    + destruct (decide (name = n)) as [->|Hne].
      * rewrite decide_True by apply list_elem_of_here. apply lookup_insert_eq.
      * rewrite decide_False.
        -- apply lookup_insert_ne. congruence.
        -- intros H. apply elem_of_cons in H as [H|H]; congruence.
Qed.



Lemma index_keeps (l : list (string * entry actionFn)) (acc : gmap string string)
    (name : string) :
  is_Some (acc !! name) -> is_Some (fold_left indexNamespace l acc !! name).
Proof.
  revert acc. induction l as [|[K0 t0] r IH]; intros acc H; cbn; [exact H|].
  apply IH. rewrite indexNamespace_lookup. now destruct (decide _).
Qed.

(** Every action of every namespace is in the index. *)
Lemma index_complete (l : list (string * entry actionFn)) (acc : gmap string string)
    (K : string) (t : entry actionFn) (name : string) :
  (K, t) ∈ l -> name ∈ Obj.keys (as_table t) ->
  is_Some (fold_left indexNamespace l acc !! name).
Proof.
  revert acc. induction l as [|[K0 t0] r IH]; intros acc Hin Hname; cbn.
  - now apply elem_of_nil in Hin.
  - apply elem_of_cons in Hin as [[= <- <-]|Hin].
    + apply index_keeps. rewrite indexNamespace_lookup. cbn.
      rewrite decide_True by exact Hname. eauto.
    + now apply IH.
Qed.

(** ** Routing *)

Lemma construct_indexed (modelDesc : modelDesc value) : indexed (construct modelDesc).
Proof. intros K t name H1 H2. cbn in *. eapply index_complete; eassumption. Qed.

Lemma registered_fields (handlers : list handlerFn) (m : Model) :
  m_actions (registered handlers m) = m_actions m
  /\ m_mutations (registered handlers m) = m_mutations m
  /\ m_state (registered handlers m) = m_state m
  /\ actionStateMap (registered handlers m) = actionStateMap m
  /\ beforeDispatchHanlers (registered handlers m) = beforeDispatchHanlers m ++ handlers.
Proof.
  unfold registered. revert m. induction handlers as [|h r IH]; intros m; cbn.
  - now rewrite app_nil_r.
  - destruct (IH (beforeDispatch h m)) as (H1 & H2 & H3 & H4 & H5).
    rewrite H1, H2, H3, H4, H5. cbn. now rewrite <- app_assoc.
Qed.

Lemma registered_indexed (handlers : list handlerFn) (m : Model) :
  indexed m -> indexed (registered handlers m).
Proof.
  intros H K t name. destruct (registered_fields handlers m) as (H1 & _ & _ & H4 & _).
  rewrite H1, H4. apply H.
Qed.

Lemma actionOf_unknown (m : Model) (action : string) (s : store) :
  indexed m -> actionStateMap m !! action = None ->
  exists e, actionOf m None action s = (Throw e, s).
Proof.
  intros Hidx Hnone. unfold actionOf.
  destruct (Obj.get (key_of None) (m_actions m)) as [t|] eqn:Ht; [|eauto].
  destruct (Obj.get action (as_table t)) as [f|] eqn:Hf; [|eauto].
  exfalso. apply get_Some_in in Ht.
  assert (Hin : action ∈ Obj.keys (as_table t)).
  { apply get_Some_in in Hf. change action with (fst (action, f)).
    now apply list_elem_of_fmap_2. }
  destruct (Hidx _ _ _ Ht Hin) as [ns Hns]. congruence.
Qed.

Lemma dispatchWith_unknown self (m : Model) (action : string) (bizArgs : list value)
    (s : store) :
  indexed m -> actionStateMap m !! action = None ->
  exists e s', dispatchWith self m action bizArgs s = (Throw e, s').
Proof.
  intros Hidx Hnone. unfold dispatchWith. rewrite Hnone. cbn [statesOfKey].
  unfold getState, bind.
  destruct (m_state m s) as [[allState|e] s1]; [|eauto]. cbn [ret].
  unfold applyAction, bind.
  destruct (fireBeforeDispatch m None action _ s1) as [[[]|e] s2]; [|eauto].
  destruct (actionOf_unknown m action s2 Hidx Hnone) as [e He]. rewrite He. eauto.
Qed.

(** C3. On a model built by the constructor, with any handlers registered
    afterwards, [dispatch] of a name that the reverse index does not have
    ends in a throw: no result is returned. *)
Theorem dispatch_unknown_action (depth : nat) (modelDesc : modelDesc value)
    (handlers : list handlerFn) (action : string) (bizArgs : list value) (s : store) :
  actionStateMap (construct modelDesc) !! action = None ->
  exists e s',
    dispatch depth (registered handlers (construct modelDesc)) action bizArgs s
    = (Throw e, s').
Proof.
  intros Hnone.
  assert (Hidx := registered_indexed handlers _ (construct_indexed modelDesc)).
  assert (Hn : actionStateMap (registered handlers (construct modelDesc)) !! action = None).
  { destruct (registered_fields handlers (construct modelDesc)) as (_ & _ & _ & -> & _).
    exact Hnone. }
  destruct depth; cbn [dispatch]; now apply dispatchWith_unknown.
Qed.

(** The bundled build routes in the same way. *)
Lemma dist_dispatch_unknown_action (modelDesc : modelDesc (list (string * value)))
    (handlers : list handlerFn) (action : string) (bizArgs : list value) (s : store) :
  actionStateMap (Dist.construct modelDesc) !! action = None ->
  exists e s',
    Dist.dispatch (registered handlers (Dist.construct modelDesc)) action bizArgs s
    = (Throw e, s').
Proof.
  intros Hnone.
  assert (Hidx : indexed (registered handlers (Dist.construct modelDesc))).
  { apply registered_indexed. intros K t name H1 H2. cbn in *.
    eapply index_complete; eassumption. }
  assert (Hn : actionStateMap (registered handlers (Dist.construct modelDesc)) !! action = None).
  { destruct (registered_fields handlers (Dist.construct modelDesc)) as (_ & _ & _ & -> & _).
    exact Hnone. }
  unfold Dist.dispatch. rewrite Hn. cbn [statesOfKey].
  unfold getState, bind.
  destruct (m_state _ s) as [[allState|e] s1]; [|eauto]. cbn [ret].
  unfold Dist.applyAction, bind.
  destruct (fireBeforeDispatch _ None action _ s1) as [[[]|e] s2]; [|eauto].
  destruct (actionOf_unknown _ action s2 Hidx Hn) as [e He]. rewrite He. eauto.
Qed.

(** ** The model's own actions and mutations *)

Section KeysFacts.
Context {V : Type}.
Implicit Types (o : list (string * V)) (k : string) (v : V).

Lemma keys_place n k v o : Obj.keys (Obj.place n k v o) ≡ₚ k :: Obj.keys o.
Proof.
  induction o as [|[k0 v0] r IH]; cbn; [reflexivity|].
  destruct (Obj.array_index k0) as [n'|]; [destruct (n <? n')%N|]; cbn;
    try reflexivity.
  rewrite IH. apply Permutation_swap.
Qed.

Lemma keys_replace k v o : Obj.keys (Obj.replace k v o) = Obj.keys o \/ k ∉ Obj.keys o.
Proof.
  unfold Obj.keys. induction o as [|[k0 v0] r IH]; cbn; [now left|].
  destruct (String.eqb k k0) eqn:E.
  - apply String.eqb_eq in E. subst. now left.
  - apply String.eqb_neq in E. destruct IH as [IH|IH].
    + left. cbn. now f_equal.
    + right. rewrite not_elem_of_cons. tauto.
Qed.

Lemma keys_replace_has k v o :
  Obj.has k o = true -> Obj.keys (Obj.replace k v o) = Obj.keys o.
Proof.
  unfold Obj.has. intros H. destruct (keys_replace k v o) as [E|E]; [exact E|].
  apply get_None_keys in E. now rewrite E in H.
Qed.

Lemma keys_set k v o :
  Obj.keys (Obj.set k v o) ≡ₚ if Obj.has k o then Obj.keys o else k :: Obj.keys o.
Proof.
  unfold Obj.set. destruct (Obj.has k o) eqn:H.
  - now rewrite keys_replace_has.
  - destruct (Obj.array_index k).
    + apply keys_place.
    + unfold Obj.keys. rewrite map_app. cbn. symmetry. apply Permutation_cons_append.
Qed.

Lemma nodup_keys_set k v o : NoDup (Obj.keys o) -> NoDup (Obj.keys (Obj.set k v o)).
Proof.
  intros Hnd. rewrite keys_set. destruct (Obj.has k o) eqn:H; [exact Hnd|].
  apply NoDup_cons. split; [|exact Hnd].
  apply get_None_keys. unfold Obj.has in H. now destruct (Obj.get k o).
Qed.

Lemma in_keys_get k o : k ∈ Obj.keys o -> exists v, Obj.get k o = Some v.
Proof.
  intros H. destruct (Obj.get k o) eqn:E; [eauto|].
  apply get_None_keys in E. contradiction.
Qed.
End KeysFacts.

Section RegDefault.
Context {F : Type}.
Implicit Types (desc : list (string * entry F)) (names : list string).

Lemma moved_ext desc desc' names defaults :
  (forall name, name ∈ names ->
     holdsFunction (Obj.get name desc) = true \/ holdsFunction (Obj.get name desc') = true ->
     Obj.get name desc' = Obj.get name desc) ->
  moved desc' names defaults = moved desc names defaults.
Proof.
  unfold moved. revert defaults.
  induction names as [|n r IH]; intros defaults H; cbn; [reflexivity|].
  assert (E : match Obj.get n desc' with Some (EFun f) => Obj.set n f defaults | _ => defaults end
            = match Obj.get n desc with Some (EFun f) => Obj.set n f defaults | _ => defaults end).
  { specialize (H n (list_elem_of_here _ _)).
    destruct (Obj.get n desc') as [[f'|t']|] eqn:E1;
      destruct (Obj.get n desc) as [[f|t]|] eqn:E2; cbn in H;
      try reflexivity;
      try (assert (E : Some (EFun f') = Some (EFun f)) by (apply H; tauto);
           now injection E as ->);
      exfalso; assert (E : @eq (option (entry F)) _ _) by (apply H; tauto);
      discriminate E. }
  rewrite E. apply IH. intros name Hin. apply H. now apply list_elem_of_further.
Qed.

Lemma regDefault_fold (modelName : string) names :
  NoDup names ->
  forall desc defaults,
    Obj.get modelName desc = Some (ETable defaults) ->
    forall k,
      Obj.get k (fold_left (regDefaultStep modelName) names desc)
      = if String.eqb k modelName then Some (ETable (moved desc names defaults))
        else if bool_decide (k ∈ names) && holdsFunction (Obj.get k desc) then None
        else Obj.get k desc.
Proof.
  induction names as [|n r IH]; intros Hnd desc defaults Hm k.
  - cbn. destruct (String.eqb k modelName) eqn:E; [|reflexivity].
    apply String.eqb_eq in E. now subst.
  - apply NoDup_cons in Hnd as [Hn Hnd]. cbn [fold_left].
    unfold regDefaultStep at 2.
    destruct (Obj.get n desc) as [[f|t]|] eqn:En.
    + (* a function: moved and deleted *)
      rewrite Hm.
      assert (Hne : n <> modelName) by (intros ->; congruence).
      set (desc' := Obj.remove n (Obj.set modelName (ETable (Obj.set n f defaults)) desc)).
      assert (Hm' : Obj.get modelName desc' = Some (ETable (Obj.set n f defaults))).
      { unfold desc'. rewrite get_remove_ne by exact Hne. apply get_set_eq. }
      assert (Hother : forall k', k' <> n -> k' <> modelName ->
                                  Obj.get k' desc' = Obj.get k' desc).
      { intros k' H1 H2. unfold desc'. rewrite get_remove_ne by congruence.
        apply get_set_ne. congruence. }
      rewrite (IH Hnd desc' _ Hm' k).
      destruct (String.eqb k modelName) eqn:Ek.
      * f_equal. f_equal. unfold moved at 2. cbn [fold_left]. rewrite En.
        apply moved_ext. intros name Hin Hfun.
        destruct (decide (name = modelName)) as [->|Hnm].
        -- rewrite Hm, Hm' in Hfun. cbn in Hfun. destruct Hfun; discriminate.
        -- apply Hother; [|exact Hnm]. intros ->. contradiction.
      * apply String.eqb_neq in Ek.
        destruct (decide (k = n)) as [->|Hkn].
        -- rewrite (bool_decide_eq_false_2 _ Hn). cbn [andb].
           rewrite bool_decide_eq_true_2 by apply list_elem_of_here.
           rewrite En. cbn. unfold desc'. apply get_remove_eq.
        -- rewrite (Hother k Hkn Ek).
           assert (Eb : bool_decide (k ∈ n :: r) = bool_decide (k ∈ r)).
           { apply bool_decide_ext. rewrite elem_of_cons. tauto. }
           now rewrite Eb.
    + (* a table: left in place *)
      rewrite (IH Hnd desc defaults Hm k).
      destruct (String.eqb k modelName); [unfold moved; cbn [fold_left]; now rewrite En|].
      destruct (decide (k = n)) as [->|Hkn].
      * rewrite En. cbn [holdsFunction]. now rewrite !andb_false_r.
      * assert (Eb : bool_decide (k ∈ n :: r) = bool_decide (k ∈ r)).
        { apply bool_decide_ext. rewrite elem_of_cons. tauto. }
        now rewrite Eb.
    + (* already deleted *)
      rewrite (IH Hnd desc defaults Hm k).
      destruct (String.eqb k modelName); [unfold moved; cbn [fold_left]; now rewrite En|].
      destruct (decide (k = n)) as [->|Hkn].
      * rewrite En. cbn [holdsFunction]. now rewrite !andb_false_r.
      * assert (Eb : bool_decide (k ∈ n :: r) = bool_decide (k ∈ r)).
        { apply bool_decide_ext. rewrite elem_of_cons. tauto. }
        now rewrite Eb.
Qed.

Lemma moved_get desc names defaults name f :
  NoDup names -> name ∈ names -> Obj.get name desc = Some (EFun f) ->
  Obj.get name (moved desc names defaults) = Some f.
Proof.
  unfold moved. revert defaults.
  induction names as [|n r IH]; intros defaults Hnd Hin Hf.
  - now apply elem_of_nil in Hin.
  - apply NoDup_cons in Hnd as [Hn Hnd]. cbn [fold_left].
    apply elem_of_cons in Hin as [->|Hin].
    + rewrite Hf.
      assert (Hkeep : forall names' t, n ∉ names' ->
                Obj.get n (fold_left (fun t name =>
                   match Obj.get name desc with
                   | Some (EFun f) => Obj.set name f t
                   | _ => t
                   end) names' t) = Obj.get n t).
      { induction names' as [|n' r' IH']; intros t Hnot; cbn; [reflexivity|].
        apply not_elem_of_cons in Hnot as [Hne Hnot]. rewrite IH' by exact Hnot.
        destruct (Obj.get n' desc) as [[f'|?]|]; try reflexivity.
        apply get_set_ne. congruence. }
      rewrite Hkeep by exact Hn. apply get_set_eq.
    + now apply IH.
Qed.

(** The loop when the entry under [modelName] is a function (or, later in
    the loop, gone): no table receives anything, and the functions the loop
    meets are deleted. *)
Lemma regDefault_fold_function (modelName : string) names :
  NoDup names ->
  forall desc,
    (forall t, Obj.get modelName desc <> Some (ETable t)) ->
    forall k,
      Obj.get k (fold_left (regDefaultStep modelName) names desc)
      = if bool_decide (k ∈ names) && holdsFunction (Obj.get k desc) then None
        else Obj.get k desc.
Proof.
  induction names as [|n r IH]; intros Hnd desc Hm k.
  - reflexivity.
  - apply NoDup_cons in Hnd as [Hn Hnd]. cbn [fold_left].
    assert (Eb : forall k', k' <> n -> bool_decide (k' ∈ n :: r) = bool_decide (k' ∈ r)).
    { intros k' Hk'. apply bool_decide_ext. rewrite elem_of_cons. tauto. }
    unfold regDefaultStep at 2.
    destruct (Obj.get n desc) as [[f|t]|] eqn:En.
    + assert (Ed : match Obj.get modelName desc with
                   | Some (ETable defaults) =>
                       Obj.set modelName (ETable (Obj.set n f defaults)) desc
                   | _ => desc
                   end = desc).
      { destruct (Obj.get modelName desc) as [[?|t]|] eqn:E; try reflexivity.
        now destruct (Hm t). }
      rewrite Ed.
      rewrite (IH Hnd (Obj.remove n desc)).
      * destruct (decide (k = n)) as [->|Hkn].
        -- rewrite (bool_decide_eq_false_2 _ Hn). cbn [andb].
           rewrite bool_decide_eq_true_2 by apply list_elem_of_here.
           rewrite En. cbn. apply get_remove_eq.
        -- rewrite get_remove_ne by congruence. now rewrite (Eb k Hkn).
      * intros t. destruct (decide (n = modelName)) as [->|Hne].
        -- now rewrite get_remove_eq.
        -- rewrite get_remove_ne by exact Hne. apply Hm.
    + rewrite (IH Hnd desc Hm k).
      destruct (decide (k = n)) as [->|Hkn].
      * rewrite En. cbn [holdsFunction]. now rewrite !andb_false_r.
      * now rewrite (Eb k Hkn).
    + rewrite (IH Hnd desc Hm k).
      destruct (decide (k = n)) as [->|Hkn].
      * rewrite En. cbn [holdsFunction]. now rewrite !andb_false_r.
      * now rewrite (Eb k Hkn).
Qed.

End RegDefault.

(** When the schema has no function under the key [modelName], the loop of
    [regDefaultDesc] does what it is for: the table under [modelName] holds
    every top-level function under its name, these functions are gone from
    the top level, no top-level function is left, and the tables of the
    other namespaces are as they were. *)
Lemma regDefaultDesc_moves {F} (modelName : string) (desc : list (string * entry F)) :
  NoDup (Obj.keys desc) ->
  holdsFunction (Obj.get modelName desc) = false ->
  exists defaults,
    Obj.get modelName (regDefaultDesc modelName desc) = Some (ETable defaults)
    /\ (forall name f,
          Obj.get name desc = Some (EFun f) ->
          Obj.get name defaults = Some f
          /\ Obj.get name (regDefaultDesc modelName desc) = None)
    /\ (forall name t,
          name <> modelName -> Obj.get name desc = Some (ETable t) ->
          Obj.get name (regDefaultDesc modelName desc) = Some (ETable t))
    /\ (forall name, holdsFunction (Obj.get name (regDefaultDesc modelName desc)) = false).
Proof.
  intros Hnd Hfun. unfold regDefaultDesc.
  set (desc0 := match Obj.get modelName desc with
                | Some _ => desc
                | None => Obj.set modelName (ETable []) desc
                end).
  assert (H0 : exists defaults0,
             Obj.get modelName desc0 = Some (ETable defaults0)
             /\ NoDup (Obj.keys desc0)
             /\ forall k, k <> modelName -> Obj.get k desc0 = Obj.get k desc).
  { unfold desc0. destruct (Obj.get modelName desc) as [[f|t]|] eqn:E.
    - discriminate Hfun.
    - exists t. auto.
    - exists []. split; [apply get_set_eq|]. split; [now apply nodup_keys_set|].
      intros k Hk. apply get_set_ne. congruence. }
  destruct H0 as (defaults0 & Hm & Hnd0 & Hsame).
  assert (Hfold := regDefault_fold modelName (Obj.keys desc0) Hnd0 desc0 defaults0 Hm).
  assert (Hkeys : forall k e, Obj.get k desc0 = Some e -> k ∈ Obj.keys desc0).
  { intros k e Hk. apply get_Some_in in Hk. change k with (fst (k, e)).
    now apply list_elem_of_fmap_2. }
  exists (moved desc0 (Obj.keys desc0) defaults0). repeat split.
  - rewrite Hfold. now rewrite String.eqb_refl.
  - assert (Hne : name <> modelName).
    { intros ->. rewrite H in Hfun. discriminate. }
    apply moved_get; [exact Hnd0| |now rewrite Hsame].
    apply (Hkeys name (EFun f)). now rewrite Hsame.
  - assert (Hne : name <> modelName).
    { intros ->. rewrite H in Hfun. discriminate. }
    rewrite Hfold. apply String.eqb_neq in Hne. rewrite Hne.
    apply String.eqb_neq in Hne.
    rewrite bool_decide_eq_true_2.
    + now rewrite Hsame, H.
    + apply (Hkeys name (EFun f)). now rewrite Hsame.
  - intros name t Hne Ht. rewrite Hfold.
    apply String.eqb_neq in Hne. rewrite Hne. apply String.eqb_neq in Hne.
    rewrite Hsame, Ht by exact Hne. cbn. now rewrite andb_false_r.
  - intros name. rewrite Hfold.
    destruct (String.eqb name modelName); [reflexivity|].
    destruct (bool_decide (name ∈ Obj.keys desc0)) eqn:Eb; cbn [andb].
    + now destruct (holdsFunction (Obj.get name desc0)) eqn:Eh.
    + apply bool_decide_eq_false in Eb.
      destruct (Obj.get name desc0) as [e|] eqn:E; [|reflexivity].
      exfalso. apply Eb. now apply (Hkeys name e).
Qed.

(** The wrapped state factory nests the model's own slice under [modelName]. *)
Lemma wrapState_nests (modelName : string) (_state : M value) (s : store) :
  wrapState modelName _state s
  = match _state s with
    | (Return v, s') => (Return [(modelName, v)], s')
    | (Throw e, s') => (Throw e, s')
    end.
Proof.
  unfold wrapState, bind. destruct (_state s) as [[v|e] s']; [|reflexivity].
  unfold ret, Obj.set. cbn. now destruct (Obj.array_index modelName).
Qed.

(** C10. A schema with a top-level function under the key [modelName]
    (an action, or a mutation, that has the name of the model):
    [regDefaultDesc] takes that function for the table of the namespace, so
    the functions it moves end up as properties of the function object, which
    it then deletes.  Afterwards the table has no entry under [modelName] and
    none under the name of any top-level function: these functions are in no
    namespace; only the tables of namespaces are left, as they were. *)
Theorem own_function_named_as_model {F} (modelName : string)
    (desc : list (string * entry F)) (f : F) :
  NoDup (Obj.keys desc) ->
  Obj.get modelName desc = Some (EFun f) ->
  Obj.get modelName (regDefaultDesc modelName desc) = None
  /\ forall name,
       Obj.get name (regDefaultDesc modelName desc)
       = match Obj.get name desc with
         | Some (ETable t) => Some (ETable t)
         | _ => None
         end.
Proof.
  intros Hnd Hf.
  assert (H : forall name,
             Obj.get name (regDefaultDesc modelName desc)
             = match Obj.get name desc with
               | Some (ETable t) => Some (ETable t)
               | _ => None
               end).
  { intros name. unfold regDefaultDesc. rewrite Hf.
    rewrite (regDefault_fold_function modelName (Obj.keys desc) Hnd desc).
    - destruct (Obj.get name desc) as [[g|t]|] eqn:E; cbn [holdsFunction];
        rewrite ?andb_false_r; try reflexivity.
      rewrite bool_decide_eq_true_2; [reflexivity|].
      apply get_Some_in in E. change name with (fst (name, EFun g)).
      now apply list_elem_of_fmap_2.
    - intros t. rewrite Hf. discriminate. }
  split; [|exact H]. now rewrite H, Hf.
Qed.

(** The model [login] with the actions [login] and [logout]: its [actions]
    table comes out empty, there is no namespace [login], neither action is
    in the reverse index, and dispatching one throws. *)
Example login_model_has_no_action (login logout : actionFn) :
  regDefaultDesc "login" [("login", EFun login); ("logout", EFun logout)] = []
  /\ m_actions (construct (loginDesc login logout)) = []
  /\ getStateActions (construct (loginDesc login logout)) (Some "login") = None
  /\ actionStateMap (construct (loginDesc login logout)) !! "logout" = None
  /\ forall depth bizArgs s,
       dispatch depth (construct (loginDesc login logout)) "logout" bizArgs s
       = (Throw (TypeError "modelDesc.actions[state] is undefined"), s).
Proof.
  repeat split.
  intros depth bizArgs s. destruct depth; reflexivity.
Qed.

(** ** Dispatching a known action *)

Lemma thenable_promise (p : value) (s : store) :
  isPromise p = true -> thenable s p = true.
Proof. destruct p; cbn; try discriminate; reflexivity. Qed.

Lemma isThenable_promise (p : value) (s : store) :
  isPromise p = true -> isThenable p s = (Return true, s).
Proof. intros H. unfold isThenable. now rewrite thenable_promise. Qed.

Lemma callThen_promise (p state : value) (s : store) :
  isPromise p = true -> callThen p state s = (Return (VThen p state), s).
Proof. destruct p; cbn; try discriminate; reflexivity. Qed.

Lemma observe_then (now : nat -> settlement) (p : value) (fields : list (string * value)) :
  observe now (VThen p (VRecord fields))
  = match observe now p with
    | Fulfilled _ => Fulfilled (VRecord fields)
    | Rejected r => Rejected r
    | Pending => Pending
    end.
Proof. reflexivity. Qed.

Lemma bind_return {A B} (c : M A) (k : A -> M B) (s s' : store) (a : A) :
  c s = (Return a, s') -> bind c k s = k a s'.
Proof. unfold bind. now intros ->. Qed.

Lemma bind_throw {A B} (c : M A) (k : A -> M B) (s s' : store) (e : error) :
  c s = (Throw e, s') -> bind c k s = (Throw e, s').
Proof. unfold bind. now intros ->. Qed.

Lemma actionOf_found (m : Model) (ns action : string) (table : entry actionFn)
    (f : actionFn) (s : store) :
  Obj.get ns (m_actions m) = Some table ->
  Obj.get action (as_table table) = Some f ->
  actionOf m (Some ns) action s = (Return f, s).
Proof. intros Ht Hf. unfold actionOf. change (key_of (Some ns)) with ns. now rewrite Ht, Hf. Qed.

(** [applyAction] with no handler registered is the call of the action
    function; the ES module keeps the result when it is thenable. *)
Lemma applyAction_no_handler (m : Model) (ns action : string) (table : entry actionFn)
    (f : actionFn) (ctx : context) (bizArgs : list value) (s : store) :
  beforeDispatchHanlers m = [] ->
  Obj.get ns (m_actions m) = Some table ->
  Obj.get action (as_table table) = Some f ->
  applyAction m (Some ns) action (ctx, bizArgs) s
  = (result <- f ctx bizArgs ;;
     thenable <- isThenable result ;;
     if thenable then ret result else ret VUndefined) s
  /\ Dist.applyAction m (Some ns) action (ctx, bizArgs) s = f ctx bizArgs s.
Proof.
  intros Hh Ht Hf. unfold applyAction, Dist.applyAction.
  rewrite !(bind_return _ _ s s tt) by now apply fireBeforeDispatch_empty.
  rewrite !(bind_return _ _ s s f) by now apply (actionOf_found m ns action table).
  split; reflexivity.
Qed.

(** With no handler registered: the action function found under
    [actions[ns][action]] is applied to a context whose state is the slice
    [snap[ns]] of the snapshot that [getState(ns)] returned before, and when
    it returns a promise [p], [dispatch] returns [p.then(() => snap)], which
    is pending while [p] is, fulfilled with the snapshot once [p] is
    fulfilled, and rejected as [p] is ([observe_then]). *)
Lemma dispatch_thenable_no_handler self (m : Model) (action ns : string)
    (table : entry actionFn) (f : actionFn) (bizArgs : list value)
    (s s1 s2 : store) (snap : list (string * value)) (p : value) :
  beforeDispatchHanlers m = [] ->
  actionStateMap m !! action = Some ns ->
  Obj.get ns (m_actions m) = Some table ->
  Obj.get action (as_table table) = Some f ->
  getState m (StatesString ns) s = (Return snap, s1) ->
  f (makeActionContext (getStateMutations m (Some ns)) (prop ns snap) (ServiceDispatch self))
    bizArgs s1 = (Return p, s2) ->
  isPromise p = true ->
  dispatchWith self m action bizArgs s = (Return (VThen p (VRecord snap)), s2).
Proof.
  intros Hh Hns Ht Hf Hsnap Hrun Hp.
  unfold dispatchWith. rewrite Hns. change (key_of (Some ns)) with ns. cbn [statesOfKey].
  rewrite (bind_return _ _ s s1 snap) by exact Hsnap.
  rewrite (bind_return _ _ s1 s2 p).
  - rewrite (bind_return _ _ s2 s2 true) by now apply isThenable_promise.
    now apply callThen_promise.
  - rewrite (proj1 (applyAction_no_handler m ns action table f _ bizArgs s1 Hh Ht Hf)).
    rewrite (bind_return _ _ s1 s2 p) by exact Hrun.
    now rewrite (bind_return _ _ s2 s2 true) by now apply isThenable_promise.
Qed.

(** The bundled build does the same on a thenable result. *)
Lemma dist_dispatch_thenable_no_handler (m : Model) (action ns : string)
    (table : entry actionFn) (f : actionFn) (bizArgs : list value)
    (s s1 s2 : store) (snap : list (string * value)) (p : value) :
  beforeDispatchHanlers m = [] ->
  actionStateMap m !! action = Some ns ->
  Obj.get ns (m_actions m) = Some table ->
  Obj.get action (as_table table) = Some f ->
  getState m (StatesString ns) s = (Return snap, s1) ->
  f (makeActionContext (getStateMutations m (Some ns)) (prop ns snap)
       (ServiceValue (m_service m)))
    bizArgs s1 = (Return p, s2) ->
  isPromise p = true ->
  Dist.dispatch m action bizArgs s = (Return (VThen p (VRecord snap)), s2).
Proof.
  intros Hh Hns Ht Hf Hsnap Hrun Hp.
  unfold Dist.dispatch. rewrite Hns. change (key_of (Some ns)) with ns. cbn [statesOfKey].
  rewrite (bind_return _ _ s s1 snap) by exact Hsnap.
  rewrite (bind_return _ _ s1 s2 p).
  - now apply callThen_promise.
  - now rewrite (proj2 (applyAction_no_handler m ns action table f _ bizArgs s1 Hh Ht Hf)).
Qed.

(** C2. Once a handler is registered, [dispatch] returns no deferred result,
    in the ES module and in the bundled build: after the snapshot is taken it
    throws the [ReferenceError] of [fireBeforeDispatch], in the store the
    snapshot left, the action function not having been applied; this for any
    action name, whatever its function would return. *)
Theorem dispatch_throws_once_handler_registered (depth : nat) (handler : handlerFn)
    (m : Model) (action : string) (bizArgs : list value) (s : store) :
  let m' := beforeDispatch handler m in
  let thrown :=
    match getState m' (statesOfKey (actionStateMap m' !! action)) s with
    | (Return _, s1) => (Throw (ReferenceError "handler"), s1)
    | (Throw e, s1) => (Throw e, s1)
    end in
  dispatch depth m' action bizArgs s = thrown
  /\ Dist.dispatch m' action bizArgs s = thrown.
Proof.
  intros m' thrown. unfold thrown. split.
  - destruct depth; cbn [dispatch]; unfold dispatchWith, bind;
      destruct (getState m' _ s) as [[snap|e] s1]; try reflexivity;
      unfold applyAction, bind; unfold m';
      now rewrite fireBeforeDispatch_registered.
  - unfold Dist.dispatch, bind.
    destruct (getState m' _ s) as [[snap|e] s1]; try reflexivity.
    unfold Dist.applyAction, bind; unfold m'.
    now rewrite fireBeforeDispatch_registered.
Qed.

(** ** Batches *)

(** The collection phase runs no action and takes no snapshot: it leaves the
    store as it is, and its result is read off the reverse index alone, the
    calls in call order and each namespace once. *)
Lemma collect_script (m : Model) (calls : list (string * list value))
    (callers : list caller) (subStates : list (option string)) (s : store) :
  collect m (script calls) callers subStates s
  = (Return (callers ++ map (record m) calls,
             fold_left (fun acc call => setAdd (actionStateMap m !! call.1) acc)
                       calls subStates), s).
Proof.
  revert callers subStates. induction calls as [|[action args] rest IH];
    intros callers subStates; cbn.
  - now rewrite app_nil_r.
  - rewrite IH. now rewrite <- app_assoc.
Qed.

Lemma setAdd_elem (x y : option string) (l : list (option string)) :
  x ∈ setAdd y l <-> x = y \/ x ∈ l.
Proof.
  unfold setAdd. destruct (decide (y ∈ l)) as [H|H].
  - split; [tauto|]. intros [->|H']; assumption.
  - rewrite elem_of_app, list_elem_of_singleton. tauto.
Qed.

Lemma setAdd_nodup (y : option string) (l : list (option string)) :
  NoDup l -> NoDup (setAdd y l).
Proof.
  unfold setAdd. intros Hl. destruct (decide (y ∈ l)) as [H|H]; [exact Hl|].
  apply NoDup_app. split; [exact Hl|]. split.
  - intros x Hx Hy. apply list_elem_of_singleton in Hy. now subst.
  - apply NoDup_singleton.
Qed.

(** [subStates] is the set of the namespaces of the recorded calls. *)
Lemma collected_namespaces (m : Model) (calls : list (string * list value))
    (subStates : list (option string)) :
  let result := fold_left (fun acc call => setAdd (actionStateMap m !! call.1) acc)
                          calls subStates in
  (NoDup subStates -> NoDup result)
  /\ forall x, x ∈ result <-> x ∈ subStates \/ exists call, call ∈ calls /\ x = actionStateMap m !! call.1.
Proof.
  revert subStates. induction calls as [|call rest IH]; intros subStates; cbn.
  - split; [tauto|]. intros x. split; [tauto|].
    intros [H|(c & Hc & _)]; [exact H|now apply elem_of_nil in Hc].
  - destruct (IH (setAdd (actionStateMap m !! call.1) subStates)) as [IH1 IH2].
    split.
    + intros Hnd. apply IH1. now apply setAdd_nodup.
    + intros x. rewrite IH2, setAdd_elem. split.
      * intros [[->|H]|(c & Hc & ->)].
        -- right. exists call. split; [apply list_elem_of_here|reflexivity].
        -- now left.
        -- right. exists c. split; [now apply list_elem_of_further|reflexivity].
      * intros [H|(c & Hc & ->)]; [tauto|].
        apply elem_of_cons in Hc as [->|Hc]; [tauto|]. right. eauto.
Qed.

(** The snapshot over [states] has the slice of [allState] under each of
    these names and nothing else. *)
Lemma pickStates_get (allState : list (string * value)) (states : list (option string))
    (k : string) :
  Obj.get k (pickStates allState states)
  = if bool_decide (k ∈ map key_of states) then Some (prop k allState) else None.
Proof.
  unfold pickStates.
  assert (H : forall acc,
             Obj.get k (fold_left (fun result s =>
                          Obj.set (key_of s) (prop (key_of s) allState) result) states acc)
             = if bool_decide (k ∈ map key_of states) then Some (prop k allState)
               else Obj.get k acc).
  { induction states as [|x r IH]; intros acc; cbn [fold_left map].
    - rewrite bool_decide_eq_false_2; [reflexivity|apply not_elem_of_nil].
    - rewrite IH. destruct (decide (k ∈ map key_of r)) as [Hr|Hr].
      + rewrite !bool_decide_eq_true_2; [reflexivity| |exact Hr].
        now apply list_elem_of_further.
      + rewrite (bool_decide_eq_false_2 _ Hr).
        destruct (decide (k = key_of x)) as [->|Hne].
        * rewrite bool_decide_eq_true_2 by apply list_elem_of_here. apply get_set_eq.
        * rewrite bool_decide_eq_false_2.
          -- apply get_set_ne. congruence.
          -- intros H. apply elem_of_cons in H as [H|H]; congruence. }
  apply H.
Qed.

(** With no handler registered, a batch whose callback only records:
    [modelDesc.state()] runs once, in the store the call started in; every
    recorded call is then applied in order, each to a context whose state is
    the slice of that one snapshot under the namespace of its action; the
    result is [Promise.all(results).then(() => snapshot)]. *)
Lemma dispatchAll_no_handler self (m : Model) (calls : list (string * list value))
    (s s1 : store) (snap : list (string * value)) :
  getState m (StatesArray (fold_left (fun acc call => setAdd (actionStateMap m !! call.1) acc)
                                     calls [])) s = (Return snap, s1) ->
  dispatchAllWith self m (script calls) s
  = match mapM (runCaller applyAction (ServiceDispatch self) m snap)
               (map (record m) calls) s1 with
    | (Return results, s2) => (Return (VThen (VAll results) (VRecord snap)), s2)
    | (Throw e, s2) => (Throw e, s2)
    end.
Proof.
  intros Hsnap. unfold dispatchAllWith.
  rewrite (bind_return _ _ s s _ (collect_script m calls [] [] s)). cbn [fst snd app].
  rewrite (bind_return _ _ s s1 snap) by exact Hsnap.
  unfold bind. now destruct (mapM _ _ s1) as [[results|e] s2].
Qed.

(** A recorded call of a known action, with no handler registered: the
    action function runs on the slice [snap[ns]]. *)
Lemma runCaller_known svc (m : Model) (snap : list (string * value))
    (action ns : string) (args : list value) (table : entry actionFn) (f : actionFn)
    (s : store) :
  beforeDispatchHanlers m = [] ->
  actionStateMap m !! action = Some ns ->
  Obj.get ns (m_actions m) = Some table ->
  Obj.get action (as_table table) = Some f ->
  runCaller applyAction svc m snap (record m (action, args)) s
  = (result <- f (makeActionContext (getStateMutations m (Some ns)) (prop ns snap) svc) args ;;
     thenable <- isThenable result ;;
     if thenable then ret result else ret VUndefined) s.
Proof.
  intros Hh Hns Ht Hf. unfold runCaller, record. cbn [c_stateKey c_action c_args fst snd].
  rewrite Hns. change (key_of (Some ns)) with ns.
  now apply (applyAction_no_handler m ns action table f).
Qed.

(** [Promise.all] is fulfilled exactly when every member is. *)
Lemma joinAll_fulfilled (members : list settlement) :
  (exists vs, joinAll members = Fulfilled (VArray vs))
  <-> Forall (fun st => exists v, st = Fulfilled v) members.
Proof.
  induction members as [|st rest IH]; cbn.
  - split; [constructor|eauto].
  - destruct st as [|v|r].
    + split.
      * intros [vs H]. destruct (joinAll rest); discriminate.
      * intros H. apply Forall_cons in H as [[v Hv] _]. discriminate.
    + split.
      * intros [vs H]. constructor; [eauto|]. apply IH.
        destruct (joinAll rest) as [|[]|]; try discriminate; eauto.
      * intros H. apply Forall_cons in H as [_ H]. apply IH in H as [vs ->]. eauto.
    + split.
      * intros [vs H]. discriminate.
      * intros H. apply Forall_cons in H as [[v Hv] _]. discriminate.
Qed.

Lemma joinAll_fulfilled_array (members : list settlement) (v : value) :
  joinAll members = Fulfilled v -> exists vs, v = VArray vs.
Proof.
  revert v. induction members as [|st rest IH]; cbn; intros v.
  - intros [= <-]. eauto.
  - destruct st as [|v0|r].
    + destruct (joinAll rest); discriminate.
    + destruct (joinAll rest) as [|w|] eqn:E; try discriminate.
      destruct (IH w eq_refl) as [vs ->]. intros [= <-]. eauto.
    + discriminate.
Qed.

(** The result of a batch is fulfilled, with the snapshot, exactly when every
    member result is fulfilled; it is not fulfilled while one is pending. *)
Lemma observe_batch (now : nat -> settlement) (results : list value)
    (snap : list (string * value)) :
  (observe now (VThen (VAll results) (VRecord snap)) = Fulfilled (VRecord snap)
   <-> Forall (fun r => exists v, observe now r = Fulfilled v) results)
  /\ forall v, observe now (VThen (VAll results) (VRecord snap)) = Fulfilled v ->
               v = VRecord snap.
Proof.
  cbn [observe]. split.
  - transitivity (exists vs, joinAll (map (observe now) results) = Fulfilled (VArray vs)).
    + split.
      * intros H. destruct (joinAll (map (observe now) results)) as [|v|r] eqn:E;
          try discriminate. destruct (joinAll_fulfilled_array _ _ E) as [vs ->]. eauto.
      * intros [vs ->]. reflexivity.
    + rewrite joinAll_fulfilled. apply List.Forall_map.
  - intros v. destruct (joinAll (map (observe now) results)); intros [= <-] || discriminate.
    reflexivity.
Qed.

(** C1. Once a handler is registered, a batch that recorded at least one
    call executes no recorded action and returns no result: after the
    collection and the snapshot it throws the [ReferenceError] of
    [fireBeforeDispatch] in the store the snapshot left, in the ES module and
    in the bundled build. *)
Theorem dispatchAll_throws_once_handler_registered (depth : nat) (handler : handlerFn)
    (m : Model) (fn : collector) (s s1 s2 : store)
    (c : caller) (callers : list caller) (subStates : list (option string))
    (snap : list (string * value)) :
  collect (beforeDispatch handler m) fn [] [] s = (Return (c :: callers, subStates), s1) ->
  getState (beforeDispatch handler m) (StatesArray subStates) s1 = (Return snap, s2) ->
  dispatchAll depth (beforeDispatch handler m) fn s = (Throw (ReferenceError "handler"), s2)
  /\ Dist.dispatchAll (beforeDispatch handler m) fn s = (Throw (ReferenceError "handler"), s2).
Proof.
  intros Hc Hsnap. unfold dispatchAll, dispatchAllWith, Dist.dispatchAll.
  rewrite !(bind_return _ _ s s1 _ Hc). cbn [fst snd].
  rewrite !(bind_return _ _ s1 s2 _ Hsnap).
  split; apply bind_throw; cbn [mapM]; apply bind_throw;
    unfold runCaller, applyAction, Dist.applyAction; apply bind_throw;
    apply fireBeforeDispatch_registered.
Qed.

Lemma runsBatch_mapM svc (m : Model) (snap : list (string * value))
    (calls : list (string * list value)) (s s2 : store) (raws keeps : list value) :
  beforeDispatchHanlers m = [] ->
  runsBatch m svc snap calls s raws keeps s2 ->
  mapM (runCaller applyAction svc m snap) (map (record m) calls) s = (Return keeps, s2)
  /\ mapM (runCaller Dist.applyAction svc m snap) (map (record m) calls) s = (Return raws, s2).
Proof.
  intros Hh Hrun. induction Hrun as [s|action ns args rest table f r raws keeps s s1 s2
                                       Hns Ht Hf Hcall Hrest [IH1 IH2]].
  - split; reflexivity.
  - cbn [map mapM]. split.
    + rewrite (bind_return _ _ s s1 (kept s1 r)).
      * now rewrite (bind_return _ _ s1 s2 keeps IH1).
      * rewrite (runCaller_known svc m snap action ns args table f s Hh Hns Ht Hf).
        rewrite (bind_return _ _ s s1 r Hcall).
        unfold bind, isThenable, kept. now destruct (thenable s1 r).
    + rewrite (bind_return _ _ s s1 r).
      * now rewrite (bind_return _ _ s1 s2 raws IH2).
      * unfold runCaller, record. cbn [c_stateKey c_action c_args fst snd].
        rewrite Hns. change (key_of (Some ns)) with ns.
        now rewrite (proj2 (applyAction_no_handler m ns action table f _ args s Hh Ht Hf)).
Qed.

(** A batch with no handler registered.  The callback records [calls];
    [getState] then runs once, over the namespaces of these calls, and gives
    [snap]; the calls run as [runsBatch] says, all on slices of [snap]; the
    result is [Promise.all] of what they returned, then [snap]: fulfilled with
    [snap] exactly when every member is fulfilled. *)
Lemma dispatchAll_runs_batch self (m : Model) (calls : list (string * list value))
    (s s1 s2 : store) (snap : list (string * value)) (raws keeps : list value) :
  beforeDispatchHanlers m = [] ->
  getState m (StatesArray (namespaces m calls)) s = (Return snap, s1) ->
  runsBatch m (ServiceDispatch self) snap calls s1 raws keeps s2 ->
  dispatchAllWith self m (script calls) s
  = (Return (VThen (VAll keeps) (VRecord snap)), s2)
  /\ forall now,
       observe now (VThen (VAll keeps) (VRecord snap)) = Fulfilled (VRecord snap)
       <-> Forall (fun r => exists v, observe now r = Fulfilled v) keeps.
Proof.
  intros Hh Hsnap Hrun. split.
  - rewrite (dispatchAll_no_handler self m calls s s1 snap Hsnap).
    now rewrite (proj1 (runsBatch_mapM _ m snap calls s1 s2 raws keeps Hh Hrun)).
  - intros now. apply observe_batch.
Qed.

Lemma dist_dispatchAll_runs_batch (m : Model) (calls : list (string * list value))
    (s s1 s2 : store) (snap : list (string * value)) (raws keeps : list value) :
  beforeDispatchHanlers m = [] ->
  getState m (StatesArray (namespaces m calls)) s = (Return snap, s1) ->
  runsBatch m (ServiceValue (m_service m)) snap calls s1 raws keeps s2 ->
  Dist.dispatchAll m (script calls) s = (Return (VThen (VAll raws) (VRecord snap)), s2).
Proof.
  intros Hh Hsnap Hrun. unfold Dist.dispatchAll.
  rewrite (bind_return _ _ s s _ (collect_script m calls [] [] s)). cbn [fst snd app].
  rewrite (bind_return _ _ s s1 snap) by exact Hsnap.
  now rewrite (bind_return _ _ s1 s2 raws
                 (proj2 (runsBatch_mapM _ m snap calls s1 s2 raws keeps Hh Hrun))).
Qed.

(** The one snapshot of a batch: the state factory has run once, and the
    snapshot has the slice of its result under each requested namespace. *)
Lemma getState_array (m : Model) (states : list (option string)) (s s1 : store)
    (snap : list (string * value)) :
  getState m (StatesArray states) s = (Return snap, s1) ->
  exists allState,
    m_state m s = (Return allState, s1)
    /\ forall ns, Some ns ∈ states -> prop ns snap = prop ns allState.
Proof.
  unfold getState, bind. destruct (m_state m s) as [[allState|e] s'] eqn:E; [|discriminate].
  cbn [ret]. intros [= <- <-]. exists allState. split; [reflexivity|].
  intros ns Hin. unfold prop at 1. rewrite pickStates_get.
  rewrite bool_decide_eq_true_2; [reflexivity|].
  change ns with (key_of (Some ns)). now apply list_elem_of_fmap_2.
Qed.

(** ** The worked model, run *)

Example counter_tables :
  m_actions counter = [("counter", ETable [("incA", incA); ("incB", incB); ("later", later)])]
  /\ m_mutations counter = [("counter", ETable [("inc", inc)])]
  /\ actionStateMap counter !! "incB" = Some "counter"
  /\ getState counter StatesUndefined ∅
     = (Return [("counter", VObject 0)], {[ 0 := {[ "n" := VNum 0 ]} ]}).
Proof. repeat split. Qed.

(** One call: the asynchronous action. *)
Example dispatch_later :
  dispatch 1 counter "later" [] ∅
  = (Return (VThen (VPromise 7) (VRecord [("counter", VObject 0)])),
     {[ 0 := {[ "n" := VNum 100 ]} ]})
  /\ (forall now, now 7 = Pending ->
        observe now (VThen (VPromise 7) (VRecord [("counter", VObject 0)])) = Pending)
  /\ (forall now v, now 7 = Fulfilled v ->
        observe now (VThen (VPromise 7) (VRecord [("counter", VObject 0)]))
        = Fulfilled (VRecord [("counter", VObject 0)])).
Proof.
  split; [reflexivity|]. split; intros now; cbn; intros; now rewrite H.
Qed.

(** A synchronous action: the ES module returns [undefined], the bundled
    build calls [then] on the action's [undefined]. *)
Example dispatch_synchronous :
  dispatch 1 counter "incA" [] ∅ = (Return VUndefined, {[ 0 := {[ "n" := VNum 1 ]} ]})
  /\ Dist.dispatch counterDist "incA" [] ∅
     = (Throw (TypeError "cannot read property then"), {[ 0 := {[ "n" := VNum 1 ]} ]}).
Proof. split; reflexivity. Qed.

(** The bundled build on the asynchronous action and on a batch. *)
Example dist_dispatch_later :
  Dist.dispatch counterDist "later" [] ∅
  = (Return (VThen (VPromise 7) (VRecord [("counter", VObject 0)])),
     {[ 0 := {[ "n" := VNum 100 ]} ]})
  /\ Dist.dispatchAll counterDist (script [("later", []); ("incB", [])]) ∅
     = (Return (VThen (VAll [VPromise 7; VUndefined]) (VRecord [("counter", VObject 0)])),
        {[ 0 := {[ "n" := VNum 110 ]} ]})
  /\ Dist.dispatch (beforeDispatch logHandler counterDist) "later" [] ∅
     = (Throw (ReferenceError "handler"), {[ 0 := {[ "n" := VNum 0 ]} ]}).
Proof. repeat split. Qed.

(** A batch of two actions of the same namespace: one object is made, both
    mutations land on it, and the snapshot refers to it. *)
Example dispatchAll_shared_slice :
  dispatchAll 1 counter (script [("incA", []); ("incB", [])]) ∅
  = (Return (VThen (VAll [VUndefined; VUndefined]) (VRecord [("counter", VObject 0)])),
     {[ 0 := {[ "n" := VNum 11 ]} ]}).
Proof. reflexivity. Qed.

(** The same calls with a handler registered. *)
Example dispatch_with_handler :
  dispatch 1 (beforeDispatch logHandler counter) "later" [] ∅
  = (Throw (ReferenceError "handler"), {[ 0 := {[ "n" := VNum 0 ]} ]})
  /\ dispatchAll 1 (beforeDispatch logHandler counter) (script [("incA", []); ("incB", [])]) ∅
     = (Throw (ReferenceError "handler"), {[ 0 := {[ "n" := VNum 0 ]} ]}).
Proof. split; reflexivity. Qed.

(** The defaults of the counter's unbound properties. *)
Example counter_defaults :
  getPropDefaults 0 registry counter "count" = Return (VNum 0)
  /\ getPropDefaults 0 registry counter "items" = Return (VArray [])
  /\ getPropDefaults 0 registry counter "flag" = Return (VBool true)
  /\ getPropDefaults 0 registry counter "since" = Return VUndefined.
Proof. repeat split. Qed.

(** A mixin keyed by a namespace that the schema already has keeps the
    place of that namespace, and a later namespace wins the shared name. *)
Example mixin_keeps_position :
  let desc :=
    {| modelName := "m"; properties := ∅; rules := None; binding := None;
       mixins := Some [("a", paging)];
       state := None;
       actions := Some [("a", ETable [("incA", incA)]); ("b", ETable [("incA", incB)])];
       mutations := None; service := VUndefined |} in
  Obj.keys (m_actions (construct desc)) = ["a"; "b"; "m"]
  /\ getStateActions (construct desc) (Some "a") = Some (ETable [("incA", pagingIncA)])
  /\ actionStateMap (construct desc) !! "incA" = Some "b".
Proof. repeat split. Qed.

Lemma getPropDefaults_explicit_witness :
  m_properties counter !! "title" = Some (PropDesc TString (Some "Title") (Some VUndefined))
  /\ bindingMap counter !! "title" = Some "name"
  /\ getPropDefaults 1 registry counter "title" = Return VUndefined.
Proof.
  split; [reflexivity|]. split; [reflexivity|].
  apply (getPropDefaults_explicit 1 registry counter "title"
           (PropDesc TString (Some "Title") (Some VUndefined)) VUndefined);
    reflexivity.
Defined.

Lemma getPropDefaults_auto_witness :
  getPropDefaults 0 ∅ counter "count" = Return (VNum 0)
  /\ getPropDefaults 0 ∅ counter "owner" = Return VUndefined.
Proof.
  split.
  - apply (proj1 (getPropDefaults_auto 0 ∅ (counterDesc None) "count"
                    (PropDesc TNumber None None) eq_refl eq_refl)).
    reflexivity.
  - apply (proj2 (getPropDefaults_auto 0 ∅ (counterDesc None) "owner"
                    (PropDesc TString None None) eq_refl eq_refl)).
    + exists "name". reflexivity.
    + right. left. reflexivity.
Defined.


Lemma dispatch_unknown_action_witness :
  actionStateMap (construct (counterDesc None)) !! "reset" = None
  /\ exists e s',
       dispatch 1 (registered [] (construct (counterDesc None))) "reset" [VNum 1] ∅
       = (Throw e, s').
Proof.
  split; [reflexivity|].
  apply (dispatch_unknown_action 1 (counterDesc None) [] "reset" [VNum 1] ∅).
  reflexivity.
Defined.

Lemma dispatchAll_throws_once_handler_registered_witness :
  dispatchAll 1 (beforeDispatch logHandler counter) (script [("incA", []); ("incB", [])]) ∅
  = (Throw (ReferenceError "handler"), {[ 0 := {[ "n" := VNum 0 ]} ]}).
Proof.
  apply (dispatchAll_throws_once_handler_registered 1 logHandler counter
           (script [("incA", []); ("incB", [])]) ∅ ∅ {[ 0 := {[ "n" := VNum 0 ]} ]}
           (Caller (Some "counter") "incA" []) [Caller (Some "counter") "incB" []]
           [Some "counter"] [("counter", VObject 0)]);
    reflexivity.
Defined.

Lemma dispatch_thenable_no_handler_witness :
  dispatchWith stackOverflow counter "later" [] ∅
  = (Return (VThen (VPromise 7) (VRecord [("counter", VObject 0)])),
     {[ 0 := {[ "n" := VNum 100 ]} ]}).
Proof.
  apply (dispatch_thenable_no_handler stackOverflow counter "later" "counter"
           (ETable [("incA", incA); ("incB", incB); ("later", later)]) later []
           ∅ {[ 0 := {[ "n" := VNum 0 ]} ]} {[ 0 := {[ "n" := VNum 100 ]} ]}
           [("counter", VObject 0)] (VPromise 7));
    reflexivity.
Defined.

Lemma dispatchAll_runs_batch_witness :
  dispatchAllWith stackOverflow counter (script [("incA", []); ("incB", [])]) ∅
  = (Return (VThen (VAll [VUndefined; VUndefined]) (VRecord [("counter", VObject 0)])),
     {[ 0 := {[ "n" := VNum 11 ]} ]}).
Proof.
  refine (proj1 (dispatchAll_runs_batch stackOverflow counter [("incA", []); ("incB", [])]
                   ∅ {[ 0 := {[ "n" := VNum 0 ]} ]} {[ 0 := {[ "n" := VNum 11 ]} ]}
                   [("counter", VObject 0)] [VUndefined; VUndefined] [VUndefined; VUndefined]
                   _ _ _)).
  - reflexivity.
  - reflexivity.
  - refine (RunsCons counter _ _ "incA" "counter" [] [("incB", [])]
              (ETable [("incA", incA); ("incB", incB); ("later", later)]) incA VUndefined
              [VUndefined] [VUndefined]
              {[ 0 := {[ "n" := VNum 0 ]} ]} {[ 0 := {[ "n" := VNum 1 ]} ]}
              {[ 0 := {[ "n" := VNum 11 ]} ]} _ _ _ _ _); try reflexivity.
    refine (RunsCons counter _ _ "incB" "counter" [] []
              (ETable [("incA", incA); ("incB", incB); ("later", later)]) incB VUndefined
              [] []
              {[ 0 := {[ "n" := VNum 1 ]} ]} {[ 0 := {[ "n" := VNum 11 ]} ]}
              {[ 0 := {[ "n" := VNum 11 ]} ]} _ _ _ _ _); try reflexivity.
    apply RunsNil.
Defined.

Lemma regDefaultDesc_moves_witness :
  exists defaults,
    Obj.get "counter"
      (regDefaultDesc "counter"
         [("incA", EFun incA); ("paging", ETable [("incA", pagingIncA)]); ("incB", EFun incB)])
    = Some (ETable defaults)
    /\ Obj.get "incA" defaults = Some incA
    /\ Obj.get "incB" defaults = Some incB.
Proof.
  destruct (regDefaultDesc_moves "counter"
              [("incA", EFun incA); ("paging", ETable [("incA", pagingIncA)]); ("incB", EFun incB)])
    as (defaults & Hd & Hmoved & _).
  - apply (bool_decide_unpack _). reflexivity.
  - reflexivity.
  - exists defaults. split; [exact Hd|].
    split; [apply (Hmoved "incA" incA)|apply (Hmoved "incB" incB)]; reflexivity.
Defined.

Lemma own_function_named_as_model_witness :
  Obj.get "login" (regDefaultDesc "login" [("login", EFun incA); ("logout", EFun incB)]) = None
  /\ Obj.get "logout" (regDefaultDesc "login" [("login", EFun incA); ("logout", EFun incB)])
     = None.
Proof.
  destruct (own_function_named_as_model "login"
              [("login", EFun incA); ("logout", EFun incB)] incA) as [H1 H2].
  - apply (bool_decide_unpack _). reflexivity.
  - reflexivity.
  - split; [exact H1|]. rewrite H2. reflexivity.
Defined.

(** * Further properties of the code *)

(** ** Distinct keys are kept *)

Section KeysKept.
Context {V : Type}.
Implicit Types (o : list (string * V)) (k : string).

Lemma keys_remove_elem k k' o : k' ∈ Obj.keys (Obj.remove k o) -> k' ∈ Obj.keys o.
Proof.
  induction o as [|[k0 v0] r IH]; cbn; [tauto|].
  destruct (String.eqb k k0); cbn.
  - intros H. apply list_elem_of_further. now apply IH.
  - intros H. apply elem_of_cons in H as [->|H].
    + apply list_elem_of_here.
    + apply list_elem_of_further. now apply IH.
Qed.

Lemma nodup_keys_remove k o : NoDup (Obj.keys o) -> NoDup (Obj.keys (Obj.remove k o)).
Proof.
  induction o as [|[k0 v0] r IH]; cbn; [tauto|].
  intros H. apply NoDup_cons in H as [Hnot Hnd].
  destruct (String.eqb k k0); cbn; [now apply IH|].
  apply NoDup_cons. split; [|now apply IH].
  intros H. apply Hnot. now apply keys_remove_elem in H.
Qed.

Lemma get_app_nodup_last k (v : V) o : k ∉ Obj.keys o -> Obj.get k (o ++ [(k, v)]) = Some v.
Proof.
  intros H. rewrite get_app. apply get_None_keys in H. rewrite H. cbn.
  now rewrite String.eqb_refl.
Qed.
End KeysKept.

Lemma regDefaultStep_nodup {F} (modelName : string) (desc : list (string * entry F))
    (name : string) :
  NoDup (Obj.keys desc) -> NoDup (Obj.keys (regDefaultStep modelName desc name)).
Proof.
  intros H. unfold regDefaultStep.
  destruct (Obj.get name desc) as [[f|t]|]; try exact H.
  apply nodup_keys_remove.
  destruct (Obj.get modelName desc) as [[g|defaults]|]; try exact H.
  now apply nodup_keys_set.
Qed.

Lemma regDefault_fold_nodup {F} (modelName : string) (names : list string)
    (desc : list (string * entry F)) :
  NoDup (Obj.keys desc) ->
  NoDup (Obj.keys (fold_left (regDefaultStep modelName) names desc)).
Proof.
  revert desc. induction names as [|n r IH]; intros desc Hd; cbn; [exact Hd|].
  apply IH. now apply regDefaultStep_nodup.
Qed.

Lemma regDefaultDesc_nodup {F} (modelName : string) (desc : list (string * entry F)) :
  NoDup (Obj.keys desc) -> NoDup (Obj.keys (regDefaultDesc modelName desc)).
Proof.
  intros H. unfold regDefaultDesc. apply regDefault_fold_nodup.
  destruct (Obj.get modelName desc); [exact H|now apply nodup_keys_set].
Qed.

Lemma mixIn_actions_nodup (mixins : option (list (string * mixin)))
    (actions : list (string * entry actionFn)) (mutations : list (string * entry mutationFn)) :
  NoDup (Obj.keys actions) -> NoDup (Obj.keys (mixedActions (mixIn mixins actions mutations))).
Proof.
  unfold mixIn. rewrite mixIn_actions. cbn.
  generalize (default [] mixins) as l. intros l. revert actions.
  induction l as [|[k x] r IH]; intros actions H; cbn; [exact H|].
  apply IH. now apply nodup_keys_set.
Qed.

Lemma construct_actions_nodup (modelDesc : modelDesc value) :
  NoDup (Obj.keys (default [] (actions modelDesc))) ->
  NoDup (Obj.keys (m_actions (construct modelDesc))).
Proof.
  intros H. cbn. apply mixIn_actions_nodup.
  destruct (actions modelDesc) as [desc|]; cbn in *; [|apply NoDup_nil_2].
  now apply regDefaultDesc_nodup.
Qed.

(** ** The reverse index points at functions *)

Lemma index_sound (l : list (string * entry actionFn)) (name ns : string) :
  NoDup (Obj.keys l) ->
  buildActionStateMap l !! name = Some ns ->
  exists table, Obj.get ns l = Some table /\ name ∈ Obj.keys (as_table table).
Proof.
  unfold buildActionStateMap.
  induction l as [|[K t] r IH] using rev_ind; intros Hnd H.
  - cbn in H. now rewrite lookup_empty in H.
  - rewrite fold_left_app in H. cbn in H. rewrite indexNamespace_lookup in H. cbn in H.
    unfold Obj.keys in Hnd. rewrite map_app in Hnd. cbn in Hnd.
    apply NoDup_app in Hnd as (Hr & Hdisj & _).
    destruct (decide (name ∈ Obj.keys (as_table t))) as [Hin|Hin].
    + injection H as <-. exists t. split; [|exact Hin].
      apply get_app_nodup_last. intros HK. apply (Hdisj K HK). apply list_elem_of_here.
    + destruct (IH Hr H) as (table & Hget & Hname).
      exists table. split; [|exact Hname]. rewrite get_app. now rewrite Hget.
Qed.

(** X1. On the model built from a schema whose [actions] object has
    distinct keys, a name that the reverse index maps to a namespace is an
    action of that namespace: [getStateActions] gives a table for the
    namespace, the table has a function under the name, and the lookup
    [modelDesc.actions[state][action]] of [applyAction] finds it. *)
Theorem indexed_action_resolves (modelDesc : modelDesc value) (name ns : string) :
  NoDup (Obj.keys (default [] (actions modelDesc))) ->
  actionStateMap (construct modelDesc) !! name = Some ns ->
  exists table f,
    getStateActions (construct modelDesc) (Some ns) = Some table
    /\ Obj.get name (as_table table) = Some f
    /\ forall s, actionOf (construct modelDesc) (Some ns) name s = (Return f, s).
Proof.
  intros Hnd Hidx.
  destruct (index_sound (m_actions (construct modelDesc)) name ns
              (construct_actions_nodup modelDesc Hnd) Hidx) as (table & Hget & Hin).
  destruct (in_keys_get _ _ Hin) as [f Hf].
  exists table, f. split; [exact Hget|]. split; [exact Hf|].
  intros s. now apply (actionOf_found _ ns name table f).
Qed.

Lemma indexed_action_resolves_witness :
  exists table f,
    getStateActions counter (Some "counter") = Some table
    /\ Obj.get "later" (as_table table) = Some f
    /\ forall s, actionOf counter (Some "counter") "later" s = (Return f, s).
Proof.
  apply (indexed_action_resolves (counterDesc None) "later" "counter").
  - apply (bool_decide_unpack _). reflexivity.
  - reflexivity.
Defined.

(** ** What [dispatch] returns *)

(** X2. With no handler registered, [dispatch] of an action of namespace
    [ns] takes the snapshot [getState(ns)], applies the action function to a
    context whose state is the slice of that snapshot, and, when the function
    returns a promise [p], returns [p.then(() => snapshot)]: pending while
    [p] is, fulfilled with the snapshot once [p] is fulfilled, rejected with
    the reason of [p] when [p] is rejected.  The bundled build does the same
    with its own context. *)
Theorem dispatch_resolves_to_snapshot (depth : nat) (m : Model) (action ns : string)
    (table : entry actionFn) (f : actionFn) (bizArgs : list value)
    (s s1 s2 : store) (snap : list (string * value)) (p : value) :
  beforeDispatchHanlers m = [] ->
  actionStateMap m !! action = Some ns ->
  Obj.get ns (m_actions m) = Some table ->
  Obj.get action (as_table table) = Some f ->
  getState m (StatesString ns) s = (Return snap, s1) ->
  isPromise p = true ->
  (f (makeActionContext (getStateMutations m (Some ns)) (prop ns snap)
        (ServiceDispatch (match depth with O => stackOverflow | S d => dispatch d m end)))
     bizArgs s1 = (Return p, s2) ->
   dispatch depth m action bizArgs s = (Return (VThen p (VRecord snap)), s2))
  /\ (f (makeActionContext (getStateMutations m (Some ns)) (prop ns snap)
           (ServiceValue (m_service m)))
        bizArgs s1 = (Return p, s2) ->
      Dist.dispatch m action bizArgs s = (Return (VThen p (VRecord snap)), s2))
  /\ forall now,
       observe now (VThen p (VRecord snap))
       = match observe now p with
         | Fulfilled _ => Fulfilled (VRecord snap)
         | Rejected r => Rejected r
         | Pending => Pending
         end.
Proof.
  intros Hh Hns Ht Hf Hsnap Hp. split; [|split].
  - intros Hrun. destruct depth; cbn [dispatch];
      now apply (dispatch_thenable_no_handler _ m action ns table f bizArgs s s1 s2 snap p).
  - intros Hrun.
    now apply (dist_dispatch_thenable_no_handler m action ns table f bizArgs s s1 s2 snap p).
  - intros now. reflexivity.
Qed.

Lemma dispatch_resolves_to_snapshot_witness :
  dispatch 1 counter "later" [] ∅
  = (Return (VThen (VPromise 7) (VRecord [("counter", VObject 0)])),
     {[ 0 := {[ "n" := VNum 100 ]} ]})
  /\ Dist.dispatch counterDist "later" [] ∅
     = (Return (VThen (VPromise 7) (VRecord [("counter", VObject 0)])),
        {[ 0 := {[ "n" := VNum 100 ]} ]}).
Proof.
  split.
  - refine (proj1 (dispatch_resolves_to_snapshot 1 counter "later" "counter"
                     (ETable [("incA", incA); ("incB", incB); ("later", later)]) later []
                     ∅ {[ 0 := {[ "n" := VNum 0 ]} ]} {[ 0 := {[ "n" := VNum 100 ]} ]}
                     [("counter", VObject 0)] (VPromise 7) _ _ _ _ _ _) _); reflexivity.
  - refine (proj1 (proj2 (dispatch_resolves_to_snapshot 0 counterDist "later" "counter"
                     (ETable [("incA", incA); ("incB", incB); ("later", later)]) later []
                     ∅ {[ 0 := {[ "n" := VNum 0 ]} ]} {[ 0 := {[ "n" := VNum 100 ]} ]}
                     [("counter", VObject 0)] (VPromise 7) _ _ _ _ _ _)) _); reflexivity.
Defined.

(** X3. With no handler registered, an action function that returns a value
    that is not thenable: [dispatch] of the ES module returns [undefined];
    [dispatch] of the bundled build calls [then] on the value and throws a
    [TypeError].  In both the action has run: the store is the one it
    left. *)
Theorem dispatch_of_synchronous_action (depth : nat) (m : Model) (action ns : string)
    (table : entry actionFn) (f : actionFn) (bizArgs : list value)
    (s s1 s2 : store) (snap : list (string * value)) (r : value) :
  beforeDispatchHanlers m = [] ->
  actionStateMap m !! action = Some ns ->
  Obj.get ns (m_actions m) = Some table ->
  Obj.get action (as_table table) = Some f ->
  getState m (StatesString ns) s = (Return snap, s1) ->
  (f (makeActionContext (getStateMutations m (Some ns)) (prop ns snap)
        (ServiceDispatch (match depth with O => stackOverflow | S d => dispatch d m end)))
     bizArgs s1 = (Return r, s2) ->
   thenable s2 r = false ->
   dispatch depth m action bizArgs s = (Return VUndefined, s2))
  /\ (f (makeActionContext (getStateMutations m (Some ns)) (prop ns snap)
           (ServiceValue (m_service m)))
        bizArgs s1 = (Return r, s2) ->
      isPromise r = false ->
      exists what, Dist.dispatch m action bizArgs s = (Throw (TypeError what), s2)).
Proof.
  intros Hh Hns Ht Hf Hsnap. split.
  - intros Hrun Hnot.
    assert (E : forall self,
               f (makeActionContext (getStateMutations m (Some ns)) (prop ns snap)
                    (ServiceDispatch self)) bizArgs s1 = (Return r, s2) ->
               dispatchWith self m action bizArgs s = (Return VUndefined, s2)).
    { intros self Hr. unfold dispatchWith. rewrite Hns.
      change (key_of (Some ns)) with ns. cbn [statesOfKey].
      rewrite (bind_return _ _ s s1 snap) by exact Hsnap.
      rewrite (bind_return _ _ s1 s2 VUndefined).
      - reflexivity.
      - rewrite (proj1 (applyAction_no_handler m ns action table f _ bizArgs s1 Hh Ht Hf)).
        rewrite (bind_return _ _ s1 s2 r Hr).
        unfold bind, isThenable. now rewrite Hnot. }
    destruct depth; cbn [dispatch]; now apply E.
  - intros Hrun Hnot. unfold Dist.dispatch. rewrite Hns.
    change (key_of (Some ns)) with ns. cbn [statesOfKey].
    rewrite (bind_return _ _ s s1 snap) by exact Hsnap.
    rewrite (bind_return _ _ s1 s2 r).
    + destruct r; cbn in Hnot |- *; try discriminate; eauto.
    + now rewrite (proj2 (applyAction_no_handler m ns action table f _ bizArgs s1 Hh Ht Hf)).
Qed.

Lemma dispatch_of_synchronous_action_witness :
  dispatch 1 counter "incA" [] ∅ = (Return VUndefined, {[ 0 := {[ "n" := VNum 1 ]} ]})
  /\ exists what,
       Dist.dispatch counterDist "incA" [] ∅
       = (Throw (TypeError what), {[ 0 := {[ "n" := VNum 1 ]} ]}).
Proof.
  split.
  - refine (proj1 (dispatch_of_synchronous_action 1 counter "incA" "counter"
                     (ETable [("incA", incA); ("incB", incB); ("later", later)]) incA []
                     ∅ {[ 0 := {[ "n" := VNum 0 ]} ]} {[ 0 := {[ "n" := VNum 1 ]} ]}
                     [("counter", VObject 0)] VUndefined _ _ _ _ _) _ _); reflexivity.
  - refine (proj2 (dispatch_of_synchronous_action 0 counterDist "incA" "counter"
                     (ETable [("incA", incA); ("incB", incB); ("later", later)]) incA []
                     ∅ {[ 0 := {[ "n" := VNum 0 ]} ]} {[ 0 := {[ "n" := VNum 1 ]} ]}
                     [("counter", VObject 0)] VUndefined _ _ _ _ _) _ _); reflexivity.
Defined.

(** ** What [getState] returns *)

Lemma pickStates_nodup (allState : list (string * value)) (states : list (option string)) :
  NoDup (Obj.keys (pickStates allState states)).
Proof.
  unfold pickStates.
  assert (H : forall acc : list (string * value),
             NoDup (Obj.keys acc) ->
             NoDup (Obj.keys (fold_left (fun result s =>
                      Obj.set (key_of s) (prop (key_of s) allState) result) states acc))).
  { induction states as [|x r IH]; intros acc Hacc; cbn [fold_left]; [exact Hacc|].
    apply IH. now apply nodup_keys_set. }
  apply H. apply NoDup_nil_2.
Qed.

(** X4. [getState] runs the composed state factory once, whatever is asked
    for, and throws what the factory throws.  Asked for an array of
    namespaces, it returns an object with exactly the requested keys
    ([undefined] read as the key ["undefined"]), each key once, and under each
    the slice of the factory's result: a namespace the factory's result does
    not have is there too, with the value [undefined].  The empty string is
    taken as no argument, and one name as the array of that name. *)
Theorem getState_selects (m : Model) (s : store) :
  (forall states e s1, m_state m s = (Throw e, s1) -> getState m states s = (Throw e, s1))
  /\ (forall allState s1,
        m_state m s = (Return allState, s1) ->
        getState m StatesUndefined s = (Return allState, s1)
        /\ getState m (StatesString "") s = (Return allState, s1)
        /\ (forall ns, ns <> "" ->
              getState m (StatesString ns) s = getState m (StatesArray [Some ns]) s)
        /\ forall l, exists snap,
             getState m (StatesArray l) s = (Return snap, s1)
             /\ NoDup (Obj.keys snap)
             /\ (forall k, k ∈ Obj.keys snap <-> k ∈ map key_of l)
             /\ forall k, k ∈ map key_of l -> Obj.get k snap = Some (prop k allState)).
Proof.
  split.
  - intros states e s1 H. unfold getState. now apply bind_throw.
  - intros allState s1 H.
    assert (E : forall states,
               getState m states s
               = match states with
                 | StatesUndefined => (Return allState, s1)
                 | StatesString ns =>
                     if String.eqb ns "" then (Return allState, s1)
                     else (Return (pickStates allState [Some ns]), s1)
                 | StatesArray l => (Return (pickStates allState l), s1)
                 end).
    { intros states. unfold getState. rewrite (bind_return _ _ s s1 allState H).
      destruct states as [|ns|l]; [reflexivity| |reflexivity].
      now destruct (String.eqb ns ""). }
    split; [apply E|]. split; [apply E|]. split.
    + intros ns Hns. rewrite !E. apply String.eqb_neq in Hns. now rewrite Hns.
    + intros l. exists (pickStates allState l). split; [apply E|].
      split; [apply pickStates_nodup|]. split.
      * intros k. assert (G := pickStates_get allState l k). split.
        -- intros Hk. destruct (decide (k ∈ map key_of l)) as [Hin|Hin]; [exact Hin|].
           rewrite bool_decide_eq_false_2 in G by exact Hin.
           apply get_None_keys in G. contradiction.
        -- intros Hin. rewrite bool_decide_eq_true_2 in G by exact Hin.
           destruct (decide (k ∈ Obj.keys (pickStates allState l))) as [Hk|Hk]; [exact Hk|].
           apply get_None_keys in Hk. congruence.
      * intros k Hin. rewrite pickStates_get. now rewrite bool_decide_eq_true_2.
Qed.

Lemma getState_selects_witness :
  exists snap,
    getState (construct (counterDesc (Some [("paging", paging)])))
             (StatesArray [Some "paging"; None; Some "paging"]) ∅
    = (Return snap, {[ 0 := {[ "n" := VNum 0 ]} ]})
    /\ NoDup (Obj.keys snap)
    /\ (forall k, k ∈ Obj.keys snap <-> k ∈ ["paging"; "undefined"; "paging"])
    /\ forall k, k ∈ ["paging"; "undefined"; "paging"] ->
          Obj.get k snap = Some (prop k [("counter", VObject 0); ("paging", VNum 1)]).
Proof.
  refine (proj2 (proj2 (proj2 (proj2 (getState_selects
            (construct (counterDesc (Some [("paging", paging)]))) ∅)
            [("counter", VObject 0); ("paging", VNum 1)] {[ 0 := {[ "n" := VNum 0 ]} ]} _)))
            [Some "paging"; None; Some "paging"]).
  reflexivity.
Defined.

(** ** Batches, run and cut short *)

Lemma mapM_app_throw {A B} (f : A -> M B) (xs : list A) (y : A) (zs : list A)
    (ys : list B) (e : error) (s s1 s2 : store) :
  mapM f xs s = (Return ys, s1) -> f y s1 = (Throw e, s2) ->
  mapM f (xs ++ y :: zs) s = (Throw e, s2).
Proof.
  revert ys s. induction xs as [|x r IH]; intros ys s; cbn [mapM app].
  - intros [= _ <-] Hy. now apply bind_throw.
  - unfold bind at 1 2. destruct (f x s) as [[b|e0] s'] eqn:Ex; [|discriminate].
    destruct (mapM f r s') as [[bs|e0] s''] eqn:Er; [|discriminate].
    intros [= _ <-] Hy. unfold bind at 1. rewrite Ex.
    apply bind_throw. now apply (IH bs s').
Qed.

Lemma namespaces_elem (m : Model) (calls : list (string * list value))
    (call : string * list value) :
  call ∈ calls -> actionStateMap m !! call.1 ∈ namespaces m calls.
Proof.
  intros Hin. unfold namespaces.
  apply (proj2 (collected_namespaces m calls [])). right. eauto.
Qed.

(** X5. A batch with no handler registered, whose callback records the
    calls [calls].  The state factory runs once, after the collection, and
    every recorded call finds in its context the slice of that one result
    under the namespace of its action.  When the calls run as [runsBatch]
    says, the ES module returns [Promise.all] of what it keeps of their
    results, then the snapshot; the bundled build returns [Promise.all] of
    the results themselves, then the snapshot. *)
Theorem dispatchAll_shares_one_snapshot (depth : nat) (m : Model)
    (calls : list (string * list value)) (s s1 : store) (snap : list (string * value)) :
  beforeDispatchHanlers m = [] ->
  getState m (StatesArray (namespaces m calls)) s = (Return snap, s1) ->
  (exists allState,
     m_state m s = (Return allState, s1)
     /\ forall call ns, call ∈ calls -> actionStateMap m !! call.1 = Some ns ->
          prop ns snap = prop ns allState)
  /\ (forall raws keeps s2,
        runsBatch m (ServiceDispatch (match depth with
                                      | O => stackOverflow
                                      | S d => dispatch d m
                                      end)) snap calls s1 raws keeps s2 ->
        dispatchAll depth m (script calls) s
        = (Return (VThen (VAll keeps) (VRecord snap)), s2))
  /\ (forall raws keeps s2,
        runsBatch m (ServiceValue (m_service m)) snap calls s1 raws keeps s2 ->
        Dist.dispatchAll m (script calls) s
        = (Return (VThen (VAll raws) (VRecord snap)), s2)).
Proof.
  intros Hh Hsnap. split; [|split].
  - destruct (getState_array m _ s s1 snap Hsnap) as (allState & Hall & Hslice).
    exists allState. split; [exact Hall|]. intros call ns Hin Hns.
    apply Hslice. rewrite <- Hns. now apply namespaces_elem.
  - intros raws keeps s2 Hrun. unfold dispatchAll.
    now apply (dispatchAll_runs_batch _ m calls s s1 s2 snap raws keeps).
  - intros raws keeps s2 Hrun.
    now apply (dist_dispatchAll_runs_batch m calls s s1 s2 snap raws keeps).
Qed.

Lemma dispatchAll_shares_one_snapshot_witness :
  dispatchAll 1 counter (script [("incA", []); ("later", [])]) ∅
  = (Return (VThen (VAll [VUndefined; VPromise 7]) (VRecord [("counter", VObject 0)])),
     {[ 0 := {[ "n" := VNum 101 ]} ]}).
Proof.
  refine (proj1 (proj2 (dispatchAll_shares_one_snapshot 1 counter
                   [("incA", []); ("later", [])] ∅ {[ 0 := {[ "n" := VNum 0 ]} ]}
                   [("counter", VObject 0)] _ _))
            [VUndefined; VPromise 7] [VUndefined; VPromise 7] {[ 0 := {[ "n" := VNum 101 ]} ]} _);
    [reflexivity|reflexivity|].
  refine (RunsCons counter _ _ "incA" "counter" [] [("later", [])]
            (ETable [("incA", incA); ("incB", incB); ("later", later)]) incA VUndefined
            [VPromise 7] [VPromise 7] _ {[ 0 := {[ "n" := VNum 1 ]} ]} _ _ _ _ _ _);
    [reflexivity|reflexivity|reflexivity|reflexivity|].
  refine (RunsCons counter _ _ "later" "counter" [] []
            (ETable [("incA", incA); ("incB", incB); ("later", later)]) later (VPromise 7)
            [] [] _ {[ 0 := {[ "n" := VNum 101 ]} ]} _ _ _ _ _ _);
    [reflexivity|reflexivity|reflexivity|reflexivity|].
  apply RunsNil.
Defined.

(** X6. A batch is not undone when one of its calls fails.  With no handler
    registered, when the calls [done] have run and the next recorded call
    throws, because its name is in no namespace of the model or because its
    action function throws, [dispatchAll] throws that error synchronously:
    no promise is returned, the calls recorded after it are not run, and the
    store keeps what the calls before it and the failing one wrote. *)
Theorem dispatchAll_stops_at_first_throw (depth : nat) (m : Model)
    (done rest : list (string * list value)) (action : string) (args : list value)
    (s s1 s2 : store) (snap : list (string * value)) (raws keeps : list value) :
  indexed m ->
  beforeDispatchHanlers m = [] ->
  getState m (StatesArray (namespaces m (done ++ (action, args) :: rest))) s
    = (Return snap, s1) ->
  runsBatch m (ServiceDispatch (match depth with
                                | O => stackOverflow
                                | S d => dispatch d m
                                end)) snap done s1 raws keeps s2 ->
  (actionStateMap m !! action = None ->
   exists e, dispatchAll depth m (script (done ++ (action, args) :: rest)) s = (Throw e, s2))
  /\ (forall ns table f e s3,
        actionStateMap m !! action = Some ns ->
        Obj.get ns (m_actions m) = Some table ->
        Obj.get action (as_table table) = Some f ->
        f (makeActionContext (getStateMutations m (Some ns)) (prop ns snap)
             (ServiceDispatch (match depth with
                               | O => stackOverflow
                               | S d => dispatch d m
                               end))) args s2 = (Throw e, s3) ->
        dispatchAll depth m (script (done ++ (action, args) :: rest)) s = (Throw e, s3)).
Proof.
  intros Hidx Hh Hsnap Hrun.
  set (self := match depth with O => stackOverflow | S d => dispatch d m end) in *.
  assert (Hdone := proj1 (runsBatch_mapM _ m snap done s1 s2 raws keeps Hh Hrun)).
  assert (E : forall e s3,
             runCaller applyAction (ServiceDispatch self) m snap (record m (action, args)) s2
             = (Throw e, s3) ->
             dispatchAll depth m (script (done ++ (action, args) :: rest)) s = (Throw e, s3)).
  { intros e s3 Hc. unfold dispatchAll. fold self.
    rewrite (dispatchAll_no_handler self m _ s s1 snap Hsnap).
    rewrite map_app. cbn [map].
    now rewrite (mapM_app_throw _ _ _ _ keeps e s1 s2 s3 Hdone Hc). }
  split.
  - intros Hnone. destruct (actionOf_unknown m action s2 Hidx Hnone) as [e He].
    exists e. apply E. unfold runCaller, record. cbn [c_stateKey c_action c_args fst snd].
    rewrite Hnone. unfold applyAction.
    rewrite (bind_return _ _ s2 s2 tt) by now apply fireBeforeDispatch_empty.
    now apply bind_throw.
  - intros ns table f e s3 Hns Ht Hf Hthrow. apply E.
    rewrite (runCaller_known _ m snap action ns args table f s2 Hh Hns Ht Hf).
    now apply bind_throw.
Qed.

Lemma dispatchAll_stops_at_first_throw_witness :
  exists e,
    dispatchAll 1 counter (script ([("incA", [])] ++ ("reset", []) :: [("incB", [])])) ∅
    = (Throw e, {[ 0 := {[ "n" := VNum 1 ]} ]}).
Proof.
  refine (proj1 (dispatchAll_stops_at_first_throw 1 counter [("incA", [])] [("incB", [])]
                   "reset" [] ∅ {[ 0 := {[ "n" := VNum 0 ]} ]} {[ 0 := {[ "n" := VNum 1 ]} ]}
                   [("counter", VObject 0); ("undefined", VUndefined)]
                   [VUndefined] [VUndefined] _ _ _ _) _).
  - apply construct_indexed.
  - reflexivity.
  - reflexivity.
  - refine (RunsCons counter _ _ "incA" "counter" [] []
              (ETable [("incA", incA); ("incB", incB); ("later", later)]) incA VUndefined
              [] [] _ {[ 0 := {[ "n" := VNum 1 ]} ]} _ _ _ _ _ _);
      [reflexivity|reflexivity|reflexivity|reflexivity|apply RunsNil].
  - reflexivity.
Defined.

Lemma collect_from (m : Model) (fn : collector) :
  forall (callers : list caller) (subStates : list (option string)) (s s1 : store)
         (cs : list caller) (ss : list (option string)),
    collect m fn callers subStates s = (Return (cs, ss), s1) ->
    exists extra,
      cs = callers ++ extra
      /\ ss = fold_left (fun acc c => setAdd (c_stateKey c) acc) extra subStates
      /\ Forall (fun c => c_stateKey c = actionStateMap m !! c_action c) extra.
Proof.
  induction fn as [|e|action args k IH|effect k IH];
    intros callers subStates s s1 cs ss; cbn [collect].
  - intros [= <- <- <-]. exists []. rewrite app_nil_r. repeat split. constructor.
  - discriminate.
  - intros H. destruct (IH _ _ _ _ _ _ H) as (extra & -> & -> & Hall).
    exists (Caller (actionStateMap m !! action) action args :: extra).
    rewrite <- app_assoc. repeat split. now constructor.
  - unfold bind. destruct (effect s) as [[v|e] s0]; [|discriminate]. apply IH.
Qed.

Lemma fold_setAdd (keys : list (option string)) (subStates : list (option string)) :
  let result := fold_left (fun acc k => setAdd k acc) keys subStates in
  (NoDup subStates -> NoDup result)
  /\ forall x, x ∈ result <-> x ∈ subStates \/ x ∈ keys.
Proof.
  revert subStates. induction keys as [|k r IH]; intros subStates; cbn.
  - split; [tauto|]. intros x. split; [tauto|].
    intros [H|H]; [exact H|now apply elem_of_nil in H].
  - destruct (IH (setAdd k subStates)) as [IH1 IH2]. split.
    + intros Hnd. apply IH1. now apply setAdd_nodup.
    + intros x. rewrite IH2, setAdd_elem, elem_of_cons. tauto.
Qed.

(** X7. Whatever the callback of [dispatchAll] does besides calling the
    [dispatch] it is given, when it returns, each recorded call carries the
    namespace that the reverse index has for its action name ([undefined]
    for a name in no namespace), and [subStates] holds the namespaces of the
    recorded calls and no other, each once: the snapshot that follows is
    taken over exactly these. *)
Theorem collect_records_by_index (m : Model) (fn : collector) (s s1 : store)
    (callers : list caller) (subStates : list (option string)) :
  collect m fn [] [] s = (Return (callers, subStates), s1) ->
  Forall (fun c => c_stateKey c = actionStateMap m !! c_action c) callers
  /\ NoDup subStates
  /\ forall ns, ns ∈ subStates <-> exists c, c ∈ callers /\ c_stateKey c = ns.
Proof.
  intros H. destruct (collect_from m fn _ _ _ _ _ _ H) as (extra & -> & -> & Hall).
  cbn [app]. split; [exact Hall|].
  assert (E : forall acc,
             fold_left (fun acc c => setAdd (c_stateKey c) acc) extra acc
             = fold_left (fun acc k => setAdd k acc) (map c_stateKey extra) acc).
  { clear. induction extra as [|c r IH]; intros acc; cbn; [reflexivity|]. apply IH. }
  rewrite E. destruct (fold_setAdd (map c_stateKey extra) []) as [H1 H2]. split.
  - apply H1. apply NoDup_nil_2.
  - intros ns. rewrite H2, list_elem_of_fmap. split.
    + intros [Hn|(c & -> & Hc)]; [now apply elem_of_nil in Hn|eauto].
    + intros (c & Hc & <-). eauto.
Qed.

Lemma collect_records_by_index_witness :
  Forall (fun c => c_stateKey c = actionStateMap counter !! c_action c)
         [Caller (Some "counter") "incA" []; Caller None "reset" [];
          Caller (Some "counter") "incB" [VNum 2]]
  /\ NoDup [Some "counter"; None]
  /\ forall ns,
       ns ∈ [Some "counter"; None]
       <-> exists c, c ∈ [Caller (Some "counter") "incA" []; Caller None "reset" [];
                          Caller (Some "counter") "incB" [VNum 2]]
                     /\ c_stateKey c = ns.
Proof.
  refine (collect_records_by_index counter
            (CDispatch "incA" []
               (CRun newCounter (fun v =>
                  CDispatch "reset" [] (CDispatch "incB" [VNum 2] CReturn))))
            ∅ {[ 0 := {[ "n" := VNum 0 ]} ]} _ _ _).
  reflexivity.
Defined.

(** X8. A batch whose callback records no call: no action runs and no
    handler is reached, registered or not; the state factory still runs
    once, and the result is a promise that is fulfilled with the empty
    object. *)
Theorem dispatchAll_of_no_call (depth : nat) (m : Model) (fn : collector)
    (s s1 s2 : store) (subStates : list (option string)) (allState : list (string * value)) :
  collect m fn [] [] s = (Return ([], subStates), s1) ->
  m_state m s1 = (Return allState, s2) ->
  dispatchAll depth m fn s = (Return (VThen (VAll []) (VRecord [])), s2)
  /\ Dist.dispatchAll m fn s = (Return (VThen (VAll []) (VRecord [])), s2)
  /\ forall now, observe now (VThen (VAll []) (VRecord [])) = Fulfilled (VRecord []).
Proof.
  intros Hc Hall.
  destruct (collect_from m fn _ _ _ _ _ _ Hc) as (extra & Hextra & Hss & _).
  cbn [app] in Hextra. subst extra. cbn in Hss. subst subStates.
  assert (Hsnap : getState m (StatesArray []) s1 = (Return [], s2)).
  { unfold getState. now rewrite (bind_return _ _ s1 s2 allState Hall). }
  split; [|split].
  - unfold dispatchAll, dispatchAllWith.
    rewrite (bind_return _ _ s s1 _ Hc). cbn [fst snd].
    now rewrite (bind_return _ _ s1 s2 _ Hsnap).
  - unfold Dist.dispatchAll.
    rewrite (bind_return _ _ s s1 _ Hc). cbn [fst snd].
    now rewrite (bind_return _ _ s1 s2 _ Hsnap).
  - reflexivity.
Qed.

Lemma dispatchAll_of_no_call_witness :
  dispatchAll 0 (beforeDispatch logHandler counter) CReturn ∅
  = (Return (VThen (VAll []) (VRecord [])), {[ 0 := {[ "n" := VNum 0 ]} ]}).
Proof.
  refine (proj1 (dispatchAll_of_no_call 0 (beforeDispatch logHandler counter) CReturn
                   ∅ ∅ {[ 0 := {[ "n" := VNum 0 ]} ]} [] [("counter", VObject 0)] _ _));
    reflexivity.
Defined.

(** ** The composed state *)

Section ComposedKeys.
Context {V : Type}.
Implicit Types (o : list (string * V)) (k : string).

Lemma elem_keys_set k k' (v : V) o :
  k' ∈ Obj.keys (Obj.set k v o) <-> k' = k \/ k' ∈ Obj.keys o.
Proof.
  rewrite keys_set. destruct (Obj.has k o) eqn:H.
  - split; [tauto|]. intros [->|H']; [|exact H'].
    unfold Obj.has in H. destruct (Obj.get k o) eqn:E; [|discriminate].
    apply get_Some_in in E. change k with (fst (k, v0)). now apply list_elem_of_fmap_2.
  - apply elem_of_cons.
Qed.
End ComposedKeys.

Section FoldSetKeys.
Context {A V : Type} (g : A -> V).

Lemma fold_set_keys (l : list (string * A)) (acc : list (string * V)) :
  (NoDup (Obj.keys acc) ->
   NoDup (Obj.keys (fold_left (fun a (x : string * A) => Obj.set x.1 (g x.2) a) l acc)))
  /\ forall k,
       k ∈ Obj.keys (fold_left (fun a (x : string * A) => Obj.set x.1 (g x.2) a) l acc)
       <-> k ∈ Obj.keys acc \/ k ∈ Obj.keys l.
Proof.
  revert acc. induction l as [|[k0 x0] r IH]; intros acc; cbn [fold_left].
  - split; [tauto|]. intros k. split; [tauto|].
    intros [H|H]; [exact H|now apply elem_of_nil in H].
  - destruct (IH (Obj.set k0 (g x0) acc)) as [IH1 IH2]. split.
    + intros Hnd. apply IH1. now apply nodup_keys_set.
    + intros k. rewrite IH2. cbn [fst snd]. rewrite elem_keys_set.
      change (Obj.keys ((k0, x0) :: r)) with (k0 :: Obj.keys r).
      rewrite elem_of_cons. tauto.
Qed.
End FoldSetKeys.

(** The loop [for (let regState in mixinState) result[regState] = mixinState[regState]()]. *)
Lemma composeLoop (l : list (string * M value)) :
  forall (result0 result : list (string * value)) (s s' : store),
    foldM (fun result (ms : string * M value) => v <- ms.2 ;; ret (Obj.set ms.1 v result))
          result0 l s = (Return result, s') ->
    (forall k, k ∈ Obj.keys result <-> k ∈ Obj.keys result0 \/ k ∈ Obj.keys l)
    /\ (forall k, k ∉ Obj.keys l -> Obj.get k result = Obj.get k result0)
    /\ (NoDup (Obj.keys l) ->
        forall k f, (k, f) ∈ l ->
          exists v sa sb, f sa = (Return v, sb) /\ Obj.get k result = Some v).
Proof.
  induction l as [|[k0 f0] r IH]; intros result0 result s s'; cbn [foldM].
  - intros [= <- <-]. split; [|split].
    + intros k. split; [tauto|]. intros [H|H]; [exact H|now apply elem_of_nil in H].
    + reflexivity.
    + intros _ k f H. now apply elem_of_nil in H.
  - unfold bind at 1 2. cbn [fst snd].
    destruct (f0 s) as [[v0|e] s0] eqn:E0; [|discriminate]. cbn [ret].
    intros H. destruct (IH _ _ _ _ H) as (IH1 & IH2 & IH3). split; [|split].
    + intros k. rewrite IH1, elem_keys_set.
      change (Obj.keys ((k0, f0) :: r)) with (k0 :: Obj.keys r).
      rewrite elem_of_cons. tauto.
    + intros k Hk. change (Obj.keys ((k0, f0) :: r)) with (k0 :: Obj.keys r) in Hk.
      apply not_elem_of_cons in Hk as [Hne Hk]. rewrite IH2 by exact Hk.
      apply get_set_ne. congruence.
    + intros Hnd k f Hin. change (Obj.keys ((k0, f0) :: r)) with (k0 :: Obj.keys r) in Hnd.
      apply NoDup_cons in Hnd as [Hnot Hnd].
      apply elem_of_cons in Hin as [[= -> ->]|Hin].
      * exists v0, s, s0. split; [exact E0|].
        rewrite IH2 by exact Hnot. apply get_set_eq.
      * now apply IH3.
Qed.

(** X9. The state of a model built by the ES module.  Its top-level keys are
    [modelName], when the schema has a state factory, and the keys of
    [mixins].  The model's own slice, what the schema's factory returns when
    run first, is under [modelName] unless a mixin has that key; under the
    key of each mixin is a value returned by that mixin's state factory. *)
Theorem composed_state_slices (modelDesc : modelDesc value) (s s' : store)
    (allState : list (string * value)) :
  getState (construct modelDesc) StatesUndefined s = (Return allState, s') ->
  (forall k, k ∈ Obj.keys allState
             <-> (k = modelName modelDesc /\ is_Some (state modelDesc))
                 \/ k ∈ Obj.keys (default [] (mixins modelDesc)))
  /\ (forall _state,
        state modelDesc = Some _state ->
        modelName modelDesc ∉ Obj.keys (default [] (mixins modelDesc)) ->
        exists s0, _state s = (Return (prop (modelName modelDesc) allState), s0))
  /\ (NoDup (Obj.keys (default [] (mixins modelDesc))) ->
      forall k mx, (k, mx) ∈ default [] (mixins modelDesc) ->
        exists sa sb, mx_state mx sa = (Return (prop k allState), sb)).
Proof.
  intros Hget.
  assert (Hrun : m_state (construct modelDesc) s = (Return allState, s')).
  { revert Hget. unfold getState, bind.
    destruct (m_state (construct modelDesc) s) as [[a|e] s0]; [|discriminate].
    now intros [= <- <-]. }
  clear Hget. revert Hrun. unfold construct, m_state, composeState, mixIn.
  cbn [mixinState]. rewrite mixIn_state. cbn [mixinState].
  set (mxs := default [] (mixins modelDesc)).
  set (ms := fold_left (fun a (x : string * mixin) => Obj.set x.1 (mx_state x.2) a) mxs []).
  destruct (fold_set_keys mx_state mxs []) as [Hnd Hkeys]. fold ms in Hnd, Hkeys.
  unfold bind at 1.
  destruct (state modelDesc) as [_state|] eqn:Est; cbn [fmap option_fmap option_map default].
  - unfold id. rewrite wrapState_nests. destruct (_state s) as [[v|e] s0] eqn:E; [|discriminate].
    intros H. destruct (composeLoop ms _ _ _ _ H) as (H1 & H2 & H3). split; [|split].
    + intros k. rewrite H1, Hkeys. unfold Obj.keys at 1. cbn [map fst].
      rewrite elem_of_cons. split.
      * intros [[->|Hn]|[Hn|Hm]]; try (now apply elem_of_nil in Hn); [left|right]; eauto.
      * intros [[-> _]|Hm]; [left; now left|right; now right].
    + intros st [= <-] Hnot. exists s0. unfold prop. rewrite H2.
      * cbn. now rewrite String.eqb_refl.
      * rewrite Hkeys. intros [Hn|Hm]; [now apply elem_of_nil in Hn|contradiction].
    + intros Hmx k mx Hin.
      assert (Hk : Obj.get k ms = Some (mx_state mx)).
      { apply (get_fold_set_in mx_state); [exact Hmx|]. now apply get_in_nodup. }
      destruct (H3 (Hnd (NoDup_nil_2)) k _ (get_Some_in _ _ _ Hk)) as (v' & sa & sb & Hf & Hv).
      exists sa, sb. unfold prop. now rewrite Hv.
  - cbn [ret]. intros H. destruct (composeLoop ms _ _ _ _ H) as (H1 & H2 & H3). split; [|split].
    + intros k. rewrite H1, Hkeys. split.
      * intros [Hn|[Hn|Hm]]; try (now apply elem_of_nil in Hn). now right.
      * intros [[_ [x Hx]]|Hm]; [discriminate|right; now right].
    + discriminate.
    + intros Hmx k mx Hin.
      assert (Hk : Obj.get k ms = Some (mx_state mx)).
      { apply (get_fold_set_in mx_state); [exact Hmx|]. now apply get_in_nodup. }
      destruct (H3 (Hnd (NoDup_nil_2)) k _ (get_Some_in _ _ _ Hk)) as (v' & sa & sb & Hf & Hv).
      exists sa, sb. unfold prop. now rewrite Hv.
Qed.

Lemma composed_state_slices_witness :
  (forall k, k ∈ Obj.keys [("counter", VObject 0); ("paging", VNum 1)]
             <-> (k = "counter" /\ is_Some (Some newCounter)) \/ k ∈ ["paging"])
  /\ (forall _state,
        Some newCounter = Some _state -> "counter" ∉ ["paging"] ->
        exists s0, _state ∅
                   = (Return (prop "counter" [("counter", VObject 0); ("paging", VNum 1)]), s0))
  /\ (NoDup ["paging"] ->
      forall k mx, (k, mx) ∈ [("paging", paging)] ->
        exists sa sb,
          mx_state mx sa
          = (Return (prop k [("counter", VObject 0); ("paging", VNum 1)]), sb)).
Proof.
  refine (composed_state_slices (counterDesc (Some [("paging", paging)])) ∅
            {[ 0 := {[ "n" := VNum 0 ]} ]} [("counter", VObject 0); ("paging", VNum 1)] _).
  reflexivity.
Defined.

(** ** The model's own actions, routed *)

(** X10. A schema whose [actions] object has distinct keys and no function
    under the key [modelName], and whose mixins do not use that key.  On the
    model built by the ES module every top-level action function is found in
    the table of the namespace [modelName] under its own name, and the
    reverse index has its name; the index sends the name to [modelName], so
    that [dispatch] applies this very function, whenever no other namespace
    has an action of that name. *)
Theorem own_actions_routed (modelDesc : modelDesc value)
    (desc : list (string * entry actionFn)) :
  actions modelDesc = Some desc ->
  NoDup (Obj.keys desc) ->
  holdsFunction (Obj.get (modelName modelDesc) desc) = false ->
  modelName modelDesc ∉ Obj.keys (default [] (mixins modelDesc)) ->
  exists defaults,
    getStateActions (construct modelDesc) (Some (modelName modelDesc)) = Some (ETable defaults)
    /\ forall name f,
         Obj.get name desc = Some (EFun f) ->
         Obj.get name defaults = Some f
         /\ is_Some (actionStateMap (construct modelDesc) !! name)
         /\ ((forall K t, (K, t) ∈ m_actions (construct modelDesc) ->
                          K <> modelName modelDesc -> name ∉ Obj.keys (as_table t)) ->
             actionStateMap (construct modelDesc) !! name = Some (modelName modelDesc)
             /\ forall s,
                  actionOf (construct modelDesc)
                           (actionStateMap (construct modelDesc) !! name) name s
                  = (Return f, s)).
Proof.
  intros Ha Hnd Hfun Hmix.
  destruct (regDefaultDesc_moves (modelName modelDesc) desc Hnd Hfun)
    as (defaults & Hd & Hmoved & _).
  assert (Ht : Obj.get (modelName modelDesc) (m_actions (construct modelDesc))
               = Some (ETable defaults)).
  { unfold construct, m_actions, mixIn. rewrite mixIn_actions. cbn [mixedActions].
    rewrite (get_fold_set_notin (fun x : mixin => ETable (mx_actions x))) by exact Hmix.
    rewrite Ha. exact Hd. }
  exists defaults. split; [exact Ht|].
  intros name f Hf. destruct (Hmoved name f Hf) as [Hin _].
  assert (Hkey : name ∈ Obj.keys (as_table (ETable defaults))).
  { apply get_Some_in in Hin. change name with (fst (name, f)).
    now apply list_elem_of_fmap_2. }
  assert (Hsome : is_Some (actionStateMap (construct modelDesc) !! name)).
  { apply (construct_indexed modelDesc (modelName modelDesc) (ETable defaults) name);
      [now apply get_Some_in|exact Hkey]. }
  split; [exact Hin|]. split; [exact Hsome|].
  intros Hother.
  assert (Hns : actionStateMap (construct modelDesc) !! name = Some (modelName modelDesc)).
  { destruct Hsome as [ns Hns]. rewrite Hns. f_equal.
    assert (Hnd' : NoDup (Obj.keys (m_actions (construct modelDesc)))).
    { apply construct_actions_nodup. now rewrite Ha. }
    destruct (index_sound _ name ns Hnd' Hns) as (table & Htab & Hname).
    destruct (decide (ns = modelName modelDesc)) as [E|E]; [exact E|].
    exfalso. apply (Hother ns table); [now apply get_Some_in|exact E|exact Hname]. }
  split; [exact Hns|].
  intros s. rewrite Hns. now apply (actionOf_found _ _ name (ETable defaults) f).
Qed.

Lemma own_actions_routed_witness :
  exists defaults,
    getStateActions counter (Some "counter") = Some (ETable defaults)
    /\ forall name f,
         Obj.get name [("incA", EFun incA); ("incB", EFun incB); ("later", EFun later)]
         = Some (EFun f) ->
         Obj.get name defaults = Some f
         /\ is_Some (actionStateMap counter !! name)
         /\ ((forall K t, (K, t) ∈ m_actions counter ->
                          K <> "counter" -> name ∉ Obj.keys (as_table t)) ->
             actionStateMap counter !! name = Some "counter"
             /\ forall s,
                  actionOf counter (actionStateMap counter !! name) name s = (Return f, s)).
Proof.
  refine (own_actions_routed (counterDesc None)
            [("incA", EFun incA); ("incB", EFun incB); ("later", EFun later)] _ _ _ _).
  - reflexivity.
  - apply (bool_decide_unpack _). reflexivity.
  - reflexivity.
  - apply not_elem_of_nil.
Defined.

(** ** Labels and defaults through a binding *)

Lemma collectDefaults_labels (bm : gmap string string)
    (props : gmap string propDesc) (prop : string) :
  (collectDefaults bm props).1 !! prop
  = (fun propDesc => default "" (pd_label propDesc)) <$> props !! prop.
Proof.
  unfold collectDefaults. revert prop.
  apply (map_fold_weak_ind
           (fun (r : gmap string string * gmap string value) (mp : gmap string propDesc) =>
              forall prop, r.1 !! prop
                           = (fun propDesc => default "" (pd_label propDesc)) <$> mp !! prop)).
  - intros prop. now rewrite !lookup_empty.
  - intros i x mp r Hi IH prop. unfold collectProp; cbn.
    destruct (decide (i = prop)) as [->|Hne].
    + now rewrite !lookup_insert_eq.
    + rewrite !lookup_insert_ne by exact Hne. apply IH.
Qed.

Lemma mapProp_construct (modelDesc : modelDesc value) (b : bindingDesc)
    (prop mapped : string) :
  binding modelDesc = Some b -> propMap b !! prop = Some mapped -> mapped <> "" ->
  mapProp (construct modelDesc) prop = Some mapped.
Proof.
  intros Hb Hm Hne. unfold mapProp, construct, bindingMap. rewrite Hb, Hm.
  apply String.eqb_neq in Hne. now rewrite Hne.
Qed.

(** X11. Labels on a model built by the constructor.  A property declared
    with a non-empty [label] has that label, whatever the binding.  A
    property with no label of its own (declared without [label], with the
    empty one, or not declared at all) gets the empty string when it has no
    mapping or no model is registered under the bound name, and otherwise the
    label that the bound model gives for the mapped property. *)
Theorem getPropLabel_resolves (depth : nat) (modelStore : gmap string Model)
    (modelDesc : modelDesc value) (prop : string) :
  let own := default "" (properties modelDesc !! prop ≫= pd_label) in
  (own <> "" -> getPropLabel depth modelStore (construct modelDesc) prop = Return own)
  /\ (own = "" ->
      mapProp (construct modelDesc) prop = None
      \/ getBindingModel modelStore (construct modelDesc) = None ->
      getPropLabel depth modelStore (construct modelDesc) prop = Return "")
  /\ (own = "" ->
      forall mapped bindingModel,
        mapProp (construct modelDesc) prop = Some mapped ->
        getBindingModel modelStore (construct modelDesc) = Some bindingModel ->
        getPropLabel (S depth) modelStore (construct modelDesc) prop
        = getPropLabel depth modelStore bindingModel mapped).
Proof.
  intros own.
  assert (Hl : default "" (labels (construct modelDesc) !! prop) = own).
  { unfold own, construct, labels. rewrite collectDefaults_labels.
    destruct (properties modelDesc !! prop) as [pd|]; cbn; [|reflexivity].
    now destruct (pd_label pd). }
  split; [|split].
  - intros Hne. apply String.eqb_neq in Hne.
    destruct depth; cbn [getPropLabel]; now rewrite Hl, Hne.
  - intros He Hnone.
    destruct depth; cbn [getPropLabel]; rewrite Hl, He; cbn;
      (destruct Hnone as [-> | Hn]; [reflexivity|]);
      rewrite Hn; now destruct (mapProp (construct modelDesc) prop).
  - intros He mapped bm Hm Hb. cbn [getPropLabel]. rewrite Hl, He, Hm, Hb. reflexivity.
Qed.

Lemma getPropLabel_resolves_witness :
  getPropLabel 1 registry counter "title" = Return "Title"
  /\ getPropLabel 1 registry counter "owner" = getPropLabel 0 registry (construct baseDesc) "name"
  /\ getPropLabel 1 registry counter "owner" = Return "Name"
  /\ getPropLabel 1 ∅ counter "owner" = Return "".
Proof.
  split; [|split; [|split]].
  - refine (proj1 (getPropLabel_resolves 1 registry (counterDesc None) "title") _).
    discriminate.
  - refine (proj2 (proj2 (getPropLabel_resolves 0 registry (counterDesc None) "owner")) _
              "name" (construct baseDesc) _ _); reflexivity.
  - reflexivity.
  - refine (proj1 (proj2 (getPropLabel_resolves 1 ∅ (counterDesc None) "owner")) _ _);
      [reflexivity|right; reflexivity].
Defined.

(** X12. Defaults through a binding, both models built by the constructor.
    A property without [defaultValue] that is mapped to a property of the
    registered bound model, itself declared there and not mapped further,
    takes the default of that remote property: its explicit [defaultValue]
    when it has one, else the value computed from the remote type, else
    [undefined]; the local type plays no part. *)
Theorem getPropDefaults_from_bound_model (depth : nat) (modelStore : gmap string Model)
    (modelDesc remoteDesc : modelDesc value) (b : bindingDesc) (prop mapped : string)
    (propDesc remoteProp : propDesc) :
  properties modelDesc !! prop = Some propDesc ->
  pd_defaultValue propDesc = None ->
  binding modelDesc = Some b ->
  propMap b !! prop = Some mapped ->
  mapped <> "" ->
  ModelMan.get (bindingModelName b) modelStore = Some (construct remoteDesc) ->
  properties remoteDesc !! mapped = Some remoteProp ->
  bindingMap (construct remoteDesc) !! mapped = None ->
  getPropDefaults (S depth) modelStore (construct modelDesc) prop
  = Return (localDefault remoteProp).
Proof.
  intros Hp Hd Hb Hm Hne Hreg Hrp Hrb.
  assert (Hremote : getPropDefaults depth modelStore (construct remoteDesc) mapped
                    = Return (localDefault remoteProp)).
  { assert (Hmap : mapProp (construct remoteDesc) mapped = None).
    { unfold mapProp. now rewrite Hrb. }
    assert (Hown : defaultState (construct remoteDesc) !! mapped
                   = ownDefault (bindingMap (construct remoteDesc)) mapped remoteProp).
    { cbn. now rewrite collectDefaults_lookup, Hrp. }
    unfold ownDefault in Hown. rewrite Hrb in Hown. unfold localDefault.
    destruct depth; cbn [getPropDefaults];
      change (m_properties (construct remoteDesc)) with (properties remoteDesc);
      rewrite Hrp; (destruct (pd_defaultValue remoteProp); [reflexivity|]);
      now rewrite Hmap, Hown. }
  assert (Hown : defaultState (construct modelDesc) !! prop = None).
  { cbn. rewrite collectDefaults_lookup, Hp. cbn. unfold ownDefault.
    now rewrite Hd, Hb, Hm. }
  cbn [getPropDefaults].
  change (m_properties (construct modelDesc)) with (properties modelDesc).
  rewrite Hp, Hd, (mapProp_construct modelDesc b prop mapped Hb Hm Hne).
  unfold getBindingModel. change (m_binding (construct modelDesc)) with (binding modelDesc).
  rewrite Hb, Hreg, Hremote, Hown.
  now destruct (localDefault remoteProp).
Qed.

Lemma getPropDefaults_from_bound_model_witness :
  getPropDefaults 1 registry counter "owner" = Return (VStr "").
Proof.
  refine (getPropDefaults_from_bound_model 0 registry (counterDesc None) baseDesc
            (Binding "base" {[ "owner" := "name"; "title" := "name" ]}) "owner" "name"
            (PropDesc TString None None) (PropDesc TString (Some "Name") None)
            _ _ _ _ _ _ _ _); try reflexivity.
  discriminate.
Defined.

(** X13. [getPropDefaults] reads [propDesc.hasOwnProperty] before anything
    else, so a name that is not declared makes it throw a [TypeError]:
    asked directly, or reached through a binding whose mapped name the bound
    model does not declare.  [getPropRule] and [getPropLabel] of a name that
    is neither declared nor mapped return [undefined] and the empty
    string. *)
Theorem getPropDefaults_undeclared (depth : nat) (modelStore : gmap string Model)
    (modelDesc : modelDesc value) (prop : string) :
  (properties modelDesc !! prop = None ->
   (exists what, getPropDefaults depth modelStore (construct modelDesc) prop
                 = Throw (TypeError what))
   /\ (bindingMap (construct modelDesc) !! prop = None ->
       getPropRule depth modelStore (construct modelDesc) prop
         = Return (localRule (construct modelDesc) prop)
       /\ getPropLabel depth modelStore (construct modelDesc) prop = Return ""))
  /\ (forall propDesc b mapped bindingModel,
        properties modelDesc !! prop = Some propDesc ->
        pd_defaultValue propDesc = None ->
        binding modelDesc = Some b ->
        propMap b !! prop = Some mapped ->
        mapped <> "" ->
        ModelMan.get (bindingModelName b) modelStore = Some bindingModel ->
        m_properties bindingModel !! mapped = None ->
        exists what, getPropDefaults (S depth) modelStore (construct modelDesc) prop
                     = Throw (TypeError what)).
Proof.
  split.
  - intros Hnone. split.
    + eexists. destruct depth; cbn [getPropDefaults];
        change (m_properties (construct modelDesc)) with (properties modelDesc);
        now rewrite Hnone.
    + intros Hb.
      assert (Hm : mapProp (construct modelDesc) prop = None).
      { unfold mapProp. now rewrite Hb. }
      split.
      * destruct depth; cbn [getPropRule]; now rewrite Hm.
      * assert (Hl : labels (construct modelDesc) !! prop = None).
        { cbn. now rewrite collectDefaults_labels, Hnone. }
        destruct depth; cbn [getPropLabel]; now rewrite Hl, Hm.
  - intros pd b mapped bm Hp Hd Hb Hmap Hne Hreg Hrem.
    eexists. cbn [getPropDefaults].
    change (m_properties (construct modelDesc)) with (properties modelDesc).
    rewrite Hp, Hd, (mapProp_construct modelDesc b prop mapped Hb Hmap Hne).
    unfold getBindingModel. change (m_binding (construct modelDesc)) with (binding modelDesc).
    rewrite Hb, Hreg.
    destruct depth; cbn [getPropDefaults]; now rewrite Hrem.
Qed.

Lemma getPropDefaults_undeclared_witness :
  (exists what, getPropDefaults 0 registry counter "nothing" = Throw (TypeError what))
  /\ getPropRule 0 registry counter "nothing" = Return None
  /\ getPropLabel 0 registry counter "nothing" = Return ""
  /\ exists what,
       getPropDefaults 1 (ModelMan.reg counterDist ∅)
         (construct {| modelName := "view"; properties := {[ "n" := PropDesc TNumber None None ]};
                       rules := None;
                       binding := Some (Binding "counter" {[ "n" := "count" ]});
                       mixins := None; state := None; actions := None; mutations := None;
                       service := VUndefined |}) "n"
       = Throw (TypeError what).
Proof.
  destruct (getPropDefaults_undeclared 0 registry (counterDesc None) "nothing")
    as [H _].
  destruct (H eq_refl) as [H1 H2]. destruct (H2 eq_refl) as [H3 H4].
  split; [exact H1|]. split; [exact H3|]. split; [exact H4|].
  refine (proj2 (getPropDefaults_undeclared 0 (ModelMan.reg counterDist ∅) _ "n")
            (PropDesc TNumber None None) (Binding "counter" {[ "n" := "count" ]}) "count"
            counterDist _ _ _ _ _ _ _); try reflexivity.
  discriminate.
Defined.

(** ** Bindings that form a cycle *)

(** X14. Two models bound to each other, with a property of the one mapped
    to a property of the other and back (one model bound to itself, with a
    property mapped to itself, being the case where the two are the same):
    the resolvers call each other without end and the call ends in a
    [RangeError], however much stack there is.  [getPropRule] does so
    always, [getPropLabel] when neither property has a label of its own,
    [getPropDefaults] when both are declared without [defaultValue]. *)
Theorem binding_cycle_overflows (modelStore : gmap string Model) (a b : Model)
    (p q : string) :
  getBindingModel modelStore a = Some b ->
  getBindingModel modelStore b = Some a ->
  mapProp a p = Some q ->
  mapProp b q = Some p ->
  forall depth,
    getPropRule depth modelStore a p = Throw RangeError
    /\ (default "" (labels a !! p) = "" -> default "" (labels b !! q) = "" ->
        getPropLabel depth modelStore a p = Throw RangeError)
    /\ (forall pa pb,
          m_properties a !! p = Some pa -> pd_defaultValue pa = None ->
          m_properties b !! q = Some pb -> pd_defaultValue pb = None ->
          getPropDefaults depth modelStore a p = Throw RangeError).
Proof.
  intros Hab Hba Hp Hq depth. split; [|split].
  - assert (H : getPropRule depth modelStore a p = Throw RangeError
                /\ getPropRule depth modelStore b q = Throw RangeError).
    { induction depth as [|d [IHa IHb]]; cbn [getPropRule].
      - now rewrite Hp, Hq, Hab, Hba.
      - now rewrite Hp, Hq, Hab, Hba, IHa, IHb. }
    apply H.
  - intros La Lb.
    assert (H : getPropLabel depth modelStore a p = Throw RangeError
                /\ getPropLabel depth modelStore b q = Throw RangeError).
    { induction depth as [|d [IHa IHb]]; cbn [getPropLabel];
        rewrite La, Lb; cbn [String.eqb negb]; rewrite Hp, Hq, Hab, Hba; auto. }
    apply H.
  - intros pa pb Ha Hda Hb Hdb.
    assert (H : getPropDefaults depth modelStore a p = Throw RangeError
                /\ getPropDefaults depth modelStore b q = Throw RangeError).
    { induction depth as [|d [IHa IHb]]; cbn [getPropDefaults];
        rewrite Ha, Hb, Hda, Hdb, Hp, Hq, Hab, Hba.
      - auto.
      - now rewrite IHa, IHb. }
    apply H.
Qed.

Lemma binding_cycle_overflows_witness :
  getPropRule 5 (ModelMan.reg selfBound ∅) selfBound "x" = Throw RangeError
  /\ getPropLabel 5 (ModelMan.reg selfBound ∅) selfBound "x" = Throw RangeError
  /\ getPropDefaults 5 (ModelMan.reg selfBound ∅) selfBound "x" = Throw RangeError.
Proof.
  assert (H : forall depth,
             getPropRule depth (ModelMan.reg selfBound ∅) selfBound "x" = Throw RangeError
             /\ (default "" (labels selfBound !! "x") = "" ->
                 default "" (labels selfBound !! "x") = "" ->
                 getPropLabel depth (ModelMan.reg selfBound ∅) selfBound "x"
                 = Throw RangeError)
             /\ (forall pa pb,
                   m_properties selfBound !! "x" = Some pa -> pd_defaultValue pa = None ->
                   m_properties selfBound !! "x" = Some pb -> pd_defaultValue pb = None ->
                   getPropDefaults depth (ModelMan.reg selfBound ∅) selfBound "x"
                   = Throw RangeError)).
  { refine (binding_cycle_overflows (ModelMan.reg selfBound ∅) selfBound selfBound
              "x" "x" _ _ _ _); reflexivity. }
  destruct (H 5) as (H1 & H2 & H3).
  split; [exact H1|]. split.
  - apply H2; reflexivity.
  - apply (H3 (PropDesc TNumber None None) (PropDesc TNumber None None)); reflexivity.
Defined.

(** ** The registry *)

(** X15. The registry of the bundled build.  A registered model is found
    under its [modelName]; a schema is constructed first and found under its
    [modelName]; the other names are untouched.  Registering under a name
    that is taken replaces the model that was there.  [unReg] given a model
    removes whatever is registered under the name of that model, the same as
    [unReg] given that name, and leaves the other names alone; given anything
    else it does nothing. *)
Theorem registry_round_trip (modelStore : gmap string Model) (model : Model) :
  ModelMan.get (m_modelName model) (Registry.reg (Registry.RegModel model) modelStore)
    = Some model
  /\ (forall schema,
        ModelMan.get (modelName schema) (Registry.reg (Registry.RegSchema schema) modelStore)
        = Some (Dist.construct schema))
  /\ (forall name,
        name <> m_modelName model ->
        ModelMan.get name (Registry.reg (Registry.RegModel model) modelStore)
          = ModelMan.get name modelStore
        /\ ModelMan.get name (Registry.unReg (Registry.UnRegModel model) modelStore)
          = ModelMan.get name modelStore)
  /\ (forall other,
        m_modelName other = m_modelName model ->
        Registry.reg (Registry.RegModel other) (Registry.reg (Registry.RegModel model) modelStore)
          = Registry.reg (Registry.RegModel other) modelStore
        /\ ModelMan.get (m_modelName model)
             (Registry.unReg (Registry.UnRegModel other)
                (Registry.reg (Registry.RegModel model) modelStore)) = None)
  /\ Registry.unReg (Registry.UnRegModel model) modelStore
     = Registry.unReg (Registry.UnRegName (m_modelName model)) modelStore
  /\ (ModelMan.get (m_modelName model) modelStore = None ->
      Registry.unReg (Registry.UnRegModel model)
        (Registry.reg (Registry.RegModel model) modelStore) = modelStore)
  /\ forall v, Registry.unReg (Registry.UnRegOther v) modelStore = modelStore.
Proof.
  unfold ModelMan.get, Registry.reg, Registry.unReg. repeat split.
  - apply lookup_insert_eq.
  - intros schema. apply lookup_insert_eq.
  - now apply lookup_insert_ne.
  - now apply lookup_delete_ne.
  - rewrite H. apply insert_insert_eq.
  - rewrite H. apply lookup_delete_eq.
  - intros Hnone. rewrite delete_insert_eq. now apply delete_id.
Qed.

Lemma registry_round_trip_witness :
  Registry.unReg (Registry.UnRegModel counter)
    (Registry.reg (Registry.RegModel counter) registry) = registry.
Proof.
  refine (proj1 (proj2 (proj2 (proj2 (proj2 (proj2
            (registry_round_trip registry counter)))))) _).
  reflexivity.
Defined.

(** X16. The resolvers look the bound model up in the registry at each
    call.  Once nothing is registered under the bound name, a bound model
    resolves every property on its own: the local rule, the own label, and
    the explicit or computed default or [undefined].  After a model has been
    registered under the bound name, it is the one the resolvers go to,
    whichever was registered before. *)
Theorem resolvers_follow_registry (depth : nat) (modelStore : gmap string Model)
    (m : Model) (b : bindingDesc) (prop : string) :
  m_binding m = Some b ->
  (forall gone,
      gone = Registry.unReg (Registry.UnRegName (bindingModelName b)) modelStore ->
      getPropRule depth gone m prop = Return (localRule m prop)
      /\ getPropLabel depth gone m prop = Return (default "" (labels m !! prop))
      /\ forall propDesc,
           m_properties m !! prop = Some propDesc ->
           getPropDefaults depth gone m prop
           = Return (default (default VUndefined (defaultState m !! prop))
                             (pd_defaultValue propDesc)))
  /\ forall bound,
       m_modelName bound = bindingModelName b ->
       getBindingModel (Registry.reg (Registry.RegModel bound) modelStore) m = Some bound.
Proof.
  intros Hb. split.
  - intros gone ->.
    assert (Hnone : getBindingModel
                      (Registry.unReg (Registry.UnRegName (bindingModelName b)) modelStore) m
                    = None).
    { unfold getBindingModel, ModelMan.get, Registry.unReg. rewrite Hb.
      apply lookup_delete_eq. }
    split; [|split].
    + destruct depth; cbn [getPropRule]; rewrite Hnone; now destruct (mapProp m prop).
    + destruct depth; cbn [getPropLabel]; rewrite Hnone;
        destruct (String.eqb (default "" (labels m !! prop)) "") eqn:E; cbn [negb];
        try reflexivity;
        (apply String.eqb_eq in E; rewrite E; now destruct (mapProp m prop)).
    + intros pd Hp.
      destruct depth; cbn [getPropDefaults]; rewrite Hp, Hnone;
        destruct (pd_defaultValue pd); try reflexivity; now destruct (mapProp m prop).
  - intros bound Hname. unfold getBindingModel, ModelMan.get, Registry.reg.
    rewrite Hb, Hname. apply lookup_insert_eq.
Qed.

Lemma resolvers_follow_registry_witness :
  getPropRule 1 (Registry.unReg (Registry.UnRegName "base") registry) counter "owner"
    = Return (Some {[ "b" := VNum 3 ]})
  /\ getPropLabel 1 (Registry.unReg (Registry.UnRegName "base") registry) counter "owner"
    = Return ""
  /\ getBindingModel (Registry.reg (Registry.RegModel (construct baseDesc)) ∅) counter
    = Some (construct baseDesc).
Proof.
  destruct (resolvers_follow_registry 1 registry counter
              (Binding "base" {[ "owner" := "name"; "title" := "name" ]}) "owner" eq_refl)
    as [H1 _].
  destruct (H1 _ eq_refl) as (Hr & Hl & _).
  split; [exact Hr|]. split; [exact Hl|].
  refine (proj2 (resolvers_follow_registry 0 ∅ counter
            (Binding "base" {[ "owner" := "name"; "title" := "name" ]}) "owner" _)
            (construct baseDesc) _); reflexivity.
Defined.

(** ** The methods that walk the properties *)

Lemma getRulesLoop_returns (depth : nat) (modelStore : gmap string Model) (m : Model)
    (props : list string) :
  forall rules0 : list (string * option (gmap string value)),
    (forall p, p ∈ props -> exists r, getPropRule depth modelStore m p = Return r) ->
    exists rules,
      getRulesLoop depth modelStore m props rules0 = Return rules
      /\ (NoDup (Obj.keys rules0) -> NoDup (Obj.keys rules))
      /\ (forall k, k ∈ Obj.keys rules <-> k ∈ Obj.keys rules0 \/ k ∈ props)
      /\ (forall k, k ∉ props -> Obj.get k rules = Obj.get k rules0)
      /\ (forall p r, p ∈ props -> getPropRule depth modelStore m p = Return r ->
                      Obj.get p rules = Some r).
Proof.
  induction props as [|p rest IH]; intros rules0 Hall; cbn [getRulesLoop].
  - exists rules0. split; [reflexivity|]. split; [tauto|]. split; [|split].
    + intros k. split; [tauto|]. intros [H|H]; [exact H|now apply elem_of_nil in H].
    + reflexivity.
    + intros q r H. now apply elem_of_nil in H.
  - destruct (Hall p (list_elem_of_here _ _)) as [r Hr]. rewrite Hr.
    destruct (IH (Obj.set p r rules0)) as (rules & H0 & H1 & H2 & H3 & H4).
    { intros q Hq. apply Hall. now apply list_elem_of_further. }
    exists rules. split; [exact H0|]. split; [|split; [|split]].
    + intros Hnd. apply H1. now apply nodup_keys_set.
    + intros k. rewrite H2, elem_keys_set, elem_of_cons. tauto.
    + intros k Hk. apply not_elem_of_cons in Hk as [Hne Hk].
      rewrite H3 by exact Hk. apply get_set_ne. congruence.
    + intros q r' Hq Hq'. destruct (decide (q ∈ rest)) as [Hin|Hin]; [now apply H4|].
      apply elem_of_cons in Hq as [->|Hq]; [|contradiction].
      rewrite H3 by exact Hin. rewrite Hr in Hq'. injection Hq' as <-. apply get_set_eq.
Qed.

Lemma getRulesLoop_throws (depth : nat) (modelStore : gmap string Model) (m : Model)
    (props : list string) (p : string) (e : error) :
  p ∈ props -> getPropRule depth modelStore m p = Throw e ->
  forall rules0, exists e', getRulesLoop depth modelStore m props rules0 = Throw e'.
Proof.
  induction props as [|q rest IH]; intros Hin Hp rules0; cbn [getRulesLoop].
  - now apply elem_of_nil in Hin.
  - destruct (getPropRule depth modelStore m q) as [r|e0] eqn:E; [|eauto].
    apply elem_of_cons in Hin as [->|Hin]; [congruence|]. now apply IH.
Qed.

Lemma getPropRule_unbound (depth : nat) (modelStore : gmap string Model) (m : Model)
    (prop : string) :
  m_binding m = None -> getPropRule depth modelStore m prop = Return (localRule m prop).
Proof.
  intros Hb.
  assert (Hn : getBindingModel modelStore m = None).
  { unfold getBindingModel. now rewrite Hb. }
  destruct depth; cbn [getPropRule]; rewrite Hn; now destruct (mapProp m prop).
Qed.

(** X17. [getRules] over the names it is asked for (the one name, the names
    of the array, or else the declared properties): when [getPropRule]
    returns for each of them, the result has exactly these names as keys,
    each once, and under each the rule that [getPropRule] gives, [undefined]
    included; when [getPropRule] throws for one of them, [getRules] throws.
    On a model without binding it always returns, with the local rule of
    each name, and a name that is not declared is no error. *)
Theorem getRules_collects (declared : list string) (depth : nat)
    (modelStore : gmap string Model) (m : Model) (props : propsArg) :
  let names := match props with
               | PropsString s => [s]
               | PropsArray l => l
               | PropsOther => declared
               end in
  ((forall p, p ∈ names -> exists r, getPropRule depth modelStore m p = Return r) ->
   exists rules,
     getRules declared depth modelStore m props = Return rules
     /\ NoDup (Obj.keys rules)
     /\ (forall k, k ∈ Obj.keys rules <-> k ∈ names)
     /\ forall p r, p ∈ names -> getPropRule depth modelStore m p = Return r ->
                    Obj.get p rules = Some r)
  /\ (forall p e, p ∈ names -> getPropRule depth modelStore m p = Throw e ->
                  exists e', getRules declared depth modelStore m props = Throw e')
  /\ (m_binding m = None ->
      exists rules,
        getRules declared depth modelStore m props = Return rules
        /\ forall p, p ∈ names -> Obj.get p rules = Some (localRule m p)).
Proof.
  intros names. unfold getRules. fold names. split; [|split].
  - intros Hall.
    destruct (getRulesLoop_returns depth modelStore m names [] Hall)
      as (rules & H0 & H1 & H2 & _ & H4).
    exists rules. split; [exact H0|]. split; [apply H1, NoDup_nil_2|]. split; [|exact H4].
    intros k. rewrite H2. split; [|tauto].
    intros [H|H]; [now apply elem_of_nil in H|exact H].
  - intros p e Hin Hp. now apply (getRulesLoop_throws depth modelStore m names p e).
  - intros Hb.
    destruct (getRulesLoop_returns depth modelStore m names [])
      as (rules & H0 & _ & _ & _ & H4).
    { intros p _. eexists. now apply getPropRule_unbound. }
    exists rules. split; [exact H0|]. intros p Hin. apply H4; [exact Hin|].
    now apply getPropRule_unbound.
Qed.

Lemma getRules_collects_witness :
  exists rules,
    getRules ["x"] 0 ∅ (construct baseDesc) (PropsArray ["name"; "other"; "name"])
    = Return rules
    /\ forall p, p ∈ ["name"; "other"; "name"] ->
                 Obj.get p rules = Some (localRule (construct baseDesc) p).
Proof.
  refine (proj2 (proj2 (getRules_collects ["x"] 0 ∅ (construct baseDesc)
                          (PropsArray ["name"; "other"; "name"]))) _).
  reflexivity.
Defined.

Lemma defaultsLoop_returns (depth : nat) (modelStore : gmap string Model) (m : Model)
    (props : list string) :
  forall defaults0 : list (string * value),
    (forall p, p ∈ props -> exists v, getPropDefaults depth modelStore m p = Return v) ->
    exists defaults,
      defaultsLoop depth modelStore m props defaults0 = Return defaults
      /\ (NoDup (Obj.keys defaults0) -> NoDup (Obj.keys defaults))
      /\ (forall k, k ∈ Obj.keys defaults <-> k ∈ Obj.keys defaults0 \/ k ∈ props)
      /\ (forall k, k ∉ props -> Obj.get k defaults = Obj.get k defaults0)
      /\ (forall p v, p ∈ props -> getPropDefaults depth modelStore m p = Return v ->
                      Obj.get p defaults = Some v).
Proof.
  induction props as [|p rest IH]; intros defaults0 Hall; cbn [defaultsLoop].
  - exists defaults0. split; [reflexivity|]. split; [tauto|]. split; [|split].
    + intros k. split; [tauto|]. intros [H|H]; [exact H|now apply elem_of_nil in H].
    + reflexivity.
    + intros q r H. now apply elem_of_nil in H.
  - destruct (Hall p (list_elem_of_here _ _)) as [r Hr]. rewrite Hr.
    destruct (IH (Obj.set p r defaults0)) as (defaults & H0 & H1 & H2 & H3 & H4).
    { intros q Hq. apply Hall. now apply list_elem_of_further. }
    exists defaults. split; [exact H0|]. split; [|split; [|split]].
    + intros Hnd. apply H1. now apply nodup_keys_set.
    + intros k. rewrite H2, elem_keys_set, elem_of_cons. tauto.
    + intros k Hk. apply not_elem_of_cons in Hk as [Hne Hk].
      rewrite H3 by exact Hk. apply get_set_ne. congruence.
    + intros q r' Hq Hq'. destruct (decide (q ∈ rest)) as [Hin|Hin]; [now apply H4|].
      apply elem_of_cons in Hq as [->|Hq]; [|contradiction].
      rewrite H3 by exact Hin. rewrite Hr in Hq'. injection Hq' as <-. apply get_set_eq.
Qed.

Lemma defaultsLoop_throws (depth : nat) (modelStore : gmap string Model) (m : Model)
    (props : list string) (p : string) (e : error) :
  p ∈ props -> getPropDefaults depth modelStore m p = Throw e ->
  forall defaults0, exists e', defaultsLoop depth modelStore m props defaults0 = Throw e'.
Proof.
  induction props as [|q rest IH]; intros Hin Hp defaults0; cbn [defaultsLoop].
  - now apply elem_of_nil in Hin.
  - destruct (getPropDefaults depth modelStore m q) as [r|e0] eqn:E; [|eauto].
    apply elem_of_cons in Hin as [->|Hin]; [congruence|]. now apply IH.
Qed.

Lemma getPropDefaults_unbound (depth : nat) (modelStore : gmap string Model)
    (modelDesc : modelDesc value) (prop : string) (propDesc : propDesc) :
  binding modelDesc = None ->
  properties modelDesc !! prop = Some propDesc ->
  getPropDefaults depth modelStore (construct modelDesc) prop
  = Return (localDefault propDesc).
Proof.
  intros Hb Hp.
  assert (Hbm : bindingMap (construct modelDesc) !! prop = None).
  { cbn. rewrite Hb. apply lookup_empty. }
  assert (Hm : mapProp (construct modelDesc) prop = None).
  { unfold mapProp. now rewrite Hbm. }
  assert (Hown : defaultState (construct modelDesc) !! prop
                 = ownDefault (bindingMap (construct modelDesc)) prop propDesc).
  { cbn. now rewrite collectDefaults_lookup, Hp. }
  unfold ownDefault in Hown. rewrite Hbm in Hown. unfold localDefault.
  destruct depth; cbn [getPropDefaults];
    change (m_properties (construct modelDesc)) with (properties modelDesc);
    rewrite Hp; (destruct (pd_defaultValue propDesc); [reflexivity|]);
    now rewrite Hm, Hown.
Qed.

(** X18. [defaults()] on a model built without binding, [declared] being
    the names of its properties: it returns, whatever the registry holds, an
    object with exactly the declared names as keys, each once, and under each
    the explicit [defaultValue] of the property when it has one, else the
    value computed from its type, else [undefined].  On any model, when
    [getPropDefaults] throws for a declared name, [defaults()] throws. *)
Theorem defaults_of_unbound_model (declared : list string) (depth : nat)
    (modelStore : gmap string Model) (modelDesc : modelDesc value) :
  (forall p, p ∈ declared <-> is_Some (properties modelDesc !! p)) ->
  (binding modelDesc = None ->
   exists result,
     defaults declared depth modelStore (construct modelDesc) = Return result
     /\ NoDup (Obj.keys result)
     /\ (forall k, k ∈ Obj.keys result <-> is_Some (properties modelDesc !! k))
     /\ forall p propDesc,
          properties modelDesc !! p = Some propDesc ->
          Obj.get p result = Some (localDefault propDesc))
  /\ (forall p e,
        is_Some (properties modelDesc !! p) ->
        getPropDefaults depth modelStore (construct modelDesc) p = Throw e ->
        exists e', defaults declared depth modelStore (construct modelDesc) = Throw e').
Proof.
  intros Hdecl. split.
  - intros Hb. unfold defaults.
    destruct (defaultsLoop_returns depth modelStore (construct modelDesc) declared [])
      as (result & H0 & H1 & H2 & _ & H4).
    { intros p Hp. apply Hdecl in Hp as [pd Hpd]. exists (localDefault pd).
      exact (getPropDefaults_unbound depth modelStore modelDesc p pd Hb Hpd). }
    exists result. split; [exact H0|]. split; [apply H1, NoDup_nil_2|]. split.
    + intros k. rewrite H2, <- Hdecl. split; [|tauto].
      intros [H|H]; [now apply elem_of_nil in H|exact H].
    + intros p pd Hp. apply H4.
      * apply Hdecl. now rewrite Hp.
      * exact (getPropDefaults_unbound depth modelStore modelDesc p pd Hb Hp).
  - intros p e Hp He. unfold defaults.
    apply (defaultsLoop_throws depth modelStore (construct modelDesc) declared p e);
      [now apply Hdecl|exact He].
Qed.

Lemma defaults_of_unbound_model_witness :
  exists result,
    defaults ["count"; "items"; "flag"] 0 registry (construct formDesc) = Return result
    /\ NoDup (Obj.keys result)
    /\ (forall k, k ∈ Obj.keys result <-> is_Some (properties formDesc !! k))
    /\ forall p propDesc,
         properties formDesc !! p = Some propDesc ->
         Obj.get p result = Some (localDefault propDesc).
Proof.
  refine (proj1 (defaults_of_unbound_model ["count"; "items"; "flag"] 0 registry formDesc _) _);
    [|reflexivity].
  intros p. split.
  - intros H. repeat (apply elem_of_cons in H as [->|H]);
      [eexists; reflexivity ..|now apply elem_of_nil in H].
  - intros [pd H]. cbn in H.
    destruct (decide (p = "count")) as [->|H1]; [apply list_elem_of_here|].
    destruct (decide (p = "items")) as [->|H2];
      [apply list_elem_of_further, list_elem_of_here|].
    destruct (decide (p = "flag")) as [->|H3];
      [apply list_elem_of_further, list_elem_of_further, list_elem_of_here|].
    rewrite lookup_insert_ne in H by congruence.
    rewrite lookup_insert_ne in H by congruence.
    rewrite lookup_singleton_ne in H by congruence. discriminate.
Defined.

Lemma getPropLabel_unbound (depth : nat) (modelStore : gmap string Model)
    (modelDesc : modelDesc value) (prop : string) :
  binding modelDesc = None ->
  getPropLabel depth modelStore (construct modelDesc) prop
  = Return (default "" (properties modelDesc !! prop ≫= pd_label)).
Proof.
  intros Hb.
  assert (Hl : default "" (labels (construct modelDesc) !! prop)
               = default "" (properties modelDesc !! prop ≫= pd_label)).
  { unfold construct, labels. rewrite collectDefaults_labels.
    destruct (properties modelDesc !! prop) as [pd|]; cbn; [|reflexivity].
    now destruct (pd_label pd). }
  assert (Hm : mapProp (construct modelDesc) prop = None).
  { unfold mapProp. cbn. rewrite Hb. now rewrite lookup_empty. }
  destruct depth; cbn [getPropLabel]; rewrite Hl, Hm;
    now destruct (String.eqb _ "") eqn:E; cbn [negb];
      [apply String.eqb_eq in E; rewrite E|].
Qed.

(** X19. [getLabels()] on a model built without binding, [declared] being
    the names of its properties: it returns, whatever the registry holds,
    the array of their labels in the order of the names, with the empty
    string for a property declared without [label]. *)
Theorem getLabels_of_unbound_model (declared : list string) (depth : nat)
    (modelStore : gmap string Model) (modelDesc : modelDesc value) :
  binding modelDesc = None ->
  getLabels declared depth modelStore (construct modelDesc)
  = Return (map (fun p => default "" (properties modelDesc !! p ≫= pd_label)) declared).
Proof.
  intros Hb. induction declared as [|p rest IH]; cbn [getLabels map]; [reflexivity|].
  now rewrite (getPropLabel_unbound depth modelStore modelDesc p Hb), IH.
Qed.

Lemma getLabels_of_unbound_model_witness :
  getLabels ["count"; "items"; "flag"] 0 registry (construct formDesc)
  = Return ["Count"; ""; ""].
Proof.
  refine (getLabels_of_unbound_model ["count"; "items"; "flag"] 0 registry formDesc _).
  reflexivity.
Defined.

(** ** Top-level functions in the bundled build, and mutations of the model *)

Section FoldSetCases.
Context {A V : Type} (g : A -> V).

Lemma get_fold_set_cases (l : list (string * A)) (acc : list (string * V))
    (k : string) (x : V) :
  Obj.get k (fold_left (fun a (y : string * A) => Obj.set y.1 (g y.2) a) l acc) = Some x ->
  (exists a, (k, a) ∈ l /\ x = g a) \/ Obj.get k acc = Some x.
Proof.
  revert acc. induction l as [|[k0 a0] r IH]; intros acc; cbn [fold_left]; [now right|].
  intros H. apply IH in H as [(a & Hin & ->)|H].
  - left. exists a. split; [now apply list_elem_of_further|reflexivity].
  - cbn [fst snd] in H. destruct (decide (k = k0)) as [->|Hne].
    + rewrite get_set_eq in H. injection H as <-. left. exists a0.
      split; [apply list_elem_of_here|reflexivity].
    + rewrite get_set_ne in H by congruence. now right.
Qed.
End FoldSetCases.

(** X20. The bundled build has no step that moves the model's own
    functions: a function at the top level of [actions] stays there, and a
    name that no table of a namespace and no mixin declares, such a function's
    name included, is not in the reverse index, so that [dispatch] of it
    throws, whatever handlers are registered. *)
Theorem dist_keeps_top_level_functions (modelDesc : modelDesc (list (string * value)))
    (desc : list (string * entry actionFn)) (name : string) :
  actions modelDesc = Some desc ->
  NoDup (Obj.keys desc) ->
  (forall K t, Obj.get K desc = Some (ETable t) -> name ∉ Obj.keys t) ->
  (forall K mx, (K, mx) ∈ default [] (mixins modelDesc) -> name ∉ Obj.keys (mx_actions mx)) ->
  actionStateMap (Dist.construct modelDesc) !! name = None
  /\ (forall f,
        Obj.get name desc = Some (EFun f) ->
        name ∉ Obj.keys (default [] (mixins modelDesc)) ->
        getStateActions (Dist.construct modelDesc) (Some name) = Some (EFun f))
  /\ forall handlers bizArgs s,
       exists e s',
         Dist.dispatch (registered handlers (Dist.construct modelDesc)) name bizArgs s
         = (Throw e, s').
Proof.
  intros Ha Hnd Htab Hmix.
  assert (Hact : m_actions (Dist.construct modelDesc)
                 = fold_left (fun a (x : string * mixin) =>
                                Obj.set x.1 (ETable (mx_actions x.2)) a)
                             (default [] (mixins modelDesc)) desc).
  { unfold Dist.construct, m_actions, mixIn. rewrite mixIn_actions. cbn [mixedActions].
    now rewrite Ha. }
  assert (Hnone : actionStateMap (Dist.construct modelDesc) !! name = None).
  { destruct (actionStateMap (Dist.construct modelDesc) !! name) as [ns|] eqn:E;
      [|reflexivity].
    exfalso.
    assert (Hnd' : NoDup (Obj.keys (m_actions (Dist.construct modelDesc)))).
    { unfold Dist.construct, m_actions. apply mixIn_actions_nodup. now rewrite Ha. }
    destruct (index_sound _ name ns Hnd' E) as (table & Ht & Hin).
    rewrite Hact in Ht.
    apply (get_fold_set_cases (fun x : mixin => ETable (mx_actions x))) in Ht
      as [(mx & Hmx & ->)|Ht].
    - now apply (Hmix ns mx).
    - destruct table as [f|t]; [now apply elem_of_nil in Hin|].
      now apply (Htab ns t). }
  split; [exact Hnone|]. split.
  - intros f Hf Hnot. unfold getStateActions. change (key_of (Some name)) with name.
    rewrite Hact.
    now rewrite (get_fold_set_notin (fun x : mixin => ETable (mx_actions x))).
  - intros handlers bizArgs s. now apply dist_dispatch_unknown_action.
Qed.

Lemma dist_keeps_top_level_functions_witness :
  actionStateMap (Dist.construct flatDistDesc) !! "incA" = None
  /\ getStateActions (Dist.construct flatDistDesc) (Some "incA") = Some (EFun incA)
  /\ exists e s',
       Dist.dispatch (registered [] (Dist.construct flatDistDesc)) "incA" [] ∅ = (Throw e, s').
Proof.
  assert (H : actionStateMap (Dist.construct flatDistDesc) !! "incA" = None
              /\ (forall f,
                    Obj.get "incA" [("incA", EFun incA); ("incB", EFun incB)] = Some (EFun f) ->
                    "incA" ∉ Obj.keys (default [] (mixins flatDistDesc)) ->
                    getStateActions (Dist.construct flatDistDesc) (Some "incA")
                    = Some (EFun f))
              /\ forall handlers bizArgs s,
                   exists e s',
                     Dist.dispatch (registered handlers (Dist.construct flatDistDesc))
                                   "incA" bizArgs s = (Throw e, s')).
  { refine (dist_keeps_top_level_functions flatDistDesc
              [("incA", EFun incA); ("incB", EFun incB)] "incA" _ _ _ _).
    - reflexivity.
    - apply (bool_decide_unpack _). reflexivity.
    - intros K t Hget. cbn in Hget.
      destruct (String.eqb K "incA"); [discriminate|].
      destruct (String.eqb K "incB"); discriminate.
    - intros K mx Hin. now apply elem_of_nil in Hin. }
  destruct H as (H1 & H2 & H3).
  split; [exact H1|]. split; [|apply H3].
  apply H2; [reflexivity|apply not_elem_of_nil].
Defined.

(** X21. The mutations of a model built by the ES module, for a schema whose
    mixins do not use the key [modelName].  When the schema has a [mutations]
    object with distinct keys and no function under [modelName], the context
    of the model's own actions reaches every top-level mutation: dispatching
    its name is the call of that function on the state followed by the
    arguments.  When the schema has no [mutations], the namespace [modelName]
    has no mutation table, and every [context.dispatch] of an own action
    throws a [TypeError], for any name. *)
Theorem own_mutations_reached (modelDesc : modelDesc value) (state : value)
    (svc : serviceHandle) :
  modelName modelDesc ∉ Obj.keys (default [] (mixins modelDesc)) ->
  (forall desc,
      mutations modelDesc = Some desc ->
      NoDup (Obj.keys desc) ->
      holdsFunction (Obj.get (modelName modelDesc) desc) = false ->
      forall name f args s,
        Obj.get name desc = Some (EFun f) ->
        ctx_dispatch (makeActionContext
                        (getStateMutations (construct modelDesc) (Some (modelName modelDesc)))
                        state svc) name args s
        = f (state :: args) s)
  /\ (mutations modelDesc = None ->
      getStateMutations (construct modelDesc) (Some (modelName modelDesc)) = None
      /\ forall name args s,
           exists what,
             ctx_dispatch (makeActionContext
                             (getStateMutations (construct modelDesc)
                                                (Some (modelName modelDesc)))
                             state svc) name args s
             = (Throw (TypeError what), s)).
Proof.
  intros Hmix.
  assert (Hget : getStateMutations (construct modelDesc) (Some (modelName modelDesc))
                 = Obj.get (modelName modelDesc)
                     (default [] (regDefaultDesc (modelName modelDesc) <$> mutations modelDesc))).
  { unfold getStateMutations, construct, m_mutations, mixIn.
    rewrite mixIn_mutations. cbn [mixedMutations].
    change (key_of (Some (modelName modelDesc))) with (modelName modelDesc).
    now rewrite (get_fold_set_notin (fun x : mixin => ETable (mx_mutations x))). }
  split.
  - intros desc Hd Hnd Hfun name f args s Hf.
    destruct (regDefaultDesc_moves (modelName modelDesc) desc Hnd Hfun)
      as (defaults & Ht & Hmoved & _).
    destruct (Hmoved name f Hf) as [Hin _].
    assert (Hget' : getStateMutations (construct modelDesc) (Some (modelName modelDesc))
                    = Some (ETable defaults)).
    { rewrite Hget, Hd. exact Ht. }
    rewrite Hget'. cbn [makeActionContext ctx_dispatch as_table]. now rewrite Hin.
  - intros Hnone.
    assert (Hget' : getStateMutations (construct modelDesc) (Some (modelName modelDesc))
                    = None).
    { rewrite Hget, Hnone. reflexivity. }
    rewrite Hget'. split; [reflexivity|]. intros name args s. eexists. reflexivity.
Qed.

Lemma own_mutations_reached_witness :
  ctx_dispatch (makeActionContext (getStateMutations counter (Some "counter"))
                                  (VObject 0) (ServiceValue VUndefined))
               "inc" [VNum 5] {[ 0 := {[ "n" := VNum 1 ]} ]}
  = (Return VUndefined, {[ 0 := {[ "n" := VNum 6 ]} ]})
  /\ exists what,
       dispatch 1 (construct bareDesc) "incA" [] ∅
       = (Throw (TypeError what), {[ 0 := {[ "n" := VNum 0 ]} ]}).
Proof.
  split.
  - refine (proj1 (own_mutations_reached (counterDesc None) (VObject 0)
                     (ServiceValue VUndefined) _)
              [("inc", EFun inc)] _ _ _ "inc" inc [VNum 5] {[ 0 := {[ "n" := VNum 1 ]} ]} _).
    + apply not_elem_of_nil.
    + reflexivity.
    + apply (bool_decide_unpack _). reflexivity.
    + reflexivity.
    + reflexivity.
  - destruct (proj2 (own_mutations_reached bareDesc (VObject 0)
                       (ServiceDispatch (dispatch 0 (construct bareDesc)))
                       (not_elem_of_nil _)) eq_refl) as [_ H].
    destruct (H "inc" [VNum 1] {[ 0 := {[ "n" := VNum 0 ]} ]}) as [what Hw].
    exists what. exact Hw.
Defined.

(** ** A schema given to the constructor twice *)

(** X22. The constructor of the ES module writes into the schema object it
    is given, so a second model built from the same object starts from the
    composed state factory of the first: what the second model has under
    [modelName] is not the model's own slice but the whole state object of
    the first model, which holds the own slice under [modelName] once
    more.  This is for a schema whose mixins do not use the key
    [modelName]. *)
Theorem schema_reuse_nests_state (modelDesc : modelDesc value) (s s2 : store)
    (all2 : list (string * value)) :
  modelName modelDesc ∉ Obj.keys (default [] (mixins modelDesc)) ->
  getState (construct (schemaAfter modelDesc)) StatesUndefined s = (Return all2, s2) ->
  exists all1 s1,
    getState (construct modelDesc) StatesUndefined s = (Return all1, s1)
    /\ prop (modelName modelDesc) all2 = VRecord all1
    /\ forall k, k ∈ Obj.keys all2
                 <-> k = modelName modelDesc \/ k ∈ Obj.keys (default [] (mixins modelDesc)).
Proof.
  intros Hmix Hget.
  assert (Hrun : m_state (construct (schemaAfter modelDesc)) s = (Return all2, s2)).
  { revert Hget. unfold getState, bind.
    destruct (m_state (construct (schemaAfter modelDesc)) s) as [[a|e] s0]; [|discriminate].
    now intros [= <- <-]. }
  clear Hget. revert Hrun.
  unfold construct at 1. unfold m_state at 1, composeState, mixIn.
  cbn [mixinState]. rewrite mixIn_state. cbn [mixinState].
  cbn [schemaAfter mixins state modelName fmap option_fmap option_map default].
  set (mxs := default [] (mixins modelDesc)) in *.
  set (ms := fold_left (fun a (x : string * mixin) => Obj.set x.1 (mx_state x.2) a) mxs []).
  destruct (fold_set_keys mx_state mxs []) as [_ Hkeys]. fold ms in Hkeys.
  unfold bind at 1. unfold id. rewrite wrapState_nests. unfold bind at 1.
  destruct (m_state (construct modelDesc) s) as [[all1|e] s1] eqn:E; [|discriminate].
  cbn [ret]. intros H. destruct (composeLoop ms _ _ _ _ H) as (H1 & H2 & _).
  exists all1, s1. split; [|split].
  - unfold getState. now rewrite (bind_return _ _ s s1 all1 E).
  - unfold prop. rewrite H2.
    + cbn. now rewrite String.eqb_refl.
    + rewrite Hkeys. intros [Hn|Hm]; [now apply elem_of_nil in Hn|contradiction].
  - intros k. rewrite H1, Hkeys. unfold Obj.keys at 1. cbn [map fst].
    rewrite elem_of_cons. split.
    + intros [[->|Hn]|[Hn|Hm]]; try (now apply elem_of_nil in Hn); tauto.
    + intros [->|Hm]; [left; now left|right; now right].
Qed.

Lemma schema_reuse_nests_state_witness :
  exists all1 s1,
    getState (construct (counterDesc None)) StatesUndefined ∅ = (Return all1, s1)
    /\ prop "counter" [("counter", VRecord [("counter", VObject 0)])] = VRecord all1
    /\ forall k, k ∈ Obj.keys [("counter", VRecord [("counter", VObject 0)])]
                 <-> k = "counter" \/ k ∈ [].
Proof.
  refine (schema_reuse_nests_state (counterDesc None) ∅ {[ 0 := {[ "n" := VNum 0 ]} ]}
            [("counter", VRecord [("counter", VObject 0)])] _ _).
  - apply not_elem_of_nil.
  - reflexivity.
Defined.

(** * A namespace without mutation table *)

(** A schema without [mutations]: the constructor puts the empty object in
    its place and [regDefaultDesc] is not run on it, so the namespace
    [modelName] has no mutation table, unless a mixin brings one. *)
Lemma construct_without_mutations (modelDesc : modelDesc value) :
  mutations modelDesc = None ->
  modelName modelDesc ∉ Obj.keys (default [] (mixins modelDesc)) ->
  getStateMutations (construct modelDesc) (Some (modelName modelDesc)) = None.
Proof.
  intros Hnone Hmix. unfold getStateMutations, construct, m_mutations, mixIn.
  rewrite mixIn_mutations. cbn [mixedMutations].
  change (key_of (Some (modelName modelDesc))) with (modelName modelDesc).
  rewrite (get_fold_set_notin (fun x : mixin => ETable (mx_mutations x))) by exact Hmix.
  now rewrite Hnone.
Qed.

(** C8. A namespace [ns] that has actions and no mutation table (the
    model's own namespace when the schema has no [mutations], a namespace
    that [mutations] does not list): the context that [dispatch] builds for
    an action of [ns] has [undefined] for its table, and an action that
    starts with [context.dispatch(mutationName, ...args)] does not get
    [undefined] back: the call throws a [TypeError], for any name, and
    [dispatch] throws it, in the ES module and in the bundled build. *)
Theorem context_dispatch_throws_without_table (depth : nat) (m : Model)
    (action ns mutationName : string) (table : entry actionFn) (f : actionFn)
    (rest : context -> list value -> value -> M value)
    (margs bizArgs : list value) (s s1 : store) (snap : list (string * value)) :
  beforeDispatchHanlers m = [] ->
  actionStateMap m !! action = Some ns ->
  Obj.get ns (m_actions m) = Some table ->
  Obj.get action (as_table table) = Some f ->
  (forall ctx args s0,
      f ctx args s0 = (r <- ctx_dispatch ctx mutationName margs ;; rest ctx args r) s0) ->
  getStateMutations m (Some ns) = None ->
  getState m (StatesString ns) s = (Return snap, s1) ->
  exists what,
    dispatch depth m action bizArgs s = (Throw (TypeError what), s1)
    /\ Dist.dispatch m action bizArgs s = (Throw (TypeError what), s1).
Proof.
  intros Hh Hns Ht Hf Hbody Hmut Hsnap.
  exists "mutations is undefined".
  assert (Hcall : forall svc,
             f (makeActionContext (getStateMutations m (Some ns)) (prop ns snap) svc)
               bizArgs s1
             = (Throw (TypeError "mutations is undefined"), s1)).
  { intros svc. rewrite Hbody, Hmut. now apply bind_throw. }
  assert (E : forall self,
             dispatchWith self m action bizArgs s
             = (Throw (TypeError "mutations is undefined"), s1)).
  { intros self. unfold dispatchWith. rewrite Hns.
    change (key_of (Some ns)) with ns. cbn [statesOfKey].
    rewrite (bind_return _ _ s s1 snap) by exact Hsnap.
    apply bind_throw.
    rewrite (proj1 (applyAction_no_handler m ns action table f _ bizArgs s1 Hh Ht Hf)).
    apply bind_throw. apply Hcall. }
  split.
  - destruct depth; cbn [dispatch]; apply E.
  - unfold Dist.dispatch. rewrite Hns.
    change (key_of (Some ns)) with ns. cbn [statesOfKey].
    rewrite (bind_return _ _ s s1 snap) by exact Hsnap.
    apply bind_throw.
    rewrite (proj2 (applyAction_no_handler m ns action table f _ bizArgs s1 Hh Ht Hf)).
    apply Hcall.
Qed.

Lemma context_dispatch_throws_without_table_witness :
  getStateMutations (construct bareDesc) (Some "bare") = None
  /\ (exists what,
        dispatch 1 (construct bareDesc) "incA" [] ∅
        = (Throw (TypeError what), {[ 0 := {[ "n" := VNum 0 ]} ]})
        /\ Dist.dispatch (construct bareDesc) "incA" [] ∅
           = (Throw (TypeError what), {[ 0 := {[ "n" := VNum 0 ]} ]}))
  /\ getStateMutations (construct sectionedDesc) (Some "m") = Some (ETable [])
  /\ getStateMutations (construct sectionedDesc) (Some "a") = None
  /\ exists what,
       dispatch 1 (construct sectionedDesc) "incA" [] ∅
       = (Throw (TypeError what), {[ 0 := {[ "n" := VNum 0 ]} ]})
       /\ Dist.dispatch (construct sectionedDesc) "incA" [] ∅
          = (Throw (TypeError what), {[ 0 := {[ "n" := VNum 0 ]} ]}).
Proof.
  assert (Hbody : forall ctx args s0,
             incA ctx args s0
             = (r <- ctx_dispatch ctx "inc" [VNum 1] ;; (fun _ _ r => ret r) ctx args r) s0).
  { intros ctx args s0. unfold incA, bind, ret.
    now destruct (ctx_dispatch ctx "inc" [VNum 1] s0) as [[r|e] s']. }
  split; [reflexivity|]. split; [|split; [reflexivity|split; [reflexivity|]]].
  - refine (context_dispatch_throws_without_table 1 (construct bareDesc) "incA" "bare" "inc"
              (ETable [("incA", incA)]) incA (fun _ _ r => ret r) [VNum 1] []
              ∅ {[ 0 := {[ "n" := VNum 0 ]} ]} [("bare", VObject 0)] _ _ _ _ Hbody _ _);
      reflexivity.
  - refine (context_dispatch_throws_without_table 1 (construct sectionedDesc) "incA" "a" "inc"
              (ETable [("incA", incA)]) incA (fun _ _ r => ret r) [VNum 1] []
              ∅ {[ 0 := {[ "n" := VNum 0 ]} ]} [("a", VUndefined)] _ _ _ _ Hbody _ _);
      reflexivity.
Defined.

(** * Collisions between namespaces *)

Section KeepsTail.
Context {V : Type} (P : string * V -> Prop) (N : string) (v : V).




End KeepsTail.






